(** * bluescan: controller normalization, cleanup and the fault layer

    A shallow embedding of [src/bluescan/__main__.py]: [prepare_hci],
    [clean] and [main].  Python's effects are made explicit: a function
    of the source becomes a state-and-exception computation over a
    [World] (the host's file system and service, and the chronological
    list of observable events), and every call that leaves the file is
    answered by an environment [Env]. *)

From Stdlib Require Import ZArith Ascii String HexString DecimalString.
From stdpp Require Import gmap strings list.

Local Open Scope string_scope.
#[local] Set Warnings "-clear-no-such-hyp".

(** ** Python strings *)

Definition nl : string := String "010"%char "".

(** [str.upper()], exact on ASCII text. *)
Definition upper_ascii (c : ascii) : ascii :=
  let n := nat_of_ascii c in
  if ((97 <=? n) && (n <=? 122))%nat then ascii_of_nat (n - 32) else c.

Fixpoint upper (s : string) : string :=
  match s with
  | "" => ""
  | String c r => String (upper_ascii c) (upper r)
  end.

(** [pat in s] *)
Fixpoint contains (pat s : string) : bool :=
  String.prefix pat s ||
  match s with
  | "" => false
  | String _ r => contains pat r
  end.

(** [sep.join(l)] *)
Fixpoint join (sep : string) (l : list string) : string :=
  match l with
  | [] => ""
  | [x] => x
  | x :: r => x ++ sep ++ join sep r
  end.

(** ['{:02x}'.format(z)] *)
Definition format_02x (z : Z) : string :=
  match z with
  | Z0 => "00"
  | Zpos p => let h := HexString.Raw.of_pos p "" in
              if (String.length h <? 2)%nat then "0" ++ h else h
  | Zneg p => "-" ++ HexString.Raw.of_pos p ""
  end.

(** ['%d' % z] *)
Definition format_d (z : Z) : string := NilZero.string_of_int (Z.to_int z).

(** ** pathlib.PosixPath *)

Record PosixPath := { root : string; parts : list string }.

Fixpoint components (s : string) : list string :=
  match s with
  | "" => [""]
  | String c r =>
      let cs := components r in
      if Ascii.eqb c "/" then "" :: cs
      else match cs with
           | h :: t => String c h :: t
           | [] => [String c ""]
           end
  end.

Definition parse_path (s : string) : PosixPath :=
  {| root := if String.prefix "//" s && negb (String.prefix "///" s) then "//"
             else if String.prefix "/" s then "/" else "";
     parts := List.filter (fun c => negb (String.eqb c "") && negb (String.eqb c "."))
                          (components s) |}.

(** [p / s]: an absolute right operand replaces the left one. *)
Definition path_div (p : PosixPath) (s : string) : PosixPath :=
  let q := parse_path s in
  if String.eqb (root q) "" then {| root := root p; parts := parts p ++ parts q |}
  else q.

Definition path_str (p : PosixPath) : string :=
  match parts p with
  | [] => if String.eqb (root p) "" then "." else root p
  | ps => root p ++ join "/" ps
  end.

(** ** Exceptions and results *)

Inductive OSErrorKind :=
  IsADirectoryError | NotADirectoryError | FileNotFoundError.

Inductive exn :=
  | RuntimeError (msg : string)
  | ValueError (msg : string)
  | BTLEException (msg : string)
  | PluginInstallError (msg : string)
  | HciError (msg : string)
  | KeyboardInterrupt
  | SystemExit (code : Z)
  | CalledProcessError (cmd : string) (returncode : Z) (output : string)
  | TimeoutExpired (cmd : string)
  | OSError (kind : OSErrorKind) (path : string)
  | KeyError (key : string)
  | TypeError (msg : string)
  | AttributeError (msg : string)
  | UnboundLocalError (name : string).

Inductive Result (A : Type) :=
  | Ok (a : A)
  | Raise (e : exn).
Arguments Ok {A} a.
Arguments Raise {A} e.

Definition is_Ok {A} (r : Result A) : bool :=
  match r with Ok _ => true | Raise _ => false end.

(** ** Values the orchestrator handles *)

(** A scan engine's report: its [type] tag and the outcome of its
    [print()] and [store()] methods. *)
Record ScanResult := {
  sr_type : string;
  sr_print : Result unit;
  sr_store : Result unit
}.

(** The values of the option dictionary returned by [parse_cmdline()]
    and of what the collaborators return. *)
Inductive pyval :=
  | PNone
  | PBool (b : bool)
  | PStr (s : string)
  | PList (l : list string)
  | PObj (r : ScanResult).

Definition truthy (v : pyval) : bool :=
  match v with
  | PNone => false
  | PBool b => b
  | PStr s => negb (String.eqb s "")
  | PList l => match l with [] => false | _ => true end
  | PObj _ => true
  end.

Definition eq_str (v : pyval) (s : string) : bool :=
  match v with PStr t => String.eqb t s | _ => false end.

Definition is_None (v : pyval) : bool :=
  match v with PNone => true | _ => false end.

(** The reply to an HCI command: a Command Complete event. *)
Record CmdComplete := { status : Z; bd_addr : list Byte.byte }.

Inductive HciCommand :=
  | inquiry_cancel
  | exit_periodic_inquiry_mode
  | write_scan_enable
  | le_set_advertising_enable
  | le_set_scan_enable
  | set_event_filter
  | read_bd_addr.

#[global] Instance HciCommand_eq_dec : EqDecision HciCommand.
Proof. solve_decision. Defined.

Inductive Level := DEBUG | INFO | WARNING | ERROR.

(** ** The world *)

Inductive EntryKind := RegularFile | Directory.

Record Host := {
  fs : gmap string EntryKind;
  bluetooth_active : bool
}.

Inductive Event :=
  | Shell (cmd : string)
  | HciOpen (iface : string)
  | HciSend (c : HciCommand)
  | HciClose
  | OsRemove (path : string)
  | Log (lvl : Level) (msg : string)
  | Print (s : string)
  | PrintExc
  | Call (f : string) (args : list pyval)
  | Render (r : ScanResult)
  | Store (r : ScanResult).

Record World := { host : Host; events : list Event }.

Definition emit_event (e : Event) (w : World) : World :=
  {| host := host w; events := events w ++ [e] |}.

Definition set_fs (m : gmap string EntryKind) (w : World) : World :=
  {| host := {| fs := m; bluetooth_active := bluetooth_active (host w) |};
     events := events w |}.

(** ** What lies outside the file *)

(** Constants, tables and pure helpers of the imported packages
    ([bthci], [xpycommon], [pyclui]) and of Python.
    [ControllerErrorCodes_name c] is [ControllerErrorCodes[c].name],
    [None] where the subscript raises; [format_args d] is the text of
    ["{}".format(d)]. *)
Class Packages := {
  SUCCESS : Z;
  COMMAND_DISALLOWED : Z;
  ControllerErrorCodes_name : Z -> option string;
  bd_addr_bytes2str : list Byte.byte -> string;
  blue : string -> string;
  format_args : gmap string pyval -> string
}.

(** The answers of the collaborators during one run. The shell acts on
    the host; a collaborator of the package ([.ui], [.helper],
    [.plugin], the scanners) sees the events so far. A call returns a
    value or raises; an interrupt by the user is the answer
    [Raise KeyboardInterrupt] to the call it arrives in. *)
Record Env := {
  sh : string -> Host -> Result string * Host;
  find_rfkill_devid : string -> Result Z;
  HCI_new : string -> Result unit;
  HCI_reply : HciCommand -> Result CmdComplete;
  HCI_close : Result unit;
  HCI_get_default_hcistr : Result string;
  parse_cmdline : Result (gmap string pyval);
  collaborator : list Event -> string -> list pyval -> Result pyval
}.

(** ** State and exceptions *)

Definition M (S A : Type) : Type := S -> Result A * S.

Definition ret {S A} (a : A) : M S A := fun s => (Ok a, s).

Definition raise {S A} (e : exn) : M S A := fun s => (Raise e, s).

Definition bind {S A B} (c : M S A) (k : A -> M S B) : M S B :=
  fun s =>
    match c s with
    | (Ok a, s') => k a s'
    | (Raise e, s') => (Raise e, s')
    end.

Definition of_result {S A} (r : Result A) : M S A := fun s => (r, s).

Declare Scope py_scope.
Delimit Scope py_scope with py.
Notation "x <- c ;; k" := (bind c (fun x => k))
  (at level 100, c at next level, right associativity) : py_scope.
Notation "c ;; k" := (bind c (fun _ => k))
  (at level 100, right associativity) : py_scope.
Notation "'when' b 'then' c" := (if b then c else ret tt)
  (at level 100, b at level 99, right associativity) : py_scope.

Definition emit (e : Event) : M World unit :=
  fun w => (Ok tt, emit_event e w).

Section Program.
Context `{Packages} (env : Env).
Local Open Scope py_scope.

(** *** Primitives *)

Definition logger (lvl : Level) (msg : string) : M World unit :=
  emit (Log lvl msg).

(** [subprocess.check_output(cmd, stderr=STDOUT, timeout=.., shell=True)];
    the output is kept as the text that [decode()] gives. *)
Definition check_output (cmd : string) : M World string :=
  fun w =>
    let w1 := emit_event (Shell cmd) w in
    let '(r, h) := sh env cmd (host w1) in
    (r, {| host := h; events := events w1 |}).

Definition HCI (iface : string) : M World unit :=
  emit (HciOpen iface) ;; of_result (HCI_new env iface).

Definition hci_send (c : HciCommand) : M World CmdComplete :=
  emit (HciSend c) ;; of_result (HCI_reply env c).

Definition hci_close : M World unit :=
  emit HciClose ;; of_result (HCI_close env).

(** [ControllerErrorCodes[c].name] *)
Definition code_name (c : Z) : M World string :=
  match ControllerErrorCodes_name c with
  | Some n => ret n
  | None => raise (KeyError (format_d c))
  end.

(** ["{} returned, status: 0x{:02x} {}".format(..)] with its arguments
    evaluated first. *)
Definition returned_status (what : string) (cc : CmdComplete) : M World string :=
  n <- code_name (status cc) ;;
  ret (what ++ " returned, status: 0x" ++ format_02x (status cc) ++ " " ++ n).

Definition warn_status (what : string) (cc : CmdComplete) : M World unit :=
  msg <- returned_status what cc ;;
  logger WARNING msg.

(** [cmd_complete.status not in (SUCCESS, COMMAND_DISALLOWED)] *)
Definition not_accepted (cc : CmdComplete) : bool :=
  negb ((status cc =? SUCCESS)%Z || (status cc =? COMMAND_DISALLOWED)%Z).

(** *** The cache directory *)

Definition strip_prefix (p s : string) : option string :=
  if String.prefix p s
  then Some (String.substring (String.length p) (String.length s - String.length p) s)
  else None.

(** [k] names an entry directly inside directory [d]. *)
Definition is_child_of (d k : string) : bool :=
  match strip_prefix (d ++ "/") k with
  | Some name => negb (String.eqb name "") && negb (contains "/" name)
  | None => false
  end.

(** The entries directly inside [d], listed in the order of the keys;
    [iterdir] yields them in the order of the file system. *)
Definition children (d : string) (m : gmap string EntryKind) : list string :=
  List.filter (is_child_of d) (map_to_list m).*1.

Definition path_exists (p : PosixPath) : M World bool :=
  fun w => (Ok (bool_decide (is_Some (fs (host w) !! path_str p))), w).

Definition iterdir (p : PosixPath) : M World (list string) :=
  fun w =>
    match fs (host w) !! path_str p with
    | Some Directory => (Ok (children (path_str p) (fs (host w))), w)
    | Some RegularFile => (Raise (OSError NotADirectoryError (path_str p)), w)
    | None => (Raise (OSError FileNotFoundError (path_str p)), w)
    end.

Definition os_remove (f : string) : M World unit :=
  emit (OsRemove f) ;;
  fun w =>
    match fs (host w) !! f with
    | Some RegularFile => (Ok tt, set_fs (delete f (fs (host w))) w)
    | Some Directory => (Raise (OSError IsADirectoryError f), w)
    | None => (Raise (OSError FileNotFoundError f), w)
    end.

(** [for file in files: os.remove(file)] *)
Fixpoint remove_each (files : list string) : M World unit :=
  match files with
  | [] => ret tt
  | f :: rest => os_remove f ;; remove_each rest
  end.

Definition cache_path (local_bd_addr : string) : PosixPath :=
  path_div (path_div (parse_path "/var/lib/bluetooth/") local_bd_addr) "cache".

Definition clear_cache (local_bd_addr : string) : M World unit :=
  let p := cache_path local_bd_addr in
  present <- path_exists p ;;
  when present then
    (files <- iterdir p ;;
     remove_each files).

(** *** prepare_hci *)

Definition prepare_hci (iface : string) : M World unit :=
  devid <- of_result (find_rfkill_devid env iface) ;;
  check_output ("rfkill unblock " ++ format_d devid) ;;
  check_output ("hciconfig " ++ iface ++ " up") ;;
  check_output "systemctl restart bluetooth.service" ;;
  HCI iface ;;
  logger DEBUG "Sending hci.inquiry_cancel()" ;;
  cmd_complete <- hci_send inquiry_cancel ;;
  (when not_accepted cmd_complete then
     warn_status "hci.inquiry_cancel()" cmd_complete) ;;
  logger DEBUG "Sending hci.exit_periodic_inquiry_mode()" ;;
  cmd_complete <- hci_send exit_periodic_inquiry_mode ;;
  (when not_accepted cmd_complete then
     warn_status "hci.exit_periodic_inquiry_mode()" cmd_complete) ;;
  (* the reply of write_scan_enable is not bound: [cmd_complete] is
     still the reply of exit_periodic_inquiry_mode *)
  hci_send write_scan_enable ;;
  (when not_accepted cmd_complete then
     warn_status "hci.write_scan_enable()" cmd_complete) ;;
  cmd_complete <- hci_send le_set_advertising_enable ;;
  (when not_accepted cmd_complete then
     warn_status "hci.le_set_advertising_enable()" cmd_complete) ;;
  cmd_complete <- hci_send le_set_scan_enable ;;
  (when not_accepted cmd_complete then
     warn_status "hci.le_set_scan_enable()" cmd_complete) ;;
  cmd_complete <- hci_send set_event_filter ;;
  (when negb (status cmd_complete =? SUCCESS)%Z then
     warn_status "hci.set_event_filter()" cmd_complete) ;;
  cmd_complete <- hci_send read_bd_addr ;;
  local_bd_addr <-
    (if negb (status cmd_complete =? SUCCESS)%Z
     then (msg <- returned_status "hci.read_bd_addr()" cmd_complete ;;
           raise (RuntimeError msg))
     else ret (upper (bd_addr_bytes2str (bd_addr cmd_complete)))) ;;
  clear_cache local_bd_addr ;;
  hci_close.

(** *** clean *)

Definition clean (laddr raddr : string) : M World unit :=
  check_output (join " " ["sudo"; "systemctl"; "stop"; "bluetooth.service"]) ;;
  output <- check_output
    (join " " ["sudo"; "rm"; "-rf";
               "/var/lib/bluetooth/" ++ laddr ++ "/" ++ upper raddr]) ;;
  (when negb (String.eqb output "") then logger INFO output) ;;
  output <- check_output
    (join " " ["sudo"; "rm"; "-rf";
               "/var/lib/bluetooth/" ++ laddr ++ "/" ++ "cache" ++ "/" ++ upper raddr]) ;;
  (when negb (String.eqb output "") then logger INFO output) ;;
  check_output (join " " ["sudo"; "systemctl"; "start"; "bluetooth.service"]) ;;
  ret tt.

(** *** main *)

(** The frame of [main]: its local [args] ([None] while unbound) and
    the world. *)
Record Frame := { args : option (gmap string pyval); world : World }.

Definition lift {A} (c : M World A) : M Frame A :=
  fun s => let '(r, w) := c (world s) in (r, {| args := args s; world := w |}).

Definition bind_args (d : gmap string pyval) : M Frame unit :=
  fun s => (Ok tt, {| args := Some d; world := world s |}).

(** [args[k]] *)
Definition getitem (k : string) : M Frame pyval :=
  fun s =>
    match args s with
    | None => (Raise (UnboundLocalError "args"), s)
    | Some d => match d !! k with
                | Some v => (Ok v, s)
                | None => (Raise (KeyError k), s)
                end
    end.

(** [args[k] = v] *)
Definition setitem (k : string) (v : pyval) : M Frame unit :=
  fun s =>
    match args s with
    | None => (Raise (UnboundLocalError "args"), s)
    | Some d => (Ok tt, {| args := Some (<[k := v]> d); world := world s |})
    end.

(** A call into a collaborator of the package. *)
Definition call (f : string) (xs : list pyval) : M Frame pyval :=
  lift (fun w => (collaborator env (events w) f xs, emit_event (Call f xs) w)).

(** A value used where the source needs a [str]: an operand of
    [' '.join], or an argument of [prepare_hci] and [clean], whose
    parameters are annotated [str]. With another value the source
    fails too, but later in [prepare_hci] and [clean], after their
    first commands; the runs described here are those with strings in
    these places. *)
Definition as_str {S} (v : pyval) : M S string :=
  match v with
  | PStr s => ret s
  | _ => raise (TypeError "str expected")
  end.

Definition print (s : string) : M World unit := emit (Print s).

(** Lines 146-158: normalization, skipped for [--adv]. *)
Definition normalize : M Frame unit :=
  adv <- getitem "--adv" ;;
  when negb (truthy adv) then
    (i <- getitem "-i" ;;
     (when eq_str i "The default HCI device" then
        match HCI_get_default_hcistr env with
        | Ok s => setitem "-i" (PStr s)
        | Raise (HciError _) =>
            lift (logger ERROR "No available HCI device") ;;
            raise (SystemExit (-1))
        | Raise e => raise e
        end) ;;
     i <- getitem "-i" ;;
     iface <- as_str i ;;
     lift (prepare_hci iface)).

(** Lines 160-192: the scan mode selects the engine; the value is
    [scan_result]. *)
Definition dispatch : M Frame pyval :=
  m <- getitem "-m" ;;
  if eq_str m "br" then
    i <- getitem "-i" ;;
    call "BRScanner" [i] ;;
    lmp <- getitem "--lmp-feature" ;;
    if truthy lmp then
      a <- getitem "BD_ADDR" ;;
      call "BRScanner.scan_lmp_feature" [a] ;;
      ret PNone
    else
      i <- getitem "-i" ;;
      call "BRScanner" [i] ;;
      l <- getitem "--inquiry-len" ;;
      call "BRScanner.inquiry" [l] ;;
      ret PNone
  else
  m <- getitem "-m" ;;
  if eq_str m "le" then
    adv <- getitem "--adv" ;;
    if truthy adv then
      dev_paths <- call "get_microbit_devpaths" [] ;;
      call "LeScanner" [dev_paths] ;;
      ch <- getitem "--channel" ;;
      call "LeScanner.sniff_adv" [ch] ;;
      ret PNone
    else
    ll <- getitem "--ll-feature" ;;
    if truthy ll then
      i <- getitem "-i" ;;
      call "LeScanner" [i] ;;
      a <- getitem "BD_ADDR" ;;
      t <- getitem "--addr-type" ;;
      to <- getitem "--timeout" ;;
      call "LeScanner.scan_ll_feature" [a; t; to] ;;
      ret PNone
    else
    smp <- getitem "--smp-feature" ;;
    if truthy smp then
      i <- getitem "-i" ;;
      call "LeScanner" [i] ;;
      a <- getitem "BD_ADDR" ;;
      t <- getitem "--addr-type" ;;
      to <- getitem "--timeout" ;;
      call "LeScanner.detect_pairing_feature" [a; t; to] ;;
      ret PNone
    else
      i <- getitem "-i" ;;
      call "LeScanner" [i] ;;
      to <- getitem "--timeout" ;;
      st <- getitem "--scan-type" ;;
      so <- getitem "--sort" ;;
      call "LeScanner.scan_devs" [to; st; so]
  else
  m <- getitem "-m" ;;
  if eq_str m "sdp" then
    i <- getitem "-i" ;;
    call "SDPScanner" [i] ;;
    a <- getitem "BD_ADDR" ;;
    call "SDPScanner.scan" [a] ;;
    ret PNone
  else
  m <- getitem "-m" ;;
  if eq_str m "gatt" then
    i <- getitem "-i" ;;
    io <- getitem "--io-capability" ;;
    call "GattScanner" [i; io] ;;
    a <- getitem "BD_ADDR" ;;
    t <- getitem "--addr-type" ;;
    call "GattScanner.scan" [a; t]
  else
  c <- getitem "--clean" ;;
  if truthy c then
    i <- getitem "-i" ;;
    call "BlueScanner" [i] ;;
    i <- getitem "-i" ;;
    call "BlueScanner" [i] ;;
    laddr <- call "BlueScanner.hci_bd_addr" [] ;;
    raddr <- getitem "BD_ADDR" ;;
    laddr <- as_str laddr ;;
    raddr <- as_str raddr ;;
    lift (clean laddr raddr) ;;
    ret PNone
  else
    lift (logger ERROR "Invalid scan mode") ;;
    ret PNone.

(** Lines 194-200: [scan_result] is printed and stored. *)
Definition print_scan_result (scan_result : pyval) : M World unit :=
  when negb (is_None scan_result) then
    (print "" ;;
     print "" ;;
     r <- match scan_result with
          | PObj r => ret r
          | _ => raise (AttributeError "type")
          end ;;
     print (blue ("----------------" ++ sr_type r ++ " Scan Result" ++ "----------------")) ;;
     emit (Render r) ;;
     of_result (sr_print r) ;;
     emit (Store r) ;;
     of_result (sr_store r)).

(** The body of [try] in [main]. *)
Definition main_try : M Frame unit :=
  lift (emit (Call "parse_cmdline" [])) ;;
  d <- of_result (parse_cmdline env) ;;
  bind_args d ;;
  lift (logger DEBUG ("parse_cmdline() returned" ++ nl ++ "    args: " ++ format_args d)) ;;
  v <- getitem "--list-installed-plugins" ;;
  if truthy v then call "list_plugins" [] ;; ret tt else
  v <- getitem "--install-plugin" ;;
  if truthy v then
    plugin_wheel_path <- getitem "--install-plugin" ;;
    call "install_plugin" [plugin_wheel_path] ;; ret tt
  else
  v <- getitem "--uninstall-plugin" ;;
  if truthy v then
    plugin_name <- getitem "--uninstall-plugin" ;;
    call "uninstall_plugin" [plugin_name] ;; ret tt
  else
  v <- getitem "--run-plugin" ;;
  if truthy v then
    plugin_name <- getitem "--run-plugin" ;;
    opts <- getitem "<plugin-opt>" ;;
    call "run_plugin" [plugin_name; opts] ;; ret tt
  else
  normalize ;;
  scan_result <- dispatch ;;
  lift (print_scan_result scan_result).

(** The [except] clauses of [main], in the order of the source. *)
Definition main_except (e : exn) : M Frame unit :=
  match e with
  | RuntimeError msg =>
      lift (logger ERROR ("RuntimeError" ++ ": " ++ msg)) ;;
      lift (emit PrintExc) ;;
      raise (SystemExit 1)
  | ValueError msg =>
      lift (logger ERROR ("ValueError" ++ ": " ++ msg)) ;;
      lift (emit PrintExc) ;;
      raise (SystemExit 1)
  | BTLEException msg =>
      lift (logger ERROR
              (msg ++ (if contains "le on" msg
                       then nl ++ "No BLE adapter or missing sudo?" else "")))
  | PluginInstallError msg =>
      lift (logger ERROR ("Failed to install plugin: " ++ msg))
  | KeyboardInterrupt =>
      i <- getitem "-i" ;;
      (when negb (is_None i) then
         (iface <- as_str i ;;
          lift (check_output (join " " ["hciconfig"; iface; "reset"])) ;;
          ret tt)) ;;
      lift (print "") ;;
      lift (logger INFO ("Canceled" ++ nl))
  | _ => raise e
  end.

Definition main : M Frame unit :=
  fun s =>
    match main_try s with
    | (Ok _, s') => (Ok tt, s')
    | (Raise e, s') => main_except e s'
    end.

End Program.

(** The code with which [main] ends: 0 for a return, the argument [n]
    of [exit(n)], 1 for an exception that reaches the top. The
    operating system reports it modulo 256. *)
Definition exit_code (r : Result unit) : Z :=
  match r with
  | Ok _ => 0
  | Raise (SystemExit n) => n
  | Raise _ => 1
  end.

(** ** Observations on a run *)

Definition is_HciOpen (e : Event) : bool :=
  match e with HciOpen _ => true | _ => false end.

Definition is_HciClose (e : Event) : bool :=
  match e with HciClose => true | _ => false end.

Definition is_Render (e : Event) : bool :=
  match e with Render _ => true | _ => false end.

Definition is_Store (e : Event) : bool :=
  match e with Store _ => true | _ => false end.

Definition is_OsRemove (e : Event) : bool :=
  match e with OsRemove _ => true | _ => false end.

Definition count (p : Event -> bool) (l : list Event) : nat :=
  length (List.filter p l).

(** The HCI commands sent, in order. *)
Fixpoint hci_sends (l : list Event) : list HciCommand :=
  match l with
  | [] => []
  | HciSend c :: r => c :: hci_sends r
  | _ :: r => hci_sends r
  end.

(** The name under which the source reports a command. *)
Definition source_name (c : HciCommand) : string :=
  match c with
  | inquiry_cancel => "hci.inquiry_cancel()"
  | exit_periodic_inquiry_mode => "hci.exit_periodic_inquiry_mode()"
  | write_scan_enable => "hci.write_scan_enable()"
  | le_set_advertising_enable => "hci.le_set_advertising_enable()"
  | le_set_scan_enable => "hci.le_set_scan_enable()"
  | set_event_filter => "hci.set_event_filter()"
  | read_bd_addr => "hci.read_bd_addr()"
  end.

(** The text reporting status [z] of command [c] under name [n]. *)
Definition status_report (c : HciCommand) (z : Z) (n : string) : string :=
  source_name c ++ " returned, status: 0x" ++ format_02x z ++ " " ++ n.

(** The paths at or below [p] are dropped: the effect of [rm -rf p]. *)
Definition under (p k : string) : bool :=
  String.eqb k p || String.prefix (p ++ "/") k.

Definition remove_subtree (p : string) (m : gmap string EntryKind)
  : gmap string EntryKind :=
  filter (fun kv => under p kv.1 = false) m.

(** ** Assumptions on a run, as predicates *)

Section Assumptions.
Context `{Packages}.

(** The host commands of lines 36-41 and the opening of the handle
    return, leaving the host in state [h']. *)
Definition host_prepared (env : Env) (iface : string) (devid : Z)
    (h h' : Host) : Prop :=
  exists o1 h1 o2 h2 o3,
    find_rfkill_devid env iface = Ok devid /\
    sh env ("rfkill unblock " ++ format_d devid) h = (Ok o1, h1) /\
    sh env ("hciconfig " ++ iface ++ " up") h1 = (Ok o2, h2) /\
    sh env "systemctl restart bluetooth.service" h2 = (Ok o3, h') /\
    HCI_new env iface = Ok tt.

(** Every command completes, [c] with status [st c]; the address
    carried by the replies is [addr]. *)
Definition replies (env : Env) (st : HciCommand -> Z)
    (addr : list Byte.byte) : Prop :=
  forall c, HCI_reply env c = Ok {| status := st c; bd_addr := addr |}.

(** The table of error codes knows the status of every intermediate
    command that is not SUCCESS. *)
Definition named (st : HciCommand -> Z) : Prop :=
  forall c, c <> read_bd_addr -> st c <> SUCCESS ->
            is_Some (ControllerErrorCodes_name (st c)).

(** What a failed address read raises: RuntimeError with the report of
    the status, or KeyError where the table does not know the status. *)
Definition address_failure (z : Z) : exn :=
  match ControllerErrorCodes_name z with
  | Some n => RuntimeError (status_report read_bd_addr z n)
  | None => KeyError (format_d z)
  end.

(** A status outside [{SUCCESS, COMMAND_DISALLOWED}]. *)
Definition fatal (z : Z) : bool :=
  negb ((z =? SUCCESS)%Z || (z =? COMMAND_DISALLOWED)%Z).

(** The warning logged at the check that follows command [site], for
    the status [z] examined there. *)
Definition warning (site : HciCommand) (z : Z) : list Event :=
  match ControllerErrorCodes_name z with
  | Some n => [Log WARNING (status_report site z n)]
  | None => []
  end.

(** The events of lines 36-80 when every call returns. *)
Definition controller_trace (iface : string) (devid : Z)
    (st : HciCommand -> Z) : list Event :=
  [Shell ("rfkill unblock " ++ format_d devid);
   Shell ("hciconfig " ++ iface ++ " up");
   Shell "systemctl restart bluetooth.service";
   HciOpen iface;
   Log DEBUG "Sending hci.inquiry_cancel()";
   HciSend inquiry_cancel]
  ++ (if fatal (st inquiry_cancel)
      then warning inquiry_cancel (st inquiry_cancel) else [])
  ++ [Log DEBUG "Sending hci.exit_periodic_inquiry_mode()";
      HciSend exit_periodic_inquiry_mode]
  ++ (if fatal (st exit_periodic_inquiry_mode)
      then warning exit_periodic_inquiry_mode (st exit_periodic_inquiry_mode)
      else [])
  ++ [HciSend write_scan_enable]
  ++ (if fatal (st exit_periodic_inquiry_mode)
      then warning write_scan_enable (st exit_periodic_inquiry_mode) else [])
  ++ [HciSend le_set_advertising_enable]
  ++ (if fatal (st le_set_advertising_enable)
      then warning le_set_advertising_enable (st le_set_advertising_enable)
      else [])
  ++ [HciSend le_set_scan_enable]
  ++ (if fatal (st le_set_scan_enable)
      then warning le_set_scan_enable (st le_set_scan_enable) else [])
  ++ [HciSend set_event_filter]
  ++ (if (st set_event_filter =? SUCCESS)%Z then []
      else warning set_event_filter (st set_event_filter))
  ++ [HciSend read_bd_addr].

(** The cache directory of the controller whose address is [addr]. *)
Definition cache_dir (addr : list Byte.byte) : string :=
  path_str (cache_path (upper (bd_addr_bytes2str addr))).

(** What is left of [prepare_hci] once the address read has replied. *)
Definition finish (env : Env) (z : Z) (addr : list Byte.byte) : M World unit :=
  bind
    (if negb (z =? SUCCESS)%Z
     then bind (returned_status "hci.read_bd_addr()" {| status := z; bd_addr := addr |})
               (fun msg => raise (RuntimeError msg))
     else ret (upper (bd_addr_bytes2str addr)))
    (fun local_bd_addr =>
       bind (clear_cache local_bd_addr) (fun _ => hci_close env)).

(** Where a warning of [controller_trace] comes from: the check after
    [site], which examined status [z]. *)
Definition examined_at (st : HciCommand -> Z) (site : HciCommand) (z : Z) : Prop :=
  match site with
  | inquiry_cancel => z = st inquiry_cancel /\ fatal z = true
  | exit_periodic_inquiry_mode =>
      z = st exit_periodic_inquiry_mode /\ fatal z = true
  | write_scan_enable => z = st exit_periodic_inquiry_mode /\ fatal z = true
  | le_set_advertising_enable =>
      z = st le_set_advertising_enable /\ fatal z = true
  | le_set_scan_enable => z = st le_set_scan_enable /\ fatal z = true
  | set_event_filter => z = st set_event_filter /\ z <> SUCCESS
  | read_bd_addr => False
  end.

End Assumptions.

(** The commands whose check examines their own reply: all but
    [write_scan_enable], whose reply is dropped, and the address read. *)
Definition own_status_checked (c : HciCommand) : bool :=
  match c with
  | write_scan_enable | read_bd_addr => false
  | _ => true
  end.

(** Command [cmd] always returns output [out] and acts as [f] on the
    host. *)
Definition runs (env : Env) (cmd out : string) (f : Host -> Host) : Prop :=
  forall h, sh env cmd h = (Ok out, f h).

Definition set_active (b : bool) (h : Host) : Host :=
  {| fs := fs h; bluetooth_active := b |}.

Definition rm_rf (p : string) (h : Host) : Host :=
  {| fs := remove_subtree p (fs h); bluetooth_active := bluetooth_active h |}.

(** The output of a command, logged when there is one. *)
Definition info (out : string) : list Event :=
  if String.eqb out "" then [] else [Log INFO out].

(** ** What a computation appends to the events *)

Section Appends.
Context {S : Type} (ev : S -> list Event).

(** Whatever the state, [c] appends events [l] to it, and [Q] holds of
    the outcome and [l]. *)
Definition emits {A} (c : M S A) (Q : Result A -> list Event -> Prop) : Prop :=
  forall s, exists l, ev (c s).2 = (ev s ++ l)%list /\ Q (c s).1 l.

(** [c] appends nothing but events that satisfy [p]. *)
Definition only (p : Event -> bool) {A} (c : M S A) : Prop :=
  emits c (fun _ l => Forall (fun e => p e = true) l).

End Appends.

(** Events other than the opening and closing of the handle. *)
Definition not_handle (e : Event) : bool :=
  negb (is_HciOpen e || is_HciClose e).

(** Events other than rendering and storing a report. *)
Definition not_report (e : Event) : bool :=
  negb (is_Render e || is_Store e).

(** What the rest of [prepare_hci] owes about the handle when [n]
    openings are still to come. *)
Definition handle_use (env : Env) (n : nat) (r : Result unit) (l : list Event) : Prop :=
  (count is_HciOpen l <= n)%nat /\
  (count is_HciClose l <= 1)%nat /\
  (r = Ok tt -> count is_HciOpen l = n /\ count is_HciClose l = 1%nat /\
                exists l0, l = (l0 ++ [HciClose])%list) /\
  (forall e, r = Raise e -> HCI_close env = Ok tt -> count is_HciClose l = 0%nat).

(** ** A reference environment *)

(** The Bluetooth Core error codes the examples use. *)
Definition core_packages : Packages := {|
  SUCCESS := 0x00;
  COMMAND_DISALLOWED := 0x0C;
  ControllerErrorCodes_name := fun c =>
    if (c =? 0x00)%Z then Some "SUCCESS"
    else if (c =? 0x01)%Z then Some "UNKNOWN_HCI_COMMAND"
    else if (c =? 0x03)%Z then Some "HARDWARE_FAILURE"
    else if (c =? 0x0C)%Z then Some "COMMAND_DISALLOWED"
    else None;
  bd_addr_bytes2str := fun b =>
    join ":" (map (fun x => format_02x (Z.of_N (Byte.to_N x))) (rev b));
  blue := fun s => s;
  format_args := fun _ => "{...}"
|}.

(** A shell in which every command succeeds silently; [systemctl] and
    [rm -rf] act on the host. *)
Definition posix_sh (cmd : string) (h : Host) : Result string * Host :=
  if String.eqb cmd "sudo systemctl stop bluetooth.service"
  then (Ok "", {| fs := fs h; bluetooth_active := false |})
  else if String.eqb cmd "sudo systemctl start bluetooth.service"
  then (Ok "", {| fs := fs h; bluetooth_active := true |})
  else match strip_prefix "sudo rm -rf " cmd with
       | Some p => (Ok "", {| fs := remove_subtree p (fs h);
                              bluetooth_active := bluetooth_active h |})
       | None => (Ok "", h)
       end.

Definition sample_addr : list Byte.byte :=
  [Byte.xff; Byte.xee; Byte.xdd; Byte.xcc; Byte.xbb; Byte.xaa].

(** A controller answering status [st c] to command [c], a parsed
    option dictionary [d], collaborators answering [co]. *)
Definition sample_env (st : HciCommand -> Z) (d : gmap string pyval)
    (co : string -> Result pyval) : Env := {|
  sh := posix_sh;
  find_rfkill_devid := fun _ => Ok 0%Z;
  HCI_new := fun _ => Ok tt;
  HCI_reply := fun c => Ok {| status := st c; bd_addr := sample_addr |};
  HCI_close := Ok tt;
  HCI_get_default_hcistr := Ok "hci0";
  parse_cmdline := Ok d;
  collaborator := fun _ f _ => co f
|}.

Definition all_success (c : HciCommand) : Z := 0x00.

Definition sample_cache : string := "/var/lib/bluetooth/AA:BB:CC:DD:EE:FF/cache".

Definition world_of (m : gmap string EntryKind) : World :=
  {| host := {| fs := m; bluetooth_active := true |}; events := [] |}.

Definition cache_with_file : gmap string EntryKind :=
  <[sample_cache ++ "/11:22:33:44:55:66" := RegularFile]>
    (<[sample_cache := Directory]> ∅).

Definition cache_with_subdir : gmap string EntryKind :=
  <[sample_cache ++ "/11:22:33:44:55:66" := RegularFile]>
    (<[sample_cache ++ "/lost+found" := Directory]>
       (<[sample_cache := Directory]> ∅)).

Definition sample_args (m : string) (i : pyval) : gmap string pyval :=
  list_to_map
    [("--list-installed-plugins", PBool false); ("--install-plugin", PNone);
     ("--uninstall-plugin", PNone); ("--run-plugin", PNone);
     ("<plugin-opt>", PList []); ("--adv", PBool false); ("-i", i);
     ("-m", PStr m); ("--lmp-feature", PBool false); ("BD_ADDR", PNone);
     ("--inquiry-len", PStr "8"); ("--channel", PStr "37");
     ("--ll-feature", PBool false); ("--smp-feature", PBool false);
     ("--addr-type", PStr "public"); ("--timeout", PStr "10");
     ("--scan-type", PStr "active"); ("--sort", PStr "rssi");
     ("--io-capability", PStr "NoInputNoOutput"); ("--clean", PBool false)].

Definition start_frame (m : gmap string EntryKind) : Frame :=
  {| args := None; world := world_of m |}.

Definition le_report : ScanResult :=
  {| sr_type := "LE"; sr_print := Ok tt; sr_store := Ok tt |}.

(** ** Sample runs *)

Definition only_fails (c0 : HciCommand) (z : Z) (c : HciCommand) : Z :=
  match c0, c with
  | inquiry_cancel, inquiry_cancel
  | exit_periodic_inquiry_mode, exit_periodic_inquiry_mode
  | write_scan_enable, write_scan_enable
  | le_set_advertising_enable, le_set_advertising_enable
  | le_set_scan_enable, le_set_scan_enable
  | set_event_filter, set_event_filter
  | read_bd_addr, read_bd_addr => z
  | _, _ => 0x00
  end%Z.

Definition quiet_env (st : HciCommand -> Z) : Env :=
  sample_env st ∅ (fun _ => Ok PNone).

(** The inquiry cancel fails with HARDWARE_FAILURE. *)
Definition run_cancel_fails : Result unit * World :=
  @prepare_hci core_packages (quiet_env (only_fails inquiry_cancel 0x03))
    "hci0" (world_of ∅).

(** The address read is answered COMMAND_DISALLOWED. *)
Definition run_address_disallowed : Result unit * World :=
  @prepare_hci core_packages (quiet_env (only_fails read_bd_addr 0x0C))
    "hci0" (world_of cache_with_file).

(** The inquiry cancel is answered COMMAND_DISALLOWED and the scan
    disabling fails with HARDWARE_FAILURE. *)
Definition run_benign_then_scan_fails : Result unit * World :=
  @prepare_hci core_packages
    (quiet_env (fun c => match c with
                         | inquiry_cancel => 0x0C
                         | write_scan_enable => 0x03
                         | _ => 0x00
                         end%Z))
    "hci0" (world_of ∅).

(** Leaving periodic inquiry fails; the scan disabling succeeds. *)
Definition run_exit_periodic_fails : Result unit * World :=
  @prepare_hci core_packages (quiet_env (only_fails exit_periodic_inquiry_mode 0x03))
    "hci0" (world_of ∅).

(** Every reply is SUCCESS; the cache holds a file and a directory. *)
Definition run_cache_subdir : Result unit * World :=
  @prepare_hci core_packages (quiet_env all_success) "hci0"
    (world_of cache_with_subdir).

Definition clean_sample : Result unit * World :=
  clean (quiet_env all_success) "AA:BB:CC:DD:EE:FF" "11:22:33:44:55:66"
    (world_of cache_with_file).

Definition interrupted_sh (cmd : string) (h : Host) : Result string * Host :=
  if String.eqb cmd "rfkill unblock 0" then (Raise KeyboardInterrupt, h)
  else posix_sh cmd h.

(** The user interrupts [rfkill unblock], the first command of
    normalization: no handle has been opened yet. *)
Definition interrupted_early : Env := {|
  sh := interrupted_sh;
  find_rfkill_devid := fun _ => Ok 0%Z;
  HCI_new := fun _ => Ok tt;
  HCI_reply := fun c => Ok {| status := 0x00; bd_addr := sample_addr |};
  HCI_close := Ok tt;
  HCI_get_default_hcistr := Ok "hci0";
  parse_cmdline := Ok (sample_args "le" (PStr "hci0"));
  collaborator := fun _ _ _ => Ok PNone
|}.

(** A collaborator raising [e] in call [f0]. *)
Definition failing_in (f0 : string) (e : exn) (f : string) : Result pyval :=
  if String.eqb f f0 then Raise e else Ok PNone.

(** The user interrupts the LE device scan on [hci1]. *)
Definition interrupted_scan : Env :=
  sample_env all_success (sample_args "le" (PStr "hci1"))
    (failing_in "LeScanner.scan_devs" KeyboardInterrupt).

(** The LE engine cannot power the adapter. *)
Definition le_unavailable : Env :=
  sample_env all_success (sample_args "le" (PStr "hci1"))
    (failing_in "LeScanner"
       (BTLEException "Failed to execute management command 'le on'")).

(** The LE device scan returns a report. *)
Definition le_scan_reports : Env :=
  sample_env all_success (sample_args "le" (PStr "hci1"))
    (fun f => if String.eqb f "LeScanner.scan_devs"
              then Ok (PObj le_report) else Ok PNone).

Definition parsed_frame (d : gmap string pyval) : Frame :=
  {| args := Some d; world := world_of ∅ |}.


(** ** Further observations and samples *)

(** The exception classes that an [except] clause of [main] names. *)
Definition caught_by_main (e : exn) : bool :=
  match e with
  | RuntimeError _ | ValueError _ | BTLEException _
  | PluginInstallError _ | KeyboardInterrupt => true
  | _ => false
  end.

(** A shell in which command [bad] raises [e]. *)
Definition failing_sh (bad : string) (e : exn) (cmd : string) (h : Host)
  : Result string * Host :=
  if String.eqb cmd bad then (Raise e, h) else posix_sh cmd h.

(** [sample_env] over another shell. *)
Definition sample_env_on (shell : string -> Host -> Result string * Host)
    (st : HciCommand -> Z) (d : gmap string pyval)
    (co : string -> Result pyval) : Env := {|
  sh := shell;
  find_rfkill_devid := fun _ => Ok 0%Z;
  HCI_new := fun _ => Ok tt;
  HCI_reply := fun c => Ok {| status := st c; bd_addr := sample_addr |};
  HCI_close := Ok tt;
  HCI_get_default_hcistr := Ok "hci0";
  parse_cmdline := Ok d;
  collaborator := fun _ f _ => co f
|}.

(** The address read is refused during an LE scan on [hci1]. *)
Definition address_refused : Env :=
  sample_env (only_fails read_bd_addr 0x0C) (sample_args "le" (PStr "hci1"))
    (fun _ => Ok PNone).

(** The installation of a plugin fails. *)
Definition install_fails : Env :=
  sample_env all_success
    (<["--install-plugin" := PStr "lmp.whl"]> (sample_args "le" (PStr "hci1")))
    (failing_in "install_plugin" (PluginInstallError "not a wheel")).

(** The user interrupts the parsing of the options. *)
Definition interrupted_parsing : Env := {|
  sh := posix_sh;
  find_rfkill_devid := fun _ => Ok 0%Z;
  HCI_new := fun _ => Ok tt;
  HCI_reply := fun c => Ok {| status := 0x00; bd_addr := sample_addr |};
  HCI_close := Ok tt;
  HCI_get_default_hcistr := Ok "hci0";
  parse_cmdline := Raise KeyboardInterrupt;
  collaborator := fun _ _ _ => Ok PNone
|}.

(** The user interrupts the LE scan and the reset of [hci1] fails. *)
Definition reset_fails : Env :=
  sample_env_on
    (failing_sh "hciconfig hci1 reset"
       (CalledProcessError "hciconfig hci1 reset" 1 "Can't init device"))
    all_success (sample_args "le" (PStr "hci1"))
    (failing_in "LeScanner.scan_devs" KeyboardInterrupt).

(** An LE scan on [hci1] over a cache that holds a directory. *)
Definition scan_over_subdir : Result unit * Frame :=
  @main core_packages
    (sample_env all_success (sample_args "le" (PStr "hci1")) (fun _ => Ok PNone))
    (start_frame cache_with_subdir).

(** The steps of normalization and cleanup that act on the host or on
    the controller: shell commands and the use of the handle. *)
Definition is_step (e : Event) : bool :=
  match e with
  | Shell _ | HciOpen _ | HciSend _ | HciClose => true
  | _ => false
  end.

(** The steps of [prepare_hci], in the order of the source. *)
Definition prepare_hci_steps (iface : string) (devid : Z) : list Event :=
  [Shell ("rfkill unblock " ++ format_d devid);
   Shell ("hciconfig " ++ iface ++ " up");
   Shell "systemctl restart bluetooth.service";
   HciOpen iface;
   HciSend inquiry_cancel; HciSend exit_periodic_inquiry_mode;
   HciSend write_scan_enable; HciSend le_set_advertising_enable;
   HciSend le_set_scan_enable; HciSend set_event_filter;
   HciSend read_bd_addr;
   HciClose].

(** The steps of [clean], in the order of the source. *)
Definition clean_steps (laddr raddr : string) : list Event :=
  [Shell "sudo systemctl stop bluetooth.service";
   Shell ("sudo rm -rf /var/lib/bluetooth/" ++ laddr ++ "/" ++ upper raddr);
   Shell ("sudo rm -rf /var/lib/bluetooth/" ++ laddr ++ "/cache/" ++ upper raddr);
   Shell "sudo systemctl start bluetooth.service"].

(** The steps among [l] are the first of [todo], and all of [todo] when
    the outcome is a return. *)
Definition in_order {A} (todo : list Event) (r : Result A) (l : list Event) : Prop :=
  List.filter is_step l `prefix_of` todo /\
  (is_Ok r = true -> List.filter is_step l = todo).


(** A path segment as a device address gives one: no separator, and
    neither empty nor the dot that [pathlib] drops. *)
Definition plain_segment (a : string) : Prop :=
  contains "/" a = false /\ a <> "" /\ a <> ".".

(** Option [k] is present in [d] and false, [None] or empty. *)
Definition flag_off (d : gmap string pyval) (k : string) : Prop :=
  exists v, d !! k = Some v /\ truthy v = false.

(** No plugin action is asked for. *)
Definition no_plugin_action (d : gmap string pyval) : Prop :=
  flag_off d "--list-installed-plugins" /\ flag_off d "--install-plugin" /\
  flag_off d "--uninstall-plugin" /\ flag_off d "--run-plugin".

(** Lines 146-200 of [main]: what follows the plugin actions. *)
Definition scan_run `{Packages} (env : Env) : M Frame unit :=
  bind (normalize env) (fun _ =>
  bind (dispatch env) (fun scan_result =>
  lift (print_scan_result scan_result))).

(** No controller can be found for an LE scan on the default device. *)
Definition no_controller : Env := {|
  sh := posix_sh;
  find_rfkill_devid := fun _ => Ok 0%Z;
  HCI_new := fun _ => Ok tt;
  HCI_reply := fun c => Ok {| status := 0x00; bd_addr := sample_addr |};
  HCI_close := Ok tt;
  HCI_get_default_hcistr := Raise (HciError "no HCI device");
  parse_cmdline := Ok (sample_args "le" (PStr "The default HCI device"));
  collaborator := fun _ _ _ => Ok PNone
|}.

Definition is_Shell (e : Event) : bool :=
  match e with Shell _ => true | _ => false end.

(** The call of a scan operation of an engine (that of a constructor
    is none). *)
Definition is_operation (e : Event) : bool :=
  match e with
  | Call f _ =>
      String.eqb f "BRScanner.scan_lmp_feature" || String.eqb f "BRScanner.inquiry"
      || String.eqb f "LeScanner.sniff_adv" || String.eqb f "LeScanner.scan_ll_feature"
      || String.eqb f "LeScanner.detect_pairing_feature"
      || String.eqb f "LeScanner.scan_devs" || String.eqb f "SDPScanner.scan"
      || String.eqb f "GattScanner.scan"
  | _ => false
  end.

(** Neither a scan operation nor a shell command. *)
Definition is_neutral (e : Event) : bool := negb (is_operation e || is_Shell e).

(** No scan operation, or one and no shell command with it. *)
Definition one_action {A} (r : Result A) (l : list Event) : Prop :=
  count is_operation l = 0%nat \/
  (count is_operation l = 1%nat /\ count is_Shell l = 0%nat).

(** The call of a plugin action. *)
Definition is_plugin_call (e : Event) : bool :=
  match e with
  | Call f _ =>
      String.eqb f "list_plugins" || String.eqb f "install_plugin"
      || String.eqb f "uninstall_plugin" || String.eqb f "run_plugin"
  | _ => false
  end.

(** What [main] does before it chooses an action: the call of
    [parse_cmdline] and the debug log of what it returned. *)
Definition is_preamble (e : Event) : bool :=
  match e with
  | Log DEBUG msg => String.prefix "parse_cmdline() returned" msg
  | Call f _ => String.eqb f "parse_cmdline"
  | _ => false
  end.

(** What the [except] clauses of [main] do: logging, the traceback,
    the blank line, and the reset of an interface. *)
Definition is_handler_event (e : Event) : bool :=
  match e with
  | Log _ _ | Print _ | PrintExc => true
  | Shell cmd => String.prefix "hciconfig" cmd
  | _ => false
  end.

(** How the body of [main] ends with respect to the plugin actions:
    without any, or with the call of one as its last event, the
    preamble before it and the outcome of the call as its outcome. *)
Definition plugin_alone (env : Env) (pre : list Event) (r : Result unit)
    (l : list Event) : Prop :=
  Forall (fun e => negb (is_plugin_call e) = true) l \/
  (exists p f xs,
     l = (p ++ [Call f xs])%list /\
     Forall (fun e => is_preamble e = true) p /\
     is_plugin_call (Call f xs) = true /\
     r = match collaborator env (pre ++ p) f xs with
         | Ok _ => Ok tt
         | Raise e => Raise e
         end).

(** An event that [prepare_hci] never leaves: no use of the handle, no
    removal of a file, none of its three host commands. *)
Definition not_of_prepare_hci (e : Event) : bool :=
  match e with
  | HciOpen _ | HciSend _ | HciClose | OsRemove _ => false
  | Shell cmd =>
      negb (String.prefix "rfkill " cmd || String.prefix "hciconfig " cmd
            || String.eqb cmd "systemctl restart bluetooth.service")
  | _ => true
  end.

(** The use of a scan engine or of [BlueScanner]: a constructor or a
    method. *)
Definition is_engine_call (e : Event) : bool :=
  match e with
  | Call f _ =>
      String.prefix "BRScanner" f || String.prefix "LeScanner" f
      || String.prefix "SDPScanner" f || String.prefix "GattScanner" f
      || String.prefix "BlueScanner" f
  | _ => false
  end.

(** Whether the handle is open after [l], being open or not before. *)
Fixpoint handle_after (o : bool) (l : list Event) : bool :=
  match l with
  | [] => o
  | HciOpen _ :: r => handle_after true r
  | HciClose :: r => handle_after false r
  | _ :: r => handle_after o r
  end.

(** No engine is used in [l] while the handle is open. *)
Fixpoint engines_apart (o : bool) (l : list Event) : bool :=
  match l with
  | [] => true
  | HciOpen _ :: r => engines_apart true r
  | HciClose :: r => engines_apart false r
  | e :: r => negb (o && is_engine_call e) && engines_apart o r
  end.

(** The engines were kept apart from the handle, which is closed when
    the outcome is a return. *)
Definition handle_released {A} (r : Result A) (l : list Event) : Prop :=
  engines_apart false l = true /\
  (is_Ok r = true -> handle_after false l = false).

(** A passive sniff on channel 37. *)
Definition sniff_args : gmap string pyval :=
  <["--adv" := PBool true]> (sample_args "le" (PStr "The default HCI device")).

(** A scan mode that does not exist. *)
Definition unknown_mode_frame : Frame :=
  parsed_frame (sample_args "stack" (PStr "hci0")).

(** [env] with the answer to [write_scan_enable] replaced by [r]. *)
Definition with_scan_enable_reply (env : Env) (r : Result CmdComplete) : Env := {|
  sh := sh env;
  find_rfkill_devid := find_rfkill_devid env;
  HCI_new := HCI_new env;
  HCI_reply := fun c =>
    match c with write_scan_enable => r | _ => HCI_reply env c end;
  HCI_close := HCI_close env;
  HCI_get_default_hcistr := HCI_get_default_hcistr env;
  parse_cmdline := parse_cmdline env;
  collaborator := collaborator env
|}.

(** The check that follows command [c] reports the status [z] that [c]
    returned: lines 50, 56, 65, 70 and 75. *)
Definition own_status_reported `{Packages} (c : HciCommand) (z : Z) : bool :=
  match c with
  | write_scan_enable | read_bd_addr => false
  | set_event_filter => negb (z =? SUCCESS)%Z
  | _ => fatal z
  end.

(** The commands of normalization, in the order of the source. *)
Definition commands : list HciCommand :=
  [inquiry_cancel; exit_periodic_inquiry_mode; write_scan_enable;
   le_set_advertising_enable; le_set_scan_enable; set_event_filter;
   read_bd_addr].

(** The commands of [l] up to [c], [c] included. *)
Fixpoint upto (c : HciCommand) (l : list HciCommand) : list HciCommand :=
  match l with
  | [] => []
  | x :: r => if decide (x = c) then [x] else x :: upto c r
  end.

(** The table of error codes has a name for every status that a check
    reports for its own command. *)
Definition reports_named `{Packages} (st : HciCommand -> Z) : Prop :=
  forall c, own_status_reported c (st c) = true ->
            is_Some (ControllerErrorCodes_name (st c)).

(** The check after [c] reports the status of [c] and the table has no
    name for it: [ControllerErrorCodes[cmd_complete.status]] raises. *)
Definition unnamed_report `{Packages} (st : HciCommand -> Z) (c : HciCommand)
  : bool :=
  own_status_reported c (st c) &&
  match ControllerErrorCodes_name (st c) with None => true | Some _ => false end.

(** The first command, in the order of the source, whose report finds
    no name. *)
Definition first_unnamed `{Packages} (st : HciCommand -> Z)
  : option HciCommand :=
  List.find (unnamed_report st) commands.

(** The inquiry cancel fails with a status that the table of error
    codes does not know. *)
Definition run_cancel_unnamed : Result unit * World :=
  @prepare_hci core_packages (quiet_env (only_fails inquiry_cancel 0x2A))
    "hci0" (world_of ∅).

(** The user interrupts a passive sniff started without [-i]: no
    interface was selected, and [args['-i']] holds the placeholder of
    the option parser. *)
Definition interrupted_sniff : Env :=
  sample_env all_success sniff_args
    (failing_in "LeScanner.sniff_adv" KeyboardInterrupt).

(** The call whose value [main] binds to [scan_result]: lines 179 and
    184. *)
Definition is_result_call (e : Event) : bool :=
  match e with
  | Call f _ =>
      String.eqb f "LeScanner.scan_devs" || String.eqb f "GattScanner.scan"
  | _ => false
  end.

(** The report that the scan engine returned in a run that appended
    [l] to the events [pre]: the value of the first call that gives
    [scan_result], when it is a report. *)
Fixpoint produced (env : Env) (pre l : list Event) : option ScanResult :=
  match l with
  | [] => None
  | Call f xs :: r =>
      if is_result_call (Call f xs)
      then match collaborator env pre f xs with
           | Ok (PObj sr) => Some sr
           | _ => None
           end
      else produced env (pre ++ [Call f xs]) r
  | e :: r => produced env (pre ++ [e]) r
  end.

(** Neither such a call nor a rendering or a storage. *)
Definition is_quiet (e : Event) : bool :=
  negb (is_result_call e) && not_report e.

(** [c] appends events [l] such that [Q] holds of the events before,
    the outcome and [l]. *)
Definition shaped {A} (c : M Frame A)
    (Q : list Event -> Result A -> list Event -> Prop) : Prop :=
  forall s, exists l,
    events (world (c s).2) = (events (world s) ++ l)%list /\
    Q (events (world s)) (c s).1 l.

(** How the dispatch ends: with [None] or an exception after quiet
    events, or with the outcome of the call that gives [scan_result],
    which is then its last event. *)
Definition dispatched (env : Env) (pre : list Event) (r : Result pyval)
    (l : list Event) : Prop :=
  (Forall (fun e => is_quiet e = true) l /\
   (r = Ok PNone \/ exists e, r = Raise e)) \/
  (exists l0 f xs,
     l = (l0 ++ [Call f xs])%list /\
     Forall (fun e => is_quiet e = true) l0 /\
     is_result_call (Call f xs) = true /\
     r = collaborator env (pre ++ l0) f xs).

(** [c] ends after quiet events, or goes on as [tail] after quiet
    events. *)
Definition reaches {A} (tail c : M Frame A) : Prop :=
  forall s,
    (exists l, events (world (c s).2) = (events (world s) ++ l)%list /\
               Forall (fun e => is_quiet e = true) l) \/
    (exists s0 l, events (world s0) = (events (world s) ++ l)%list /\
                  Forall (fun e => is_quiet e = true) l /\
                  c s = tail s0).

(** ** Running a computation *)

Lemma bind_ok {S A B} (c : M S A) (k : A -> M S B) s a s' :
  c s = (Ok a, s') -> bind c k s = k a s'.
Proof. intros E. unfold bind. now rewrite E. Qed.

Lemma bind_raise {S A B} (c : M S A) (k : A -> M S B) s e s' :
  c s = (Raise e, s') -> bind c k s = (Raise e, s').
Proof. intros E. unfold bind. now rewrite E. Qed.

Lemma check_output_ok env cmd w out h :
  sh env cmd (host w) = (Ok out, h) ->
  check_output env cmd w = (Ok out, {| host := h; events := events w ++ [Shell cmd] |}).
Proof. intros E. unfold check_output. cbn. now rewrite E. Qed.

Lemma logger_ok lvl msg w :
  logger lvl msg w
  = (Ok tt, {| host := host w; events := events w ++ [Log lvl msg] |}).
Proof. reflexivity. Qed.

Lemma HCI_ok env iface w :
  HCI_new env iface = Ok tt ->
  HCI env iface w
  = (Ok tt, {| host := host w; events := events w ++ [HciOpen iface] |}).
Proof. intros E. unfold HCI, bind, emit, of_result. cbn. now rewrite E. Qed.

Lemma world_eta w : {| host := host w; events := events w |} = w.
Proof. now destruct w. Qed.

Section Controller.
Context `{Packages}.

Lemma not_accepted_fatal cc : not_accepted cc = fatal (status cc).
Proof. reflexivity. Qed.

Lemma warn_status_ok site cc w n :
  ControllerErrorCodes_name (status cc) = Some n ->
  warn_status (source_name site) cc w
  = (Ok tt, {| host := host w;
               events := events w ++ warning site (status cc) |}).
Proof.
  intros E. unfold warn_status, returned_status, code_name, warning, status_report.
  rewrite E. reflexivity.
Qed.

Lemma fatal_not_success z : fatal z = true -> z <> SUCCESS.
Proof.
  unfold fatal. intros F ->. rewrite Z.eqb_refl in F. discriminate.
Qed.

(** The check after a command whose status [z] the table knows. *)
Lemma check_fatal_ok site cc w :
  (status cc <> SUCCESS -> is_Some (ControllerErrorCodes_name (status cc))) ->
  (if not_accepted cc then warn_status (source_name site) cc else ret tt) w
  = (Ok tt, {| host := host w;
               events := events w ++
                 (if fatal (status cc) then warning site (status cc) else []) |}).
Proof.
  intros N. rewrite not_accepted_fatal.
  destruct (fatal (status cc)) eqn:F.
  - destruct (N (fatal_not_success _ F)) as [n E].
    now apply warn_status_ok with n.
  - unfold ret. rewrite app_nil_r. now rewrite world_eta.
Qed.

Lemma check_success_ok site cc w :
  (status cc <> SUCCESS -> is_Some (ControllerErrorCodes_name (status cc))) ->
  (if negb (status cc =? SUCCESS)%Z
   then warn_status (source_name site) cc else ret tt) w
  = (Ok tt, {| host := host w;
               events := events w ++
                 (if (status cc =? SUCCESS)%Z then []
                  else warning site (status cc)) |}).
Proof.
  intros N. destruct (status cc =? SUCCESS)%Z eqn:F; cbn.
  - unfold ret. rewrite app_nil_r. now rewrite world_eta.
  - apply Z.eqb_neq in F. destruct (N F) as [n E].
    now apply warn_status_ok with n.
Qed.

Lemma hci_send_ok env st addr c w :
  replies env st addr ->
  hci_send env c w
  = (Ok {| status := st c; bd_addr := addr |},
     {| host := host w; events := events w ++ [HciSend c] |}).
Proof. intros R. unfold hci_send, bind, emit, of_result. cbn. now rewrite R. Qed.

(** Lines 36-80, when every call returns: the events are those of
    [controller_trace] and the host is the one the shell left. *)
Lemma prepare_hci_controller env iface devid st addr w h' :
  host_prepared env iface devid (host w) h' ->
  replies env st addr ->
  named st ->
  prepare_hci env iface w
  = finish env (st read_bd_addr) addr
      {| host := h'; events := events w ++ controller_trace iface devid st |}.
Proof.
  intros (o1 & h1 & o2 & h2 & o3 & Hid & S1 & S2 & S3 & Hnew) R N.
  unfold prepare_hci, finish.
  erewrite bind_ok; [| unfold of_result; rewrite Hid; reflexivity].
  erewrite bind_ok; [| apply check_output_ok, S1]. cbn [host events].
  erewrite bind_ok; [| apply check_output_ok, S2]. cbn [host events].
  erewrite bind_ok; [| apply check_output_ok, S3]. cbn [host events].
  erewrite bind_ok; [| apply HCI_ok, Hnew]. cbn [host events].
  erewrite bind_ok; [| apply logger_ok]. cbn [host events].
  erewrite bind_ok; [| apply (hci_send_ok _ _ _ _ _ R)]. cbn [host events].
  erewrite bind_ok; [| apply (check_fatal_ok inquiry_cancel), N; discriminate].
  cbn [host events status].
  erewrite bind_ok; [| apply logger_ok]. cbn [host events].
  erewrite bind_ok; [| apply (hci_send_ok _ _ _ _ _ R)]. cbn [host events].
  erewrite bind_ok; [| apply (check_fatal_ok exit_periodic_inquiry_mode), N; discriminate].
  cbn [host events status].
  erewrite bind_ok; [| apply (hci_send_ok _ _ _ _ _ R)]. cbn [host events].
  erewrite bind_ok; [| apply (check_fatal_ok write_scan_enable), N; discriminate].
  cbn [host events status].
  erewrite bind_ok; [| apply (hci_send_ok _ _ _ _ _ R)]. cbn [host events].
  erewrite bind_ok; [| apply (check_fatal_ok le_set_advertising_enable), N; discriminate].
  cbn [host events status].
  erewrite bind_ok; [| apply (hci_send_ok _ _ _ _ _ R)]. cbn [host events].
  erewrite bind_ok; [| apply (check_fatal_ok le_set_scan_enable), N; discriminate].
  cbn [host events status].
  erewrite bind_ok; [| apply (hci_send_ok _ _ _ _ _ R)]. cbn [host events].
  erewrite bind_ok; [| apply (check_success_ok set_event_filter), N; discriminate].
  cbn [host events status].
  erewrite bind_ok; [| apply (hci_send_ok _ _ _ _ _ R)].
  cbn [host events status bd_addr].
  unfold controller_trace. rewrite <- !app_assoc. reflexivity.
Qed.

End Controller.

(** ** The cache directory *)

Lemma elem_of_children d m k :
  k ∈ children d m <-> is_child_of d k = true /\ is_Some (m !! k).
Proof.
  unfold children. rewrite list_elem_of_In, List.filter_In, <- list_elem_of_In.
  rewrite list_elem_of_fmap. split.
  - intros [([k' x] & -> & Hin) Hc]. split; [done|].
    apply elem_of_map_to_list in Hin. cbn. eauto.
  - intros [Hc [x Hx]]. split; [|done].
    exists (k, x). split; [done|]. now apply elem_of_map_to_list.
Qed.

Lemma NoDup_children d m : NoDup (children d m).
Proof.
  unfold children. apply NoDup_ListNoDup, List.NoDup_filter, NoDup_ListNoDup.
  apply NoDup_fst_map_to_list.
Qed.

Lemma os_remove_run f w :
  os_remove f w =
  match fs (host w) !! f with
  | Some RegularFile =>
      (Ok tt, {| host := {| fs := delete f (fs (host w));
                            bluetooth_active := bluetooth_active (host w) |};
                 events := events w ++ [OsRemove f] |})
  | Some Directory =>
      (Raise (OSError IsADirectoryError f), emit_event (OsRemove f) w)
  | None =>
      (Raise (OSError FileNotFoundError f), emit_event (OsRemove f) w)
  end.
Proof.
  unfold os_remove, bind, emit. cbn.
  destruct (fs (host w) !! f) as [[]|]; reflexivity.
Qed.

(** The loop touches the listed paths only, removes no directory and
    leaves one event per attempted removal. *)
Lemma remove_each_frame l : forall w,
  (forall k, k ∉ l -> fs (host (remove_each l w).2) !! k = fs (host w) !! k) /\
  (forall k, fs (host w) !! k = Some Directory ->
             fs (host (remove_each l w).2) !! k = Some Directory) /\
  bluetooth_active (host (remove_each l w).2) = bluetooth_active (host w) /\
  exists l', events (remove_each l w).2 = (events w ++ map OsRemove l')%list /\ l' ⊆ l.
Proof.
  induction l as [|f l IH]; intros w; cbn [remove_each].
  - repeat split; try done. exists []. cbn. now rewrite app_nil_r.
  - unfold bind. rewrite os_remove_run.
    destruct (fs (host w) !! f) as [[]|] eqn:E; cbn.
    + set (w1 := {| host := _; events := _ |}).
      destruct (IH w1) as (F1 & F2 & F3 & l' & F4 & F5).
      repeat split.
      * intros k Hk. rewrite F1 by set_solver. subst w1. cbn.
        apply lookup_delete_ne. set_solver.
      * intros k Hk. apply F2. subst w1. cbn.
        rewrite lookup_delete_ne; [done|]. congruence.
      * now rewrite F3.
      * exists (f :: l'). rewrite F4. subst w1. cbn.
        rewrite <- app_assoc. split; [done|]. set_solver.
    + repeat split; try done. exists [f]. split; [done|]. set_solver.
    + repeat split; try done. exists [f]. split; [done|]. set_solver.
Qed.

(** Over regular files the loop completes and every one is gone. *)
Lemma remove_each_files l : forall w,
  NoDup l ->
  (forall k, k ∈ l -> fs (host w) !! k = Some RegularFile) ->
  (remove_each l w).1 = Ok tt /\
  forall k, k ∈ l -> fs (host (remove_each l w).2) !! k = None.
Proof.
  induction l as [|f l IH]; intros w ND Hf; cbn [remove_each].
  - split; [done|]. intros k Hk. set_solver.
  - apply NoDup_cons in ND as [Hnin ND].
    unfold bind. rewrite os_remove_run, (Hf f) by set_solver.
    set (w1 := {| host := _; events := _ |}).
    destruct (IH w1 ND) as [R1 R2].
    { intros k Hk. subst w1. cbn. rewrite lookup_delete_ne by set_solver.
      apply Hf. set_solver. }
    split; [done|]. intros k Hk. apply elem_of_cons in Hk as [->|Hk].
    + destruct (remove_each_frame l w1) as (F1 & _).
      rewrite F1 by done. subst w1. cbn. apply lookup_delete_eq.
    + now apply R2.
Qed.

(** Over existing entries of which one is a directory, the loop stops
    at a directory with [IsADirectoryError]. *)
Lemma remove_each_directory l : forall w,
  NoDup l ->
  (forall k, k ∈ l -> is_Some (fs (host w) !! k)) ->
  (exists k, k ∈ l /\ fs (host w) !! k = Some Directory) ->
  exists k, (remove_each l w).1 = Raise (OSError IsADirectoryError k) /\
            k ∈ l /\ fs (host w) !! k = Some Directory.
Proof.
  induction l as [|f l IH]; intros w ND Hs (k & Hk & Hd); [set_solver|].
  apply NoDup_cons in ND as [Hnin ND]. cbn [remove_each].
  unfold bind. rewrite os_remove_run.
  destruct (fs (host w) !! f) as [[]|] eqn:E.
  - set (w1 := {| host := _; events := _ |}).
    assert (Hne : forall x, x ∈ l -> fs (host w1) !! x = fs (host w) !! x).
    { intros x Hx. subst w1. cbn. apply lookup_delete_ne. set_solver. }
    destruct (IH w1 ND) as (k' & R & Hk' & Hd').
    + intros x Hx. rewrite Hne by done. apply Hs. set_solver.
    + exists k. apply elem_of_cons in Hk as [->|Hk]; [congruence|].
      split; [done|]. now rewrite Hne.
    + exists k'. split; [done|]. split; [set_solver|]. now rewrite <- Hne.
  - exists f. cbn. split; [done|]. split; [set_solver|done].
  - destruct (Hs f) as [x Hx]; [set_solver|congruence].
Qed.

Section Cache.
Context `{Packages}.

Lemma clear_cache_run a w :
  clear_cache a w =
  match fs (host w) !! path_str (cache_path a) with
  | None => (Ok tt, w)
  | Some RegularFile =>
      (Raise (OSError NotADirectoryError (path_str (cache_path a))), w)
  | Some Directory =>
      remove_each (children (path_str (cache_path a)) (fs (host w))) w
  end.
Proof.
  unfold clear_cache. cbv zeta. generalize (cache_path a). intros p.
  unfold bind, path_exists, iterdir. cbn.
  destruct (fs (host w) !! path_str p) as [[]|] eqn:E.
  - rewrite bool_decide_eq_true_2 by eauto. now rewrite E.
  - rewrite bool_decide_eq_true_2 by eauto. rewrite E.
    now destruct (remove_each _ w) as [[[]|] ?].
  - rewrite bool_decide_eq_false_2; [done|]. now intros [? ?].
Qed.

(** Clearing the cache touches entries directly inside the cache
    directory only, removes no directory, and leaves one event per
    attempted removal. *)
Lemma clear_cache_frame a w :
  let d := path_str (cache_path a) in
  (forall k, is_child_of d k = false ->
             fs (host (clear_cache a w).2) !! k = fs (host w) !! k) /\
  (forall k, fs (host w) !! k = Some Directory ->
             fs (host (clear_cache a w).2) !! k = Some Directory) /\
  bluetooth_active (host (clear_cache a w).2) = bluetooth_active (host w) /\
  exists l, events (clear_cache a w).2 = (events w ++ map OsRemove l)%list /\
            forall k, k ∈ l -> is_child_of d k = true.
Proof.
  intros d. rewrite clear_cache_run. fold d.
  destruct (fs (host w) !! d) as [[]|] eqn:E; cbn.
  1,3: repeat split; try done; exists []; cbn; rewrite app_nil_r;
       split; [done|]; intros k Hk; set_solver.
  destruct (remove_each_frame (children d (fs (host w))) w) as (F1 & F2 & F3 & l & F4 & F5).
  repeat split; try done.
  - intros k Hk. apply F1. rewrite elem_of_children. intros [Hc _]. congruence.
  - exists l. split; [done|]. intros k Hk. apply F5, elem_of_children in Hk. tauto.
Qed.

(** A cache directory without subdirectory is emptied; a missing one
    is left alone. *)
Lemma clear_cache_files a w :
  let d := path_str (cache_path a) in
  fs (host w) !! d <> Some RegularFile ->
  (forall k, is_child_of d k = true -> fs (host w) !! k <> Some Directory) ->
  (clear_cache a w).1 = Ok tt /\
  (fs (host w) !! d = Some Directory ->
   children d (fs (host (clear_cache a w).2)) = []) /\
  (fs (host w) !! d = None -> (clear_cache a w).2 = w).
Proof.
  intros d Hd Hf.
  assert (Hfiles : forall k, k ∈ children d (fs (host w)) ->
                             fs (host w) !! k = Some RegularFile).
  { intros k [Hc [x Hx]]%elem_of_children. specialize (Hf k Hc).
    destruct x; congruence. }
  rewrite clear_cache_run. fold d.
  destruct (fs (host w) !! d) as [[]|] eqn:E; [done| |done].
  destruct (remove_each_files _ w (NoDup_children d _) Hfiles) as [R1 R2].
  split; [done|]. split; [|done]. intros _.
  apply elem_of_nil_inv. intros k [Hc Hs]%elem_of_children.
  destruct (decide (k ∈ children d (fs (host w)))) as [Hin|Hin].
  - rewrite R2 in Hs by done. now destruct Hs.
  - destruct (remove_each_frame (children d (fs (host w))) w) as (F1 & _).
    rewrite F1 in Hs by done. apply Hin, elem_of_children. done.
Qed.

(** A cache directory holding a subdirectory makes the loop raise. *)
Lemma clear_cache_directory a w :
  let d := path_str (cache_path a) in
  fs (host w) !! d = Some Directory ->
  (exists k, is_child_of d k = true /\ fs (host w) !! k = Some Directory) ->
  exists k, (clear_cache a w).1 = Raise (OSError IsADirectoryError k) /\
            is_child_of d k = true /\ fs (host w) !! k = Some Directory.
Proof.
  intros d Hd (k & Hc & Hk). rewrite clear_cache_run. fold d. rewrite Hd.
  destruct (remove_each_directory (children d (fs (host w))) w) as (k' & R & Hin & Hk').
  - apply NoDup_children.
  - intros x Hx. apply elem_of_children in Hx. tauto.
  - exists k. split; [|done]. apply elem_of_children. eauto.
  - exists k'. split; [done|]. apply elem_of_children in Hin. tauto.
Qed.

End Cache.

(** ** Counting and selecting events *)

Lemma count_app p (l1 l2 : list Event) :
  count p (l1 ++ l2)%list = (count p l1 + count p l2)%nat.
Proof. unfold count. now rewrite List.filter_app, length_app. Qed.

Lemma count_map_OsRemove p l :
  (forall f, p (OsRemove f) = false) -> count p (map OsRemove l) = 0%nat.
Proof.
  intros Hp. unfold count. induction l as [|f l IH]; [done|].
  cbn. now rewrite Hp.
Qed.

Lemma hci_sends_app (l1 l2 : list Event) :
  hci_sends (l1 ++ l2)%list = (hci_sends l1 ++ hci_sends l2)%list.
Proof.
  induction l1 as [|e l1 IH]; [done|].
  destruct e; cbn; now rewrite ?IH.
Qed.

Lemma hci_sends_map_OsRemove l : hci_sends (map OsRemove l) = [].
Proof. induction l as [|f l IH]; [done|]. exact IH. Qed.

Section Trace.
Context `{Packages}.

Lemma count_warning p site z :
  (forall lvl msg, p (Log lvl msg) = false) -> count p (warning site z) = 0%nat.
Proof.
  intros Hp. unfold warning, count.
  destruct (ControllerErrorCodes_name z); [|done]. cbn. now rewrite Hp.
Qed.

Lemma count_guarded p (b : bool) site z :
  (forall lvl msg, p (Log lvl msg) = false) ->
  count p (if b then warning site z else []) = 0%nat /\
  count p (if b then [] else warning site z) = 0%nat.
Proof. intros Hp. destruct b; split; try done; now apply count_warning. Qed.

Lemma hci_sends_warning site z : hci_sends (warning site z) = [].
Proof. unfold warning. now destruct (ControllerErrorCodes_name z). Qed.

Lemma hci_sends_guarded (b : bool) site z :
  hci_sends (if b then warning site z else []) = [] /\
  hci_sends (if b then [] else warning site z) = [].
Proof. destruct b; split; try done; apply hci_sends_warning. Qed.

(** The seven commands are sent, in the order of the source. *)
Lemma hci_sends_controller_trace iface devid st :
  hci_sends (controller_trace iface devid st)
  = [inquiry_cancel; exit_periodic_inquiry_mode; write_scan_enable;
     le_set_advertising_enable; le_set_scan_enable; set_event_filter;
     read_bd_addr].
Proof.
  unfold controller_trace. rewrite !hci_sends_app.
  rewrite !(proj1 (hci_sends_guarded _ _ _)), (proj2 (hci_sends_guarded _ _ _)).
  reflexivity.
Qed.

(** The handle is opened once and not closed in lines 36-80. *)
Lemma count_controller_trace iface devid st :
  count is_HciOpen (controller_trace iface devid st) = 1%nat /\
  count is_HciClose (controller_trace iface devid st) = 0%nat /\
  count is_OsRemove (controller_trace iface devid st) = 0%nat.
Proof.
  unfold controller_trace. rewrite !count_app.
  rewrite !(proj1 (count_guarded _ _ _ _ (fun _ _ => eq_refl))),
          !(proj2 (count_guarded _ _ _ _ (fun _ _ => eq_refl))).
  repeat split; reflexivity.
Qed.

Lemma bind_fst_raise {S A B} (c : M S A) (k : A -> M S B) s e :
  (c s).1 = Raise e -> bind c k s = (Raise e, (c s).2).
Proof. unfold bind. destruct (c s) as [[a|e'] s']; cbn; congruence. Qed.

Lemma bind_fst_ok {S A B} (c : M S A) (k : A -> M S B) s a :
  (c s).1 = Ok a -> bind c k s = k a (c s).2.
Proof. unfold bind. destruct (c s) as [[a'|e'] s']; cbn; congruence. Qed.

Lemma finish_success env addr w :
  finish env SUCCESS addr w
  = bind (clear_cache (upper (bd_addr_bytes2str addr)))
         (fun _ => hci_close env) w.
Proof. unfold finish. now rewrite Z.eqb_refl. Qed.

Lemma finish_failure env z addr w :
  z <> SUCCESS ->
  finish env z addr w = (Raise (address_failure z), w).
Proof.
  intros Hz. unfold finish, address_failure.
  apply Z.eqb_neq in Hz. rewrite Hz. cbn [negb].
  unfold bind, returned_status, code_name, raise, ret. cbn.
  now destruct (ControllerErrorCodes_name z).
Qed.

Lemma hci_close_run env w :
  hci_close env w
  = (HCI_close env, {| host := host w; events := events w ++ [HciClose] |}).
Proof. reflexivity. Qed.

(** After a successful address read: the cache of that address is
    cleared and, if that returns, the handle is closed. *)
Lemma finish_success_spec env addr w :
  let a := upper (bd_addr_bytes2str addr) in
  let run := finish env SUCCESS addr w in
  (forall k, is_child_of (cache_dir addr) k = false ->
             fs (host run.2) !! k = fs (host w) !! k) /\
  (forall k, fs (host w) !! k = Some Directory ->
             fs (host run.2) !! k = Some Directory) /\
  exists l tl,
    events run.2 = (events w ++ map OsRemove l ++ tl)%list /\
    (forall k, k ∈ l -> is_child_of (cache_dir addr) k = true) /\
    (((clear_cache a w).1 = Ok tt /\ tl = [HciClose] /\
      run.1 = HCI_close env /\ host run.2 = host (clear_cache a w).2)
     \/ (exists e, (clear_cache a w).1 = Raise e /\ tl = [] /\
                   run.1 = Raise e /\ run.2 = (clear_cache a w).2)).
Proof.
  intros a run.
  destruct (clear_cache_frame a w) as (F1 & F2 & F3 & l & F4 & F5).
  assert (Hrun : run = bind (clear_cache a) (fun _ => hci_close env) w)
    by apply finish_success.
  destruct ((clear_cache a w).1) as [[]|e] eqn:E.
  - rewrite (bind_fst_ok _ _ _ _ E), hci_close_run in Hrun.
    rewrite Hrun. cbn [fst snd host events]. repeat split; try done.
    exists l, [HciClose]. rewrite F4, <- app_assoc. repeat split; try done.
    left. done.
  - rewrite (bind_fst_raise _ _ _ _ E) in Hrun.
    rewrite Hrun. cbn [fst snd host events]. repeat split; try done.
    exists l, []. rewrite F4, app_nil_r. repeat split; try done.
    right. exists e. done.
Qed.

End Trace.


(** ** Normalization: results *)

Lemma status_report_inj c c' z z' n n' :
  status_report c z n = status_report c' z' n' -> c = c'.
Proof.
  destruct c, c'; cbn; intros E; try reflexivity; discriminate E.
Qed.

Section Normalization.
Context `{Packages}.

Lemma elem_of_warning e site z :
  e ∈ warning site z ->
  exists n, ControllerErrorCodes_name z = Some n /\
            e = Log WARNING (status_report site z n).
Proof.
  unfold warning. destruct (ControllerErrorCodes_name z) as [n|]; [|set_solver].
  intros ->%list_elem_of_singleton. eauto.
Qed.

Lemma warning_known site z n :
  ControllerErrorCodes_name z = Some n ->
  warning site z = [Log WARNING (status_report site z n)].
Proof. intros E. unfold warning. now rewrite E. Qed.

Lemma controller_trace_warnings iface devid st lvl msg :
  Log lvl msg ∈ controller_trace iface devid st ->
  lvl = DEBUG \/
  exists site z n, examined_at st site z /\
    ControllerErrorCodes_name z = Some n /\
    lvl = WARNING /\ msg = status_report site z n.
Proof.
  unfold controller_trace. rewrite !elem_of_app.
  intros Hin.
  repeat match type of Hin with _ \/ _ => destruct Hin as [Hin|Hin] end;
    try (repeat (apply elem_of_cons in Hin as [Hin|Hin]; [try discriminate Hin|]);
         try (apply elem_of_nil in Hin; contradiction);
         injection Hin as -> ->; now left);
    right.
  - destruct (fatal (st inquiry_cancel)) eqn:F; [|set_solver].
    apply elem_of_warning in Hin as (n & Hn & [= -> ->]).
    exists inquiry_cancel, (st inquiry_cancel), n. cbn. done.
  - destruct (fatal (st exit_periodic_inquiry_mode)) eqn:F; [|set_solver].
    apply elem_of_warning in Hin as (n & Hn & [= -> ->]).
    exists exit_periodic_inquiry_mode, (st exit_periodic_inquiry_mode), n. cbn. done.
  - destruct (fatal (st exit_periodic_inquiry_mode)) eqn:F; [|set_solver].
    apply elem_of_warning in Hin as (n & Hn & [= -> ->]).
    exists write_scan_enable, (st exit_periodic_inquiry_mode), n. cbn. done.
  - destruct (fatal (st le_set_advertising_enable)) eqn:F; [|set_solver].
    apply elem_of_warning in Hin as (n & Hn & [= -> ->]).
    exists le_set_advertising_enable, (st le_set_advertising_enable), n. cbn. done.
  - destruct (fatal (st le_set_scan_enable)) eqn:F; [|set_solver].
    apply elem_of_warning in Hin as (n & Hn & [= -> ->]).
    exists le_set_scan_enable, (st le_set_scan_enable), n. cbn. done.
  - destruct (st set_event_filter =? SUCCESS)%Z eqn:F; [set_solver|].
    apply Z.eqb_neq in F.
    apply elem_of_warning in Hin as (n & Hn & [= -> ->]).
    exists set_event_filter, (st set_event_filter), n. cbn. done.
Qed.

(** The check after a command that examines its own reply logs the
    warning when the reply calls for it. *)
Lemma controller_trace_warns iface devid st c n :
  own_status_checked c = true ->
  examined_at st c (st c) ->
  ControllerErrorCodes_name (st c) = Some n ->
  Log WARNING (status_report c (st c) n) ∈ controller_trace iface devid st.
Proof.
  intros Hc Hx Hn. unfold controller_trace. rewrite !elem_of_app.
  destruct c; try discriminate Hc; cbn in Hx; destruct Hx as [_ Hx].
  - right; left. rewrite Hx, (warning_known _ _ _ Hn). set_solver.
  - do 3 right; left. rewrite Hx, (warning_known _ _ _ Hn). set_solver.
  - do 7 right; left. rewrite Hx, (warning_known _ _ _ Hn). set_solver.
  - do 9 right; left. rewrite Hx, (warning_known _ _ _ Hn). set_solver.
  - do 11 right; left. apply Z.eqb_neq in Hx.
    rewrite Hx, (warning_known _ _ _ Hn). set_solver.
Qed.


(** Where every reported status has a name, lines 36-80 run as in
    [prepare_hci_controller]. *)
Lemma check_reported_ok site cc w :
  (fatal (status cc) = true -> is_Some (ControllerErrorCodes_name (status cc))) ->
  (if not_accepted cc then warn_status (source_name site) cc else ret tt) w
  = (Ok tt, {| host := host w;
               events := events w ++
                 (if fatal (status cc) then warning site (status cc) else []) |}).
Proof.
  intros N. rewrite not_accepted_fatal.
  destruct (fatal (status cc)) eqn:F.
  - destruct (N eq_refl) as [n E]. now apply warn_status_ok with n.
  - unfold ret. rewrite app_nil_r. now rewrite world_eta.
Qed.

(** A check that reports a status without a name raises at the lookup,
    before anything is logged. *)
Lemma check_unnamed (b : bool) what cc (w : World) :
  b = true ->
  ControllerErrorCodes_name (status cc) = None ->
  (if b then warn_status what cc else ret tt) w
  = (Raise (KeyError (format_d (status cc))), w).
Proof.
  intros -> E. unfold warn_status, returned_status, code_name, bind.
  now rewrite E.
Qed.

Lemma unnamed_report_true st c :
  unnamed_report st c = true ->
  own_status_reported c (st c) = true /\
  ControllerErrorCodes_name (st c) = None.
Proof.
  unfold unnamed_report. intros [Hr Hn]%andb_true_iff. split; [done|].
  now destruct (ControllerErrorCodes_name (st c)).
Qed.

Lemma unnamed_report_false st c :
  unnamed_report st c = false ->
  own_status_reported c (st c) = true ->
  is_Some (ControllerErrorCodes_name (st c)).
Proof.
  unfold unnamed_report. intros U Hr. rewrite Hr in U. cbn in U.
  destruct (ControllerErrorCodes_name (st c)); [eauto|discriminate U].
Qed.

Lemma reports_named_first st : reports_named st -> first_unnamed st = None.
Proof.
  intros N. unfold first_unnamed.
  destruct (List.find (unnamed_report st) commands) as [c|] eqn:F; [|done].
  apply List.find_some in F as [_ [Hr Hn]%unnamed_report_true].
  destruct (N c Hr) as [n Hc]. congruence.
Qed.

Lemma first_unnamed_none st : first_unnamed st = None -> reports_named st.
Proof.
  intros F c Hr. apply unnamed_report_false; [|done].
  apply (List.find_none _ _ F). destruct c; cbn; tauto.
Qed.

Lemma named_reports st : named st -> reports_named st.
Proof.
  intros N c Hr. apply N.
  - intros ->. discriminate Hr.
  - destruct c; cbn in Hr; try discriminate Hr;
      try (now apply fatal_not_success).
    intros E. rewrite E, Z.eqb_refl in Hr. discriminate Hr.
Qed.

Ltac run_call R :=
  erewrite bind_ok;
  [| first [ apply (hci_send_ok _ _ _ _ _ R) | apply logger_ok ] ];
  cbn [host events status].

Ltac run_check site N :=
  erewrite bind_ok; [| apply (check_reported_ok site); intros ?; apply N; done];
  cbn [host events status].

Lemma prepare_hci_controller_reported env iface devid st addr w h' :
  host_prepared env iface devid (host w) h' ->
  replies env st addr ->
  reports_named st ->
  prepare_hci env iface w
  = finish env (st read_bd_addr) addr
      {| host := h'; events := events w ++ controller_trace iface devid st |}.
Proof.
  intros (o1 & h1 & o2 & h2 & o3 & Hid & S1 & S2 & S3 & Hnew) R N.
  unfold prepare_hci, finish.
  erewrite bind_ok; [| unfold of_result; rewrite Hid; reflexivity].
  erewrite bind_ok; [| apply check_output_ok, S1]. cbn [host events].
  erewrite bind_ok; [| apply check_output_ok, S2]. cbn [host events].
  erewrite bind_ok; [| apply check_output_ok, S3]. cbn [host events].
  erewrite bind_ok; [| apply HCI_ok, Hnew]. cbn [host events].
  run_call R. run_call R. run_check inquiry_cancel (N inquiry_cancel).
  run_call R. run_call R.
  run_check exit_periodic_inquiry_mode (N exit_periodic_inquiry_mode).
  run_call R. run_check write_scan_enable (N exit_periodic_inquiry_mode).
  run_call R.
  run_check le_set_advertising_enable (N le_set_advertising_enable).
  run_call R. run_check le_set_scan_enable (N le_set_scan_enable).
  erewrite bind_ok; [| apply (hci_send_ok _ _ _ _ _ R)]. cbn [host events].
  erewrite bind_ok.
  2:{ apply (check_success_ok set_event_filter). intros E.
      apply (N set_event_filter). cbn [own_status_reported status].
      now apply negb_true_iff, Z.eqb_neq. }
  cbn [host events status].
  erewrite bind_ok; [| apply (hci_send_ok _ _ _ _ _ R)].
  cbn [host events status bd_addr].
  unfold controller_trace. rewrite <- !app_assoc. reflexivity.
Qed.

Lemma prepare_hci_events_reported env iface devid st addr w h' :
  host_prepared env iface devid (host w) h' ->
  replies env st addr ->
  reports_named st ->
  exists l tl,
    events (prepare_hci env iface w).2
    = (events w ++ controller_trace iface devid st ++ map OsRemove l ++ tl)%list /\
    (tl = [] \/ tl = [HciClose]).
Proof.
  intros HP R N. rewrite (prepare_hci_controller_reported _ _ _ _ _ _ _ HP R N).
  destruct (decide (st read_bd_addr = SUCCESS)) as [E|E].
  - rewrite E.
    destruct (finish_success_spec env addr
      {| host := h'; events := events w ++ controller_trace iface devid st |})
      as (_ & _ & l & tl & Ev & Hl & Hcase).
    exists l, tl. rewrite Ev. cbn [events]. rewrite <- app_assoc.
    split; [done|].
    destruct Hcase as [(_ & -> & _)|(e & _ & -> & _)]; eauto.
  - rewrite (finish_failure _ _ _ _ E).
    exists [], []. cbn. rewrite app_nil_r. eauto.
Qed.

(** At the first reported status without a name, normalization ends
    with KeyError: the commands up to that one were sent, and what was
    logged until then is what a whole run logs until then. *)
Lemma prepare_hci_stops env iface devid st addr w h' c0 :
  host_prepared env iface devid (host w) h' ->
  replies env st addr ->
  first_unnamed st = Some c0 ->
  exists l,
    prepare_hci env iface w
    = (Raise (KeyError (format_d (st c0))),
       {| host := h'; events := events w ++ l |}) /\
    hci_sends l = upto c0 commands /\
    l `prefix_of` controller_trace iface devid st.
Proof.
  intros (o1 & h1 & o2 & h2 & o3 & Hid & S1 & S2 & S3 & Hnew) R F.
  unfold first_unnamed, commands in F. cbn [List.find] in F.
  change (unnamed_report st write_scan_enable) with false in F.
  change (unnamed_report st read_bd_addr) with false in F.
  unfold prepare_hci.
  erewrite bind_ok; [| unfold of_result; rewrite Hid; reflexivity].
  erewrite bind_ok; [| apply check_output_ok, S1]. cbn [host events].
  erewrite bind_ok; [| apply check_output_ok, S2]. cbn [host events].
  erewrite bind_ok; [| apply check_output_ok, S3]. cbn [host events].
  erewrite bind_ok; [| apply HCI_ok, Hnew]. cbn [host events].
  run_call R. run_call R.
  destruct (unnamed_report st inquiry_cancel) eqn:U1.
  { injection F as <-. apply unnamed_report_true in U1 as [Hr Hn].
    erewrite bind_raise; [| apply check_unnamed; [exact Hr|exact Hn]].
    eexists. split; [rewrite <- ?app_assoc; reflexivity|].
    split; [reflexivity|]. unfold controller_trace.
    rewrite <- ?app_assoc. cbn [app]. do 6 apply prefix_cons. apply prefix_nil. }
  pose proof (unnamed_report_false _ _ U1) as N1.
  run_check inquiry_cancel N1. run_call R. run_call R.
  destruct (unnamed_report st exit_periodic_inquiry_mode) eqn:U2.
  { injection F as <-. apply unnamed_report_true in U2 as [Hr Hn].
    erewrite bind_raise; [| apply check_unnamed; [exact Hr|exact Hn]].
    eexists. split; [rewrite <- ?app_assoc; reflexivity|].
    split.
    - rewrite !hci_sends_app, !(proj1 (hci_sends_guarded _ _ _)). reflexivity.
    - unfold controller_trace. rewrite <- ?app_assoc. cbn [app].
      do 6 apply prefix_cons. apply prefix_app.
      do 2 apply prefix_cons. apply prefix_nil. }
  pose proof (unnamed_report_false _ _ U2) as N2.
  run_check exit_periodic_inquiry_mode N2. run_call R.
  run_check write_scan_enable N2. run_call R.
  destruct (unnamed_report st le_set_advertising_enable) eqn:U4.
  { injection F as <-. apply unnamed_report_true in U4 as [Hr Hn].
    erewrite bind_raise; [| apply check_unnamed; [exact Hr|exact Hn]].
    eexists. split; [rewrite <- ?app_assoc; reflexivity|].
    split.
    - rewrite !hci_sends_app, !(proj1 (hci_sends_guarded _ _ _)). reflexivity.
    - unfold controller_trace. rewrite <- ?app_assoc. cbn [app].
      do 6 apply prefix_cons. apply prefix_app.
      do 2 apply prefix_cons. apply prefix_app.
      apply prefix_cons. apply prefix_app.
      apply prefix_cons. apply prefix_nil. }
  pose proof (unnamed_report_false _ _ U4) as N4.
  run_check le_set_advertising_enable N4. run_call R.
  destruct (unnamed_report st le_set_scan_enable) eqn:U5.
  { injection F as <-. apply unnamed_report_true in U5 as [Hr Hn].
    erewrite bind_raise; [| apply check_unnamed; [exact Hr|exact Hn]].
    eexists. split; [rewrite <- ?app_assoc; reflexivity|].
    split.
    - rewrite !hci_sends_app, !(proj1 (hci_sends_guarded _ _ _)). reflexivity.
    - unfold controller_trace. rewrite <- ?app_assoc. cbn [app].
      do 6 apply prefix_cons. apply prefix_app.
      do 2 apply prefix_cons. apply prefix_app.
      apply prefix_cons. apply prefix_app.
      apply prefix_cons. apply prefix_app.
      apply prefix_cons. apply prefix_nil. }
  pose proof (unnamed_report_false _ _ U5) as N5.
  run_check le_set_scan_enable N5. run_call R.
  destruct (unnamed_report st set_event_filter) eqn:U6; [|discriminate F].
  injection F as <-. apply unnamed_report_true in U6 as [Hr Hn].
  erewrite bind_raise; [| apply check_unnamed; [exact Hr|exact Hn]].
  eexists. split; [rewrite <- ?app_assoc; reflexivity|].
  split.
  - rewrite !hci_sends_app, !(proj1 (hci_sends_guarded _ _ _)). reflexivity.
  - unfold controller_trace. rewrite <- ?app_assoc. cbn [app].
    do 6 apply prefix_cons. apply prefix_app.
    do 2 apply prefix_cons. apply prefix_app.
    apply prefix_cons. apply prefix_app.
    apply prefix_cons. apply prefix_app.
    apply prefix_cons. apply prefix_app.
    apply prefix_cons. apply prefix_nil.
Qed.

(** With a reported status of [c] that has no name, the first command
    that stops normalization is [c] or one before it. *)
Lemma first_unnamed_before st c :
  own_status_reported c (st c) = true ->
  ControllerErrorCodes_name (st c) = None ->
  exists c0, first_unnamed st = Some c0 /\ c0 ∈ upto c commands /\
             ControllerErrorCodes_name (st c0) = None.
Proof.
  intros Hr Hn.
  assert (U : unnamed_report st c = true)
    by (unfold unnamed_report; now rewrite Hr, Hn).
  unfold first_unnamed, commands. cbn [List.find].
  change (unnamed_report st write_scan_enable) with false.
  change (unnamed_report st read_bd_addr) with false.
  destruct (unnamed_report st inquiry_cancel) eqn:U1.
  { exists inquiry_cancel. apply unnamed_report_true in U1 as [_ U1].
    split; [done|]. split; [|done]. destruct c; cbn; set_solver. }
  destruct (unnamed_report st exit_periodic_inquiry_mode) eqn:U2.
  { exists exit_periodic_inquiry_mode.
    apply unnamed_report_true in U2 as [_ U2].
    split; [done|]. split; [|done].
    destruct c; cbn; try set_solver; congruence. }
  destruct (unnamed_report st le_set_advertising_enable) eqn:U4.
  { exists le_set_advertising_enable.
    apply unnamed_report_true in U4 as [_ U4].
    split; [done|]. split; [|done].
    destruct c; cbn; try set_solver; congruence. }
  destruct (unnamed_report st le_set_scan_enable) eqn:U5.
  { exists le_set_scan_enable.
    apply unnamed_report_true in U5 as [_ U5].
    split; [done|]. split; [|done].
    destruct c; cbn; try set_solver; congruence. }
  destruct (unnamed_report st set_event_filter) eqn:U6.
  { exists set_event_filter.
    apply unnamed_report_true in U6 as [_ U6].
    split; [done|]. split; [|done].
    destruct c; cbn; try set_solver; congruence. }
  destruct c; try congruence; discriminate Hr.
Qed.

(** C1, as amended. A status outside {SUCCESS, COMMAND_DISALLOWED}
    returned by an intermediate command that examines its own reply
    (all but the scan disabling) does not abort normalization by
    itself. Where the table of error codes has a name for every status
    that a check reports, a warning that reports that status is logged
    and every later command, up to the address read, is still sent.
    Where the table has no name for that status, normalization ends
    with KeyError at the lookup of a name, for that command or for one
    before it, and no later command is sent. *)
Theorem fatal_status_warns_and_continues env iface devid st addr w h' c :
  host_prepared env iface devid (host w) h' ->
  replies env st addr ->
  own_status_checked c = true ->
  fatal (st c) = true ->
  exists l,
    events (prepare_hci env iface w).2 = (events w ++ l)%list /\
    (reports_named st ->
       hci_sends l
       = [inquiry_cancel; exit_periodic_inquiry_mode; write_scan_enable;
          le_set_advertising_enable; le_set_scan_enable; set_event_filter;
          read_bd_addr] /\
       exists n, ControllerErrorCodes_name (st c) = Some n /\
                 Log WARNING (status_report c (st c) n) ∈ l) /\
    (ControllerErrorCodes_name (st c) = None ->
       exists c0,
         c0 ∈ upto c commands /\
         ControllerErrorCodes_name (st c0) = None /\
         (prepare_hci env iface w).1 = Raise (KeyError (format_d (st c0))) /\
         hci_sends l = upto c0 commands).
Proof.
  intros HP R Hc F.
  assert (Hr : own_status_reported c (st c) = true).
  { destruct c; try discriminate Hc; cbn; try exact F.
    now apply negb_true_iff, Z.eqb_neq, fatal_not_success. }
  destruct (first_unnamed st) as [c0|] eqn:U.
  - destruct (prepare_hci_stops _ _ _ _ _ _ _ _ HP R U) as (l & Run & Hs & _).
    exists l. rewrite Run. cbn [fst snd events]. split; [done|]. split.
    + intros N. apply reports_named_first in N. congruence.
    + intros Hn.
      destruct (first_unnamed_before _ _ Hr Hn) as (c1 & U' & Hin & Hn1).
      assert (c1 = c0) as -> by congruence.
      exists c0. done.
  - pose proof (first_unnamed_none _ U) as N.
    destruct (prepare_hci_events_reported _ _ _ _ _ _ _ HP R N)
      as (l & tl & Ev & Htl).
    eexists. split; [exact Ev|]. split.
    + intros _. split.
      * rewrite !hci_sends_app, hci_sends_controller_trace, hci_sends_map_OsRemove.
        destruct Htl as [->| ->]; reflexivity.
      * destruct (N c Hr) as [n Hn]. exists n. split; [done|].
        apply elem_of_app. left.
        apply controller_trace_warns; [done| |done].
        destruct c; try discriminate Hc; cbn; split; try done.
        now apply fatal_not_success.
    + intros Hn. destruct (N c Hr) as [n Hn']. congruence.
Qed.


(** C4, as amended. For each intermediate command other than the scan
    disabling, the status examined is the command's own. Where the
    table of error codes has a name for every status that a check
    reports, the warning of a command is logged exactly when its status
    is outside {SUCCESS, COMMAND_DISALLOWED} (for the clearing of the
    event filters: exactly when it is not SUCCESS), and all seven
    commands are sent whether or not a warning was logged. At the first
    reported status without a name, normalization ends with KeyError:
    only the commands up to that one were sent, and every warning
    logged until then reports the own status of its command, which
    called for it. *)
Theorem own_status_examined env iface devid st addr w h' :
  host_prepared env iface devid (host w) h' ->
  replies env st addr ->
  exists l,
    events (prepare_hci env iface w).2 = (events w ++ l)%list /\
    (reports_named st ->
       hci_sends l
       = [inquiry_cancel; exit_periodic_inquiry_mode; write_scan_enable;
          le_set_advertising_enable; le_set_scan_enable; set_event_filter;
          read_bd_addr] /\
       forall c n, own_status_checked c = true ->
         (Log WARNING (status_report c (st c) n) ∈ l <->
          ControllerErrorCodes_name (st c) = Some n /\
          match c with
          | set_event_filter => st c <> SUCCESS
          | _ => fatal (st c) = true
          end)) /\
    (forall c0, first_unnamed st = Some c0 ->
       (prepare_hci env iface w).1 = Raise (KeyError (format_d (st c0))) /\
       hci_sends l = upto c0 commands /\
       forall c n, own_status_checked c = true ->
         Log WARNING (status_report c (st c) n) ∈ l ->
         ControllerErrorCodes_name (st c) = Some n /\
         match c with
         | set_event_filter => st c <> SUCCESS
         | _ => fatal (st c) = true
         end).
Proof.
  intros HP R.
  assert (Hwarn : forall c n, own_status_checked c = true ->
            Log WARNING (status_report c (st c) n) ∈ controller_trace iface devid st ->
            ControllerErrorCodes_name (st c) = Some n /\
            match c with
            | set_event_filter => st c <> SUCCESS
            | _ => fatal (st c) = true
            end).
  { intros c n Hc Hin.
    apply controller_trace_warnings in Hin
      as [Hd|(site & z & n' & Hx & Hn' & _ & Hmsg)]; [discriminate Hd|].
    pose proof (status_report_inj _ _ _ _ _ _ Hmsg) as <-.
    unfold status_report in Hmsg.
    destruct c; try discriminate Hc; cbn in Hx; destruct Hx as [-> Hx];
      (split; [|exact Hx]); rewrite Hn'; f_equal;
      cbn in Hmsg; simplify_eq; done. }
  destruct (first_unnamed st) as [c0|] eqn:U.
  - destruct (prepare_hci_stops _ _ _ _ _ _ _ _ HP R U) as (l & Run & Hs & Hp).
    exists l. rewrite Run. cbn [fst snd events]. split; [done|]. split.
    + intros N. apply reports_named_first in N. congruence.
    + intros c1 [= <-]. split; [done|]. split; [done|].
      intros c n Hc Hin. apply Hwarn; [done|].
      destruct Hp as [tl ->]. apply elem_of_app. now left.
  - pose proof (first_unnamed_none _ U) as N.
    destruct (prepare_hci_events_reported _ _ _ _ _ _ _ HP R N)
      as (l & tl & Ev & Htl).
    eexists. split; [exact Ev|]. split; [|discriminate].
    intros _. split.
    + rewrite !hci_sends_app, hci_sends_controller_trace, hci_sends_map_OsRemove.
      destruct Htl as [->| ->]; reflexivity.
    + intros c n Hc. split.
      * rewrite !elem_of_app. intros [Hin|[Hin|Hin]].
        -- now apply Hwarn.
        -- apply list_elem_of_fmap in Hin as (k & Hk & _). discriminate Hk.
        -- destruct Htl as [->| ->]; [set_solver|].
           apply list_elem_of_singleton in Hin. discriminate Hin.
      * intros [Hn Hx]. apply elem_of_app. left.
        apply controller_trace_warns; [done| |done].
        destruct c; try discriminate Hc; cbn; done.
Qed.

(** C6, as amended. If the host commands, the opening and the closing
    of the handle return, every intermediate command is answered
    SUCCESS or COMMAND_DISALLOWED, the address read is answered SUCCESS
    and the cache directory of that address holds no subdirectory (nor
    is a regular file), normalization completes and leaves the
    directory without entries; a missing directory is left alone. *)
Theorem normalization_empties_cache env iface devid st addr w h' :
  host_prepared env iface devid (host w) h' ->
  replies env st addr ->
  (forall c, c <> read_bd_addr -> fatal (st c) = false) ->
  st read_bd_addr = SUCCESS ->
  (COMMAND_DISALLOWED <> SUCCESS ->
   is_Some (ControllerErrorCodes_name COMMAND_DISALLOWED)) ->
  HCI_close env = Ok tt ->
  fs h' !! cache_dir addr <> Some RegularFile ->
  (forall k, is_child_of (cache_dir addr) k = true ->
             fs h' !! k <> Some Directory) ->
  (prepare_hci env iface w).1 = Ok tt /\
  (fs h' !! cache_dir addr = Some Directory ->
   children (cache_dir addr) (fs (host (prepare_hci env iface w).2)) = []) /\
  (fs h' !! cache_dir addr = None -> host (prepare_hci env iface w).2 = h').
Proof.
  intros HP R Hst Hread Hname Hclose Hd Hfiles.
  assert (N : named st).
  { intros c Hne Hc.
    specialize (Hst c Hne). unfold fatal in Hst.
    apply negb_false_iff, orb_true_iff in Hst as [E|E]; apply Z.eqb_eq in E;
      [done|]. rewrite E in *. now apply Hname. }
  rewrite (prepare_hci_controller _ _ _ _ _ _ _ HP R N), Hread.
  set (w1 := {| host := h'; events := _ |}).
  destruct (clear_cache_files (upper (bd_addr_bytes2str addr)) w1 Hd Hfiles)
    as (C1 & C2 & C3).
  destruct (finish_success_spec env addr w1)
    as (_ & _ & l & tl & _ & _ & [(_ & _ & Hr & Hh)|(e & He & _)]);
    [|congruence].
  rewrite Hr, Hh. split; [done|]. split; [exact C2|].
  intros E. now rewrite (C3 E).
Qed.

(** C10. When the cache directory holds a subdirectory, the loop of
    removals raises IsADirectoryError, an OSError that the [except]
    clauses of [main] let through; nothing outside the cache directory
    and no directory is removed, and the handle, opened once, is not
    closed. *)
Theorem cache_subdirectory_raises env iface devid st addr w h' :
  host_prepared env iface devid (host w) h' ->
  replies env st addr ->
  named st ->
  st read_bd_addr = SUCCESS ->
  fs h' !! cache_dir addr = Some Directory ->
  (exists k, is_child_of (cache_dir addr) k = true /\
             fs h' !! k = Some Directory) ->
  exists k,
    (prepare_hci env iface w).1 = Raise (OSError IsADirectoryError k) /\
    (forall s, main_except env (OSError IsADirectoryError k) s
               = (Raise (OSError IsADirectoryError k), s)) /\
    is_child_of (cache_dir addr) k = true /\
    fs h' !! k = Some Directory /\
    (forall x, fs h' !! x = Some Directory ->
               fs (host (prepare_hci env iface w).2) !! x = Some Directory) /\
    (forall x, is_child_of (cache_dir addr) x = false ->
               fs (host (prepare_hci env iface w).2) !! x = fs h' !! x) /\
    exists l, events (prepare_hci env iface w).2 = (events w ++ l)%list /\
              count is_HciOpen l = 1%nat /\ count is_HciClose l = 0%nat.
Proof.
  intros HP R N Hread Hd Hsub.
  rewrite (prepare_hci_controller _ _ _ _ _ _ _ HP R N), Hread.
  set (w1 := {| host := h'; events := _ |}).
  destruct (clear_cache_directory (upper (bd_addr_bytes2str addr)) w1 Hd Hsub)
    as (k & Hr & Hc & Hk).
  destruct (finish_success_spec env addr w1)
    as (F1 & F2 & l & tl & Ev & _ & [(Hok & _)|(e & He & -> & Hr' & _)]);
    [congruence|].
  exists k. rewrite Hr'. split; [congruence|]. repeat split; try done.
  eexists. rewrite Ev. subst w1. cbn [events]. rewrite <- app_assoc.
  split; [reflexivity|].
  rewrite !count_app.
  destruct (count_controller_trace iface devid st) as (-> & -> & _).
  now rewrite !count_map_OsRemove.
Qed.

End Normalization.

(** ** Normalization: the sample runs *)

Lemma quiet_env_prepared st h :
  @host_prepared (quiet_env st) "hci0" 0 h h.
Proof. exists "", h, "", h, "". repeat split. Qed.

Lemma quiet_env_replies st : replies (quiet_env st) st sample_addr.
Proof. intros c. reflexivity. Qed.

Lemma only_fails_named c0 z :
  is_Some (@ControllerErrorCodes_name core_packages z) ->
  @named core_packages (only_fails c0 z).
Proof.
  intros Hz c _ Hc. destruct c0, c; cbn in *; try done; now eexists.
Qed.

Lemma all_success_named : @named core_packages all_success.
Proof. intros c _ Hc. now destruct Hc. Qed.

Lemma sample_cache_dir : @cache_dir core_packages sample_addr = sample_cache.
Proof. reflexivity. Qed.

(** C1: the inquiry cancel fails with HARDWARE_FAILURE; a warning is
    logged and the six later commands are sent, the cache is visited
    and the handle closed. *)
Lemma cancel_failure_does_not_abort :
  run_cancel_fails.1 = Ok tt /\
  events run_cancel_fails.2
  = [Shell "rfkill unblock 0"; Shell "hciconfig hci0 up";
     Shell "systemctl restart bluetooth.service"; HciOpen "hci0";
     Log DEBUG "Sending hci.inquiry_cancel()"; HciSend inquiry_cancel;
     Log WARNING "hci.inquiry_cancel() returned, status: 0x03 HARDWARE_FAILURE";
     Log DEBUG "Sending hci.exit_periodic_inquiry_mode()";
     HciSend exit_periodic_inquiry_mode; HciSend write_scan_enable;
     HciSend le_set_advertising_enable; HciSend le_set_scan_enable;
     HciSend set_event_filter; HciSend read_bd_addr; HciClose].
Proof. split; vm_compute; reflexivity. Qed.

Lemma only_fails_reported c0 z :
  is_Some (@ControllerErrorCodes_name core_packages z) ->
  @reports_named core_packages (only_fails c0 z).
Proof. intros Hz. now apply named_reports, only_fails_named. Qed.

Lemma fatal_status_warns_and_continues_witness :
  exists l,
    events run_cancel_fails.2 = (events (world_of ∅) ++ l)%list /\
    hci_sends l
    = [inquiry_cancel; exit_periodic_inquiry_mode; write_scan_enable;
       le_set_advertising_enable; le_set_scan_enable; set_event_filter;
       read_bd_addr] /\
    exists n,
      @ControllerErrorCodes_name core_packages 0x03 = Some n /\
      Log WARNING (status_report inquiry_cancel 0x03 n) ∈ l.
Proof.
  destruct (@fatal_status_warns_and_continues core_packages
              (quiet_env (only_fails inquiry_cancel 0x03)) "hci0" 0
              (only_fails inquiry_cancel 0x03) sample_addr
              (world_of ∅) (host (world_of ∅)) inquiry_cancel
              (quiet_env_prepared _ _) (quiet_env_replies _)
              eq_refl eq_refl)
    as (l & E & A & _).
  exists l. split; [exact E|].
  apply A, only_fails_reported. now eexists.
Defined.

(** C1: the inquiry cancel fails with status 0x2A, for which the table
    has no name; normalization ends at the lookup, with the handle open
    and no other command sent. *)
Lemma unnamed_status_ends_normalization :
  run_cancel_unnamed.1 = Raise (KeyError "42") /\
  events run_cancel_unnamed.2
  = [Shell "rfkill unblock 0"; Shell "hciconfig hci0 up";
     Shell "systemctl restart bluetooth.service"; HciOpen "hci0";
     Log DEBUG "Sending hci.inquiry_cancel()"; HciSend inquiry_cancel].
Proof. split; vm_compute; reflexivity. Qed.

(** C2: the address read is refused; RuntimeError leaves
    [prepare_hci] with the handle opened and never closed. *)
Lemma handle_left_open_on_failed_read :
  run_address_disallowed.1
  = Raise (RuntimeError
             "hci.read_bd_addr() returned, status: 0x0c COMMAND_DISALLOWED") /\
  count is_HciOpen (events run_address_disallowed.2) = 1%nat /\
  count is_HciClose (events run_address_disallowed.2) = 0%nat.
Proof. repeat split; vm_compute; reflexivity. Qed.


(** C4: a COMMAND_DISALLOWED answer to the inquiry cancel is not
    logged, and the HARDWARE_FAILURE answer to the scan disabling is
    not examined; in the second run it is the status of the command
    before that is reported under the name of the scan disabling. *)
Lemma benign_unlogged_scan_status_unexamined :
  events run_benign_then_scan_fails.2
  = [Shell "rfkill unblock 0"; Shell "hciconfig hci0 up";
     Shell "systemctl restart bluetooth.service"; HciOpen "hci0";
     Log DEBUG "Sending hci.inquiry_cancel()"; HciSend inquiry_cancel;
     Log DEBUG "Sending hci.exit_periodic_inquiry_mode()";
     HciSend exit_periodic_inquiry_mode; HciSend write_scan_enable;
     HciSend le_set_advertising_enable; HciSend le_set_scan_enable;
     HciSend set_event_filter; HciSend read_bd_addr; HciClose] /\
  events run_exit_periodic_fails.2
  = [Shell "rfkill unblock 0"; Shell "hciconfig hci0 up";
     Shell "systemctl restart bluetooth.service"; HciOpen "hci0";
     Log DEBUG "Sending hci.inquiry_cancel()"; HciSend inquiry_cancel;
     Log DEBUG "Sending hci.exit_periodic_inquiry_mode()";
     HciSend exit_periodic_inquiry_mode;
     Log WARNING
       "hci.exit_periodic_inquiry_mode() returned, status: 0x03 HARDWARE_FAILURE";
     HciSend write_scan_enable;
     Log WARNING
       "hci.write_scan_enable() returned, status: 0x03 HARDWARE_FAILURE";
     HciSend le_set_advertising_enable; HciSend le_set_scan_enable;
     HciSend set_event_filter; HciSend read_bd_addr; HciClose].
Proof. split; vm_compute; reflexivity. Qed.

Lemma own_status_examined_witness :
  exists l,
    events run_exit_periodic_fails.2 = (events (world_of ∅) ++ l)%list /\
    hci_sends l
    = [inquiry_cancel; exit_periodic_inquiry_mode; write_scan_enable;
       le_set_advertising_enable; le_set_scan_enable; set_event_filter;
       read_bd_addr] /\
    forall c n, own_status_checked c = true ->
      (Log WARNING
         (status_report c (only_fails exit_periodic_inquiry_mode 0x03 c) n) ∈ l <->
       @ControllerErrorCodes_name core_packages
         (only_fails exit_periodic_inquiry_mode 0x03 c) = Some n /\
       match c with
       | set_event_filter =>
           only_fails exit_periodic_inquiry_mode 0x03 c <> @SUCCESS core_packages
       | _ => @fatal core_packages
                (only_fails exit_periodic_inquiry_mode 0x03 c) = true
       end).
Proof.
  destruct (@own_status_examined core_packages
              (quiet_env (only_fails exit_periodic_inquiry_mode 0x03)) "hci0" 0
              (only_fails exit_periodic_inquiry_mode 0x03)
              sample_addr (world_of ∅) (host (world_of ∅))
              (quiet_env_prepared _ _) (quiet_env_replies _))
    as (l & E & A & _).
  exists l. split; [exact E|].
  apply A, only_fails_reported. now eexists.
Defined.

(** C6: every reply is SUCCESS, yet normalization does not complete:
    the cache holds a directory, which stays. *)
Lemma cache_subdirectory_blocks_completion :
  run_cache_subdir.1
  = Raise (OSError IsADirectoryError
             "/var/lib/bluetooth/AA:BB:CC:DD:EE:FF/cache/lost+found") /\
  children sample_cache (fs (host run_cache_subdir.2))
  = ["/var/lib/bluetooth/AA:BB:CC:DD:EE:FF/cache/lost+found"].
Proof. split; vm_compute; reflexivity. Qed.

Lemma normalization_empties_cache_witness :
  (@prepare_hci core_packages (quiet_env all_success) "hci0"
     (world_of cache_with_file)).1 = Ok tt /\
  (fs (host (world_of cache_with_file)) !! @cache_dir core_packages sample_addr
   = Some Directory ->
   children (@cache_dir core_packages sample_addr)
     (fs (host (@prepare_hci core_packages (quiet_env all_success) "hci0"
                  (world_of cache_with_file)).2)) = []) /\
  (fs (host (world_of cache_with_file)) !! @cache_dir core_packages sample_addr
   = None ->
   host (@prepare_hci core_packages (quiet_env all_success) "hci0"
           (world_of cache_with_file)).2 = host (world_of cache_with_file)).
Proof.
  apply (@normalization_empties_cache core_packages (quiet_env all_success)
           "hci0" 0 all_success sample_addr (world_of cache_with_file)
           (host (world_of cache_with_file))).
  - apply quiet_env_prepared.
  - apply quiet_env_replies.
  - intros c _. reflexivity.
  - reflexivity.
  - intros _. now eexists.
  - reflexivity.
  - rewrite sample_cache_dir. vm_compute. discriminate.
  - rewrite sample_cache_dir. intros k Hc Hk. cbn in Hk. unfold cache_with_file in Hk.
    apply lookup_insert_Some in Hk as [[_ Hk]|[_ Hk]]; [discriminate Hk|].
    apply lookup_insert_Some in Hk as [[<- _]|[_ Hk]]; [discriminate Hc|].
    rewrite lookup_empty in Hk. discriminate Hk.
Defined.

Lemma cache_subdirectory_raises_witness :
  exists k,
    run_cache_subdir.1 = Raise (OSError IsADirectoryError k) /\
    (forall s, main_except (quiet_env all_success)
                 (OSError IsADirectoryError k) s
               = (Raise (OSError IsADirectoryError k), s)) /\
    is_child_of (@cache_dir core_packages sample_addr) k = true /\
    fs (host (world_of cache_with_subdir)) !! k = Some Directory /\
    (forall x, fs (host (world_of cache_with_subdir)) !! x = Some Directory ->
               fs (host run_cache_subdir.2) !! x = Some Directory) /\
    (forall x, is_child_of (@cache_dir core_packages sample_addr) x = false ->
               fs (host run_cache_subdir.2) !! x
               = fs (host (world_of cache_with_subdir)) !! x) /\
    exists l, events run_cache_subdir.2
              = (events (world_of cache_with_subdir) ++ l)%list /\
              count is_HciOpen l = 1%nat /\ count is_HciClose l = 0%nat.
Proof.
  apply (@cache_subdirectory_raises core_packages (quiet_env all_success)
           "hci0" 0 all_success sample_addr (world_of cache_with_subdir)
           (host (world_of cache_with_subdir))).
  - apply quiet_env_prepared.
  - apply quiet_env_replies.
  - apply all_success_named.
  - reflexivity.
  - rewrite sample_cache_dir. vm_compute. reflexivity.
  - exists (sample_cache ++ "/lost+found"). split; vm_compute; reflexivity.
Defined.

(** ** Rules for the appended events *)

Section Emits.
Context {S : Type} (ev : S -> list Event).

Lemma emits_bind {A B} (c : M S A) (k : A -> M S B) Q1 Q2 Q :
  emits ev c Q1 ->
  (forall a, emits ev (k a) Q2) ->
  (forall e l, Q1 (Raise e) l -> Q (Raise e) l) ->
  (forall a l1 r l2, Q1 (Ok a) l1 -> Q2 r l2 -> Q r (l1 ++ l2)%list) ->
  emits ev (bind c k) Q.
Proof.
  intros Hc Hk Hr Ho s. unfold bind.
  destruct (Hc s) as (l1 & E1 & H1).
  destruct (c s) as [[a|e] s1] eqn:Ec; cbn in *.
  - destruct (Hk a s1) as (l2 & E2 & H2).
    exists (l1 ++ l2)%list. rewrite E2, E1, app_assoc. eauto.
  - exists l1. eauto.
Qed.

Lemma emits_weaken {A} (c : M S A) (Q Q' : Result A -> list Event -> Prop) :
  emits ev c Q -> (forall r l, Q r l -> Q' r l) -> emits ev c Q'.
Proof. intros Hc HQ s. destruct (Hc s) as (l & E & HQl). eauto. Qed.

Lemma only_bind p {A B} (c : M S A) (k : A -> M S B) :
  only ev p c -> (forall a, only ev p (k a)) -> only ev p (bind c k).
Proof.
  intros Hc Hk. apply emits_bind with (2 := Hk) (1 := Hc); [done|].
  intros a l1 r l2 H1 H2. now apply Forall_app.
Qed.

Lemma only_silent p {A} (c : M S A) :
  (forall s, ev (c s).2 = ev s) -> only ev p c.
Proof. intros Hc s. exists []. now rewrite app_nil_r, Hc. Qed.

Lemma only_ret p {A} (a : A) : only ev p (ret a).
Proof. now apply only_silent. Qed.

Lemma only_raise p {A} e : only ev p (raise e : M S A).
Proof. now apply only_silent. Qed.

Lemma only_of_result p {A} (r : Result A) : only ev p (of_result r).
Proof. now apply only_silent. Qed.

Lemma only_as_str p v : only ev p (as_str v : M S string).
Proof. destruct v; first [apply only_ret | apply only_raise]. Qed.

End Emits.

Lemma only_emit p e : p e = true -> only events p (emit e).
Proof. intros Hp w. exists [e]. cbn. split; [done|]. now constructor. Qed.

Lemma only_check_output p env cmd :
  p (Shell cmd) = true -> only events p (check_output env cmd).
Proof.
  intros Hp w. exists [Shell cmd]. unfold check_output. cbn.
  destruct (sh env cmd (host w)) as [r h]. cbn. split; [done|]. now constructor.
Qed.

Lemma only_lift p {A} (c : M World A) :
  only events p c -> only (fun s => events (world s)) p (lift c).
Proof.
  intros Hc s. destruct (Hc (world s)) as (l & E & Hl).
  exists l. unfold lift. destruct (c (world s)) as [r w']. cbn in *. eauto.
Qed.

Section EmitsProgram.
Context `{Packages} (env : Env).

Lemma only_clear_cache p a :
  (forall f, p (OsRemove f) = true) -> only events p (clear_cache a).
Proof.
  intros Hp w. destruct (clear_cache_frame a w) as (_ & _ & _ & l & E & _).
  exists (map OsRemove l). split; [done|].
  apply Forall_fmap, Forall_forall. intros f _. apply Hp.
Qed.

Lemma only_call p f xs :
  p (Call f xs) = true -> only (fun s => events (world s)) p (call env f xs).
Proof.
  intros Hp. apply only_lift. intros w. exists [Call f xs]. cbn.
  split; [done|]. now constructor.
Qed.

Lemma only_getitem p k : only (fun s => events (world s)) p (getitem k).
Proof.
  apply only_silent. intros s. unfold getitem.
  destruct (args s) as [d|]; [|done]. now destruct (d !! k).
Qed.

Lemma only_setitem p k v : only (fun s => events (world s)) p (setitem k v).
Proof.
  apply only_silent. intros s. unfold setitem. now destruct (args s).
Qed.

Lemma only_bind_args p d : only (fun s => events (world s)) p (bind_args d).
Proof. now apply only_silent. Qed.

End EmitsProgram.

(** One step of the proof that a computation appends only events
    satisfying a predicate. *)
Ltac only_step :=
  lazymatch goal with
  | |- only _ _ (bind _ _) => apply only_bind; [|intros ?]
  | |- only _ _ (ret _) => apply only_ret
  | |- only _ _ (raise _) => apply only_raise
  | |- only _ _ (of_result _) => apply only_of_result
  | |- only _ _ (as_str _) => apply only_as_str
  | |- only _ _ (emit _) => apply only_emit; reflexivity
  | |- only _ _ (logger _ _) => apply only_emit; reflexivity
  | |- only _ _ (print _) => apply only_emit; reflexivity
  | |- only _ _ (check_output _ _) => apply only_check_output; reflexivity
  | |- only _ _ (clear_cache _) => apply only_clear_cache; reflexivity
  | |- only _ _ (call _ _ _) => apply only_call; reflexivity
  | |- only _ _ (getitem _) => apply only_getitem
  | |- only _ _ (setitem _ _) => apply only_setitem
  | |- only _ _ (bind_args _) => apply only_bind_args
  | |- only _ _ (lift _) => apply only_lift
  | |- only _ _ (hci_send _ _) => unfold hci_send
  | |- only _ _ (warn_status _ _) => unfold warn_status
  | |- only _ _ (returned_status _ _) => unfold returned_status
  | |- only _ _ (code_name _) => unfold code_name
  | |- only _ _ (if ?b then _ else _) => destruct b
  | |- only _ _ (match ?x with _ => _ end) => destruct x
  end.

Lemma count_not_handle l :
  Forall (fun e => not_handle e = true) l ->
  count is_HciOpen l = 0%nat /\ count is_HciClose l = 0%nat.
Proof.
  unfold count. induction 1 as [|e l He _ [IH1 IH2]]; [done|].
  cbn. unfold not_handle in He.
  apply negb_true_iff, orb_false_iff in He as [-> ->]. done.
Qed.

Lemma count_not_report l :
  Forall (fun e => not_report e = true) l ->
  count is_Render l = 0%nat /\ count is_Store l = 0%nat.
Proof.
  unfold count. induction 1 as [|e l He _ [IH1 IH2]]; [done|].
  cbn. unfold not_report in He.
  apply negb_true_iff, orb_false_iff in He as [-> ->]. done.
Qed.

Section Handle.
Context `{Packages} (env : Env).

Lemma handle_use_after {A} n (c : M World A) (k : A -> M World unit) :
  only events not_handle c ->
  (forall a, emits events (k a) (handle_use env n)) ->
  emits events (bind c k) (handle_use env n).
Proof.
  intros Hc Hk. apply emits_bind with (1 := Hc) (2 := Hk).
  - intros e l [Ho Hcl]%count_not_handle. unfold handle_use.
    rewrite Ho, Hcl. repeat split; try done; lia.
  - intros a l1 r l2 [Ho Hcl]%count_not_handle (U1 & U2 & U3 & U4).
    unfold handle_use. rewrite !count_app, Ho, Hcl. cbn.
    split; [done|]. split; [done|]. split; [|done].
    intros Hr. destruct (U3 Hr) as (? & ? & l0 & ->).
    split; [done|]. split; [done|]. exists (l1 ++ l0)%list. apply app_assoc.
Qed.

Lemma handle_use_close : emits events (hci_close env) (handle_use env 0).
Proof.
  intros w. exists [HciClose]. rewrite hci_close_run. cbn.
  split; [done|]. unfold handle_use. cbn. repeat split; try done; try lia.
  - now exists [].
  - intros e He Hc. congruence.
Qed.

Lemma handle_use_open iface (k : unit -> M World unit) :
  (forall a, emits events (k a) (handle_use env 0)) ->
  emits events (bind (HCI env iface) k) (handle_use env 1).
Proof.
  intros Hk.
  apply emits_bind with
    (Q1 := fun _ l => l = [HciOpen iface]) (Q2 := handle_use env 0); [|done| |].
  - intros w. exists [HciOpen iface]. unfold HCI, bind, emit, of_result. cbn.
    now destruct (HCI_new env iface).
  - intros e l ->. unfold handle_use. cbn. repeat split; try done; lia.
  - intros a l1 r l2 -> (U1 & U2 & U3 & U4). unfold handle_use.
    rewrite !count_app. cbn. split; [lia|]. split; [lia|]. split.
    + intros Hr. destruct (U3 Hr) as (-> & -> & l0 & ->).
      split; [done|]. split; [done|]. now exists (HciOpen iface :: l0).
    + intros e He Hc. now rewrite (U4 e He Hc).
Qed.

(** C2, as amended. [prepare_hci] never closes the handle twice; when
    it returns, the handle was opened once and closed once, the closing
    being its last step; when it raises (and the closing itself is not
    what failed), the handle was not closed: no exit but the normal one
    closes it. *)
Theorem handle_closed_on_completion_only iface w :
  exists l,
    events (prepare_hci env iface w).2 = (events w ++ l)%list /\
    (count is_HciOpen l <= 1)%nat /\
    (count is_HciClose l <= 1)%nat /\
    ((prepare_hci env iface w).1 = Ok tt ->
       count is_HciOpen l = 1%nat /\ count is_HciClose l = 1%nat /\
       exists l0, l = (l0 ++ [HciClose])%list) /\
    (forall e, (prepare_hci env iface w).1 = Raise e ->
       HCI_close env = Ok tt -> count is_HciClose l = 0%nat).
Proof.
  revert w. change (emits events (prepare_hci env iface) (handle_use env 1)).
  unfold prepare_hci.
  do 4 (apply handle_use_after; [solve [repeat only_step] | intros ?]).
  apply handle_use_open. intros _.
  repeat lazymatch goal with
         | |- emits _ (bind _ _) _ =>
             apply handle_use_after; [solve [repeat only_step] | intros ?]
         end.
  apply handle_use_close.
Qed.

End Handle.

(** ** Cleanup *)

Lemma remove_subtree_lookup p m k :
  remove_subtree p m !! k = if under p k then None else m !! k.
Proof.
  unfold remove_subtree. apply option_eq. intros x.
  rewrite map_lookup_filter_Some. cbn.
  destruct (under p k); split; try done; intros []; done.
Qed.

Lemma info_ok out w :
  (if negb (String.eqb out "") then logger INFO out else ret tt) w
  = (Ok tt, {| host := host w; events := events w ++ info out |}).
Proof.
  unfold info. destruct (String.eqb out ""); cbn.
  - unfold ret. now rewrite app_nil_r, world_eta.
  - reflexivity.
Qed.

(** C5. With a shell in which [systemctl stop], [rm -rf] of either path
    and [systemctl start] return (the removals whether or not the path
    exists), cleanup runs, in this order: the stop of the Bluetooth
    service, the removal of [/var/lib/bluetooth/<laddr>/<RADDR>], the
    removal of [/var/lib/bluetooth/<laddr>/cache/<RADDR>] (the remote
    address in upper case), and the start of the service. Afterwards
    the service is active and nothing at or below either path exists. *)
Theorem clean_stops_removes_restarts env laddr raddr w o1 o2 o3 o4 :
  let p1 := "/var/lib/bluetooth/" ++ laddr ++ "/" ++ upper raddr in
  let p2 := "/var/lib/bluetooth/" ++ laddr ++ "/cache/" ++ upper raddr in
  runs env "sudo systemctl stop bluetooth.service" o1 (set_active false) ->
  runs env ("sudo rm -rf " ++ p1) o2 (rm_rf p1) ->
  runs env ("sudo rm -rf " ++ p2) o3 (rm_rf p2) ->
  runs env "sudo systemctl start bluetooth.service" o4 (set_active true) ->
  exists w',
    clean env laddr raddr w = (Ok tt, w') /\
    events w'
    = (events w
       ++ [Shell "sudo systemctl stop bluetooth.service";
           Shell ("sudo rm -rf " ++ p1)] ++ info o2
       ++ [Shell ("sudo rm -rf " ++ p2)] ++ info o3
       ++ [Shell "sudo systemctl start bluetooth.service"])%list /\
    bluetooth_active (host w') = true /\
    forall k, fs (host w') !! k
              = if under p1 k || under p2 k then None else fs (host w) !! k.
Proof.
  intros p1 p2 R1 R2 R3 R4. eexists. split.
  - unfold clean.
    erewrite bind_ok; [|apply check_output_ok, R1]. cbn [host events].
    erewrite bind_ok; [|apply check_output_ok, R2]. cbn [host events].
    erewrite bind_ok; [|apply info_ok]. cbn [host events].
    erewrite bind_ok; [|apply check_output_ok, R3]. cbn [host events].
    erewrite bind_ok; [|apply info_ok]. cbn [host events].
    erewrite bind_ok; [|apply check_output_ok, R4]. cbn [host events].
    reflexivity.
  - cbn [host events fs bluetooth_active set_active rm_rf].
    split; [now rewrite <- !app_assoc|]. split; [done|].
    intros k. rewrite !remove_subtree_lookup.
    destruct (under p1 k), (under p2 k); reflexivity.
Qed.

Lemma substring_all s : String.substring 0 (String.length s) s = s.
Proof. induction s as [|c s IH]; [done|]. cbn. now rewrite IH. Qed.

Lemma prefix_app p s : String.prefix p (p ++ s) = true.
Proof.
  induction p as [|c p IH]; simpl; [now destruct s|].
  destruct (ascii_dec c c); [exact IH|done].
Qed.

Lemma strip_prefix_app p s : strip_prefix p (p ++ s) = Some s.
Proof.
  unfold strip_prefix. rewrite prefix_app. f_equal.
  induction p as [|c p IH]; simpl.
  - rewrite Nat.sub_0_r. apply substring_all.
  - exact IH.
Qed.

Lemma posix_sh_rm_rf p :
  runs (quiet_env all_success) ("sudo rm -rf " ++ p) "" (rm_rf p).
Proof.
  intros h. change (posix_sh ("sudo rm -rf " ++ p) h = (Ok "", rm_rf p h)).
  unfold posix_sh. rewrite strip_prefix_app. reflexivity.
Qed.

Lemma clean_stops_removes_restarts_witness :
  exists w',
    clean_sample = (Ok tt, w') /\
    events w'
    = (events (world_of cache_with_file)
       ++ [Shell "sudo systemctl stop bluetooth.service";
           Shell "sudo rm -rf /var/lib/bluetooth/AA:BB:CC:DD:EE:FF/11:22:33:44:55:66"]
       ++ info ""
       ++ [Shell "sudo rm -rf /var/lib/bluetooth/AA:BB:CC:DD:EE:FF/cache/11:22:33:44:55:66"]
       ++ info ""
       ++ [Shell "sudo systemctl start bluetooth.service"])%list /\
    bluetooth_active (host w') = true /\
    forall k,
      fs (host w') !! k
      = if under "/var/lib/bluetooth/AA:BB:CC:DD:EE:FF/11:22:33:44:55:66" k
           || under "/var/lib/bluetooth/AA:BB:CC:DD:EE:FF/cache/11:22:33:44:55:66" k
        then None else fs (host (world_of cache_with_file)) !! k.
Proof.
  apply (clean_stops_removes_restarts (quiet_env all_success)
           "AA:BB:CC:DD:EE:FF" "11:22:33:44:55:66" (world_of cache_with_file)
           "" "" "" "").
  - intros h. reflexivity.
  - apply (posix_sh_rm_rf "/var/lib/bluetooth/AA:BB:CC:DD:EE:FF/11:22:33:44:55:66").
  - apply (posix_sh_rm_rf "/var/lib/bluetooth/AA:BB:CC:DD:EE:FF/cache/11:22:33:44:55:66").
  - intros h. reflexivity.
Defined.

(** ** The fault layer *)

Lemma getitem_ok k s d v :
  args s = Some d -> d !! k = Some v -> getitem k s = (Ok v, s).
Proof. intros Ha Hk. unfold getitem. now rewrite Ha, Hk. Qed.

Lemma lift_ok {A} (c : M World A) s r w :
  c (world s) = (r, w) -> lift c s = (r, {| args := args s; world := w |}).
Proof. intros E. unfold lift. now rewrite E. Qed.

Section Faults.
Context `{Packages} (env : Env).

(** X19. On a user interrupt after the options were parsed: if [-i]
    holds a string, the placeholder of the parser included, one
    [hciconfig <that string> reset] is run, whether or not a handle was
    opened, and when it returns a blank line is printed, "Canceled" is
    logged and [main] returns; if [-i] is [None], no command is run. *)
Theorem interrupt_resets_then_cancels s s' d :
  main_try env s = (Raise KeyboardInterrupt, s') ->
  args s' = Some d ->
  (forall iface out h,
     d !! "-i" = Some (PStr iface) ->
     sh env ("hciconfig " ++ iface ++ " reset") (host (world s')) = (Ok out, h) ->
     main env s
     = (Ok tt,
        {| args := Some d;
           world := {| host := h;
                       events := events (world s')
                         ++ [Shell ("hciconfig " ++ iface ++ " reset");
                             Print ""; Log INFO ("Canceled" ++ nl)] |} |}) /\
     exit_code (main env s).1 = 0%Z) /\
  (d !! "-i" = Some PNone ->
     main env s
     = (Ok tt,
        {| args := Some d;
           world := {| host := host (world s');
                       events := events (world s')
                         ++ [Print ""; Log INFO ("Canceled" ++ nl)] |} |}) /\
     exit_code (main env s).1 = 0%Z).
Proof.
  intros Hrun Hd. unfold main. rewrite Hrun. cbn [main_except]. split.
  - intros iface out h Hi Hsh.
    erewrite bind_ok; [|apply getitem_ok with d; [exact Hd|exact Hi]].
    cbn [is_None negb].
    erewrite bind_ok.
    2:{ erewrite bind_ok; [|reflexivity].
        erewrite bind_ok; [|apply lift_ok, check_output_ok, Hsh]. reflexivity. }
    cbn [args world].
    erewrite bind_ok; [|reflexivity].
    unfold lift, logger, print, emit, emit_event. cbn [host events args world fst snd].
    rewrite Hd, <- !app_assoc. split; reflexivity.
  - intros Hi.
    erewrite bind_ok; [|apply getitem_ok with d; [exact Hd|exact Hi]].
    cbn [is_None negb].
    erewrite bind_ok; [|reflexivity].
    erewrite bind_ok; [|reflexivity].
    unfold lift, logger, print, emit, emit_event. cbn [host events args world fst snd].
    rewrite Hd, <- !app_assoc. split; reflexivity.
Qed.

(** C8. A failure of the BLE engine is logged as an error, with the
    hint about the adapter or the privilege appended when its message
    contains "le on"; [main] then returns and the exit status is 0. *)
Theorem ble_engine_failure_exits_normally s s' msg :
  main_try env s = (Raise (BTLEException msg), s') ->
  main env s
  = (Ok tt,
     {| args := args s';
        world := {| host := host (world s');
                    events := events (world s')
                      ++ [Log ERROR
                            (msg ++ (if contains "le on" msg
                                     then nl ++ "No BLE adapter or missing sudo?"
                                     else ""))] |} |}) /\
  exit_code (main env s).1 = 0%Z.
Proof.
  intros Hrun. unfold main. rewrite Hrun. cbn [main_except]. done.
Qed.

End Faults.

(** C7. A passive sniff started without [-i] is interrupted: no
    interface was selected, no handle was opened and no HCI command
    was sent, yet the interrupt handler runs a reset, on the
    placeholder text taken as the name of an interface. The guard of
    line 211 compares [args['-i']] with [None], which the parser never
    gives. *)
Lemma reset_issued_for_placeholder :
  @parse_cmdline interrupted_sniff = Ok sniff_args /\
  sniff_args !! "-i" = Some (PStr "The default HCI device") /\
  events (world (@main core_packages interrupted_sniff (start_frame ∅)).2)
  = [Call "parse_cmdline" [];
     Log DEBUG ("parse_cmdline() returned" ++ nl ++ "    args: {...}");
     Call "get_microbit_devpaths" [];
     Call "LeScanner" [PNone];
     Call "LeScanner.sniff_adv" [PStr "37"];
     Shell "hciconfig The default HCI device reset";
     Print ""; Log INFO ("Canceled" ++ nl)] /\
  count is_HciOpen
    (events (world (@main core_packages interrupted_sniff (start_frame ∅)).2))
  = 0%nat.
Proof. repeat split; vm_compute; reflexivity. Qed.

(** The interrupt comes during the first host command of
    normalization, before any handle is opened: the interface named by
    [-i] is reset all the same. *)
Lemma reset_issued_before_any_handle :
  events (world (@main core_packages interrupted_early (start_frame ∅)).2)
  = [Call "parse_cmdline" [];
     Log DEBUG ("parse_cmdline() returned" ++ nl ++ "    args: {...}");
     Shell "rfkill unblock 0";
     Shell "hciconfig hci0 reset";
     Print ""; Log INFO ("Canceled" ++ nl)] /\
  count is_HciOpen
    (events (world (@main core_packages interrupted_early (start_frame ∅)).2))
  = 0%nat.
Proof. split; vm_compute; reflexivity. Qed.

Lemma interrupt_resets_then_cancels_witness :
  @main core_packages interrupted_scan (start_frame ∅)
  = (Ok tt,
     {| args := Some (sample_args "le" (PStr "hci1"));
        world :=
          {| host := host (world (@main_try core_packages interrupted_scan
                                    (start_frame ∅)).2);
             events :=
               events (world (@main_try core_packages interrupted_scan
                                (start_frame ∅)).2)
               ++ [Shell ("hciconfig " ++ "hci1" ++ " reset");
                   Print ""; Log INFO ("Canceled" ++ nl)] |} |}) /\
  exit_code (@main core_packages interrupted_scan (start_frame ∅)).1 = 0%Z.
Proof.
  assert (Hrun : @main_try core_packages interrupted_scan (start_frame ∅)
                 = (Raise KeyboardInterrupt,
                    (@main_try core_packages interrupted_scan (start_frame ∅)).2))
    by (vm_compute; reflexivity).
  assert (Hd : args (@main_try core_packages interrupted_scan (start_frame ∅)).2
               = Some (sample_args "le" (PStr "hci1")))
    by (vm_compute; reflexivity).
  apply (proj1 (@interrupt_resets_then_cancels core_packages interrupted_scan
                  _ _ _ Hrun Hd) "hci1" "").
  - vm_compute. reflexivity.
  - vm_compute. reflexivity.
Defined.

Lemma ble_engine_failure_exits_normally_witness :
  @main core_packages le_unavailable (start_frame ∅)
  = (Ok tt,
     {| args := args (@main_try core_packages le_unavailable (start_frame ∅)).2;
        world :=
          {| host := host (world (@main_try core_packages le_unavailable
                                    (start_frame ∅)).2);
             events :=
               events (world (@main_try core_packages le_unavailable
                                (start_frame ∅)).2)
               ++ [Log ERROR
                     ("Failed to execute management command 'le on'"
                      ++ (if contains "le on"
                               "Failed to execute management command 'le on'"
                          then nl ++ "No BLE adapter or missing sudo?"
                          else ""))] |} |}) /\
  exit_code (@main core_packages le_unavailable (start_frame ∅)).1 = 0%Z.
Proof.
  apply (@ble_engine_failure_exits_normally core_packages le_unavailable
           (start_frame ∅)).
  vm_compute. reflexivity.
Defined.

(** ** The life of a scan result *)

Lemma bind_inv_ok {S A B} (c : M S A) (k : A -> M S B) s b s2 :
  bind c k s = (Ok b, s2) ->
  exists a s1, c s = (Ok a, s1) /\ k a s1 = (Ok b, s2).
Proof.
  unfold bind. destruct (c s) as [[a|e] s1]; [eauto|discriminate].
Qed.

Lemma call_inv env f xs s v s' :
  call env f xs s = (Ok v, s') ->
  collaborator env (events (world s)) f xs = Ok v /\
  events (world s') = (events (world s) ++ [Call f xs])%list.
Proof. unfold call, lift. cbn. intros [= <- <-]. done. Qed.

(** One step back from a run of [dispatch] that returned. *)
Ltac dispatch_inv H :=
  repeat lazymatch type of H with
         | bind _ _ _ = _ =>
             let E := fresh "E" in
             apply bind_inv_ok in H as (? & ? & E & H); cbv beta in H
         | (if ?b then _ else _) _ = _ => destruct b
         end.

(** One more rule for [only_step]: the functions of the source. *)
Ltac only_unfold :=
  lazymatch goal with
  | |- only _ _ (normalize _) => unfold normalize
  | |- only _ _ (dispatch _) => unfold dispatch
  | |- only _ _ (prepare_hci _ _) => unfold prepare_hci
  | |- only _ _ (clean _ _ _) => unfold clean
  | |- only _ _ (HCI _ _) => unfold HCI
  | |- only _ _ (hci_close _) => unfold hci_close
  | |- _ => only_step
  end.

Section Lifecycle.
Context `{Packages} (env : Env).

Local Abbreviation frame_events := (fun s : Frame => events (world s)).

(** What [dispatch] returns other than [None] is what the LE device
    scan or the GATT scan returned, in its last call. *)
Lemma dispatch_result s v s1 :
  dispatch env s = (Ok v, s1) ->
  v <> PNone ->
  exists l0 f xs,
    (f = "LeScanner.scan_devs" \/ f = "GattScanner.scan") /\
    events (world s1) = (l0 ++ [Call f xs])%list /\
    collaborator env l0 f xs = Ok v.
Proof.
  intros Hrun Hv. unfold dispatch in Hrun. dispatch_inv Hrun;
    try (injection Hrun as <- <-; now destruct Hv).
  - apply call_inv in Hrun as [Hc Hev]. eauto 10.
  - apply call_inv in Hrun as [Hc Hev]. eauto 10.
Qed.

Lemma print_scan_result_stored r w :
  sr_print r = Ok tt ->
  sr_store r = Ok tt ->
  print_scan_result (PObj r) w
  = (Ok tt,
     {| host := host w;
        events := events w
          ++ [Print ""; Print "";
              Print (blue ("----------------" ++ sr_type r ++ " Scan Result"
                           ++ "----------------"));
              Render r; Store r] |}).
Proof.
  intros Hp Hs. unfold print_scan_result, bind, print, emit, of_result, emit_event.
  cbn. rewrite Hp, Hs. cbn. now rewrite <- !app_assoc.
Qed.

Lemma quiet_counts l :
  Forall (fun e => is_quiet e = true) l ->
  count is_Render l = 0%nat /\ count is_Store l = 0%nat.
Proof.
  intros Hl. apply count_not_report. eapply Forall_impl; [exact Hl|].
  intros e [_ He]%andb_true_iff. exact He.
Qed.

Lemma produced_quiet l1 l2 pre :
  Forall (fun e => is_quiet e = true) l1 ->
  produced env pre (l1 ++ l2) = produced env (pre ++ l1) l2.
Proof.
  intros Hl. revert pre. induction Hl as [|e l He _ IH]; intros pre.
  - now rewrite app_nil_r.
  - apply andb_true_iff in He as [He _]. apply negb_true_iff in He.
    replace (pre ++ e :: l)%list with ((pre ++ [e]) ++ l)%list
      by now rewrite <- app_assoc.
    rewrite <- IH. cbn [app].
    destruct e; cbn [produced]; try reflexivity. now rewrite He.
Qed.

Lemma produced_none l pre :
  Forall (fun e => is_quiet e = true) l -> produced env pre l = None.
Proof.
  intros Hl. rewrite <- (app_nil_r l), produced_quiet by done. reflexivity.
Qed.

Lemma reaches_after {A B} (tail : M Frame B) (c : M Frame A)
    (k : A -> M Frame B) :
  only frame_events is_quiet c ->
  (forall a, reaches tail (k a)) ->
  reaches tail (bind c k).
Proof.
  intros Hc Hk s. destruct (Hc s) as (l1 & E1 & H1). unfold bind.
  destruct (c s) as [[a|e] s1]; cbn in E1.
  - destruct (Hk a s1) as [(l2 & E2 & H2)|(s0 & l2 & E2 & H2 & Ht)].
    + left. exists (l1 ++ l2)%list. rewrite E2, E1, app_assoc.
      split; [done|]. now apply Forall_app.
    + right. exists s0, (l1 ++ l2)%list. rewrite E2, E1, app_assoc.
      split; [done|]. split; [now apply Forall_app|done].
  - left. exists l1. done.
Qed.

Lemma reaches_quiet {A} (tail c : M Frame A) :
  only frame_events is_quiet c -> reaches tail c.
Proof. intros Hc s. left. destruct (Hc s) as (l & E & Hl). eauto. Qed.

Lemma reaches_tail {A} (tail : M Frame A) : reaches tail tail.
Proof. intros s. right. exists s, []. now rewrite app_nil_r. Qed.

(** The body of [main] ends before the dispatch, or goes on with the
    dispatch and the printing of its result; until then it calls no
    scan operation that gives a result and renders and stores nothing. *)
Lemma main_try_reaches :
  reaches (bind (dispatch env)
             (fun scan_result => lift (print_scan_result scan_result)))
          (main_try env).
Proof.
  unfold main_try.
  repeat lazymatch goal with
         | |- reaches _ (bind (normalize _) _) =>
             apply reaches_after;
             [solve [repeat only_unfold] | intros ?; apply reaches_tail]
         | |- reaches _ (bind (call _ _ _) (fun _ => ret _)) =>
             apply reaches_quiet; solve [repeat only_unfold]
         | |- reaches _ (bind _ _) =>
             apply reaches_after; [solve [repeat only_unfold] | intros ?]
         | |- reaches _ (if ?b then _ else _) => destruct b
         end.
Qed.

Lemma dispatched_after {A} (c : M Frame A) (k : A -> M Frame pyval) :
  only frame_events is_quiet c ->
  (forall a, shaped (k a) (dispatched env)) ->
  shaped (bind c k) (dispatched env).
Proof.
  intros Hc Hk s. destruct (Hc s) as (l1 & E1 & H1). unfold bind.
  destruct (c s) as [[a|e] s1]; cbn in E1.
  - destruct (Hk a s1) as (l2 & E2 & H2).
    exists (l1 ++ l2)%list. rewrite E2, E1, app_assoc. split; [done|].
    rewrite E1 in H2.
    destruct H2 as [[Hq Hr]|(l0 & f & xs & -> & Hq & Hf & Hr)].
    + left. split; [now apply Forall_app|done].
    + right. exists (l1 ++ l0)%list, f, xs.
      split; [now rewrite app_assoc|]. split; [now apply Forall_app|].
      split; [done|]. now rewrite app_assoc.
  - exists l1. split; [done|]. left. split; [done|]. right. eauto.
Qed.

Lemma dispatched_ret : shaped (ret PNone) (dispatched env).
Proof.
  intros s. exists []. rewrite app_nil_r. split; [done|].
  left. split; [constructor|]. now left.
Qed.

Lemma dispatched_call f xs :
  is_result_call (Call f xs) = true ->
  shaped (call env f xs) (dispatched env).
Proof.
  intros Hf s. exists [Call f xs]. split; [reflexivity|].
  right. exists [], f, xs. rewrite app_nil_r.
  split; [done|]. split; [constructor|]. split; [done|]. reflexivity.
Qed.

Lemma dispatch_dispatched : shaped (dispatch env) (dispatched env).
Proof.
  unfold dispatch.
  repeat lazymatch goal with
         | |- shaped (bind _ _) _ =>
             apply dispatched_after; [solve [repeat only_unfold] | intros ?]
         | |- shaped (if ?b then _ else _) _ => destruct b
         | |- shaped (ret PNone) _ => apply dispatched_ret
         | |- shaped (call _ _ _) _ => apply dispatched_call; reflexivity
         end.
Qed.

Lemma main_except_quiet e : only frame_events is_quiet (main_except env e).
Proof. unfold main_except. destruct e; repeat only_unfold. Qed.

(** From the end of the body to the end of [main]: nothing follows a
    return, and quiet events follow an exception. *)
Lemma main_events s r s1 L :
  main_try env s = (r, s1) ->
  events (world s1) = (events (world s) ++ L)%list ->
  exists l3,
    events (world (main env s).2) = (events (world s) ++ L ++ l3)%list /\
    Forall (fun e => is_quiet e = true) l3 /\
    (is_Ok r = true -> l3 = [] /\ (main env s).1 = Ok tt).
Proof.
  intros Hrun E. unfold main. rewrite Hrun. destruct r as [[]|e].
  - exists []. cbn. rewrite app_nil_r. done.
  - destruct (main_except_quiet e s1) as (l3 & E3 & H3).
    exists l3. rewrite E3, E, <- app_assoc. done.
Qed.

(** The printing of a report: the two blank lines, the header, the
    rendering, and the storage once the rendering returned. *)
Lemma print_scan_result_report r w :
  exists tl,
    events (print_scan_result (PObj r) w).2
    = (events w
       ++ [Print ""; Print "";
           Print (blue ("----------------" ++ sr_type r ++ " Scan Result"
                        ++ "----------------"));
           Render r] ++ tl)%list /\
    match sr_print r with
    | Ok _ => tl = [Store r] /\ (print_scan_result (PObj r) w).1 = sr_store r
    | Raise e => tl = [] /\ (print_scan_result (PObj r) w).1 = Raise e
    end.
Proof.
  unfold print_scan_result, bind, print, emit, of_result, emit_event.
  destruct r as [t [[]|e1] [[]|e2]]; cbn; rewrite <- ?app_assoc; cbn;
    eexists; (split; [reflexivity|]); done.
Qed.

(** A value that is neither [None] nor a report has no [type]: the
    two blank lines are printed and the header fails. *)
Lemma print_scan_result_other v w :
  match v with
  | PNone | PObj _ => True
  | _ => print_scan_result v w
         = (Raise (AttributeError "type"),
            {| host := host w; events := events w ++ [Print ""; Print ""] |})
  end.
Proof.
  destruct v; try done;
    unfold print_scan_result, bind, print, emit, raise, emit_event; cbn;
    now rewrite <- app_assoc.
Qed.

Lemma lift_run {A} (c : M World A) s :
  lift c s = ((c (world s)).1, {| args := args s; world := (c (world s)).2 |}).
Proof. unfold lift. now destruct (c (world s)). Qed.

(** C9. In every run of [main]: when the LE device scan or the GATT
    scan returned a report, the report is printed under the two blank
    lines and the header that names its type and rendered, once, right
    after that call, and stored once when the rendering returns; the
    storage is the last thing [main] does, and [main] returns, when it
    returns too. In every other run (another mode, a plugin action, a
    scan that returned [None] or failed, a failure before the scan),
    nothing is rendered and nothing is stored. *)
Theorem scan_result_lifecycle s :
  exists l,
    events (world (main env s).2) = (events (world s) ++ l)%list /\
    match produced env (events (world s)) l with
    | Some r =>
        exists l0 f xs tl,
          l = (l0 ++ [Call f xs; Print ""; Print "";
                      Print (blue ("----------------" ++ sr_type r
                                   ++ " Scan Result" ++ "----------------"));
                      Render r] ++ tl)%list /\
          is_result_call (Call f xs) = true /\
          collaborator env (events (world s) ++ l0) f xs = Ok (PObj r) /\
          count is_Render l0 = 0%nat /\ count is_Store l0 = 0%nat /\
          count is_Render tl = 0%nat /\
          match sr_print r with
          | Ok _ =>
              exists tl', tl = Store r :: tl' /\ count is_Store tl' = 0%nat /\
                          (sr_store r = Ok tt ->
                           tl' = [] /\ (main env s).1 = Ok tt)
          | Raise _ => count is_Store tl = 0%nat
          end
    | None => count is_Render l = 0%nat /\ count is_Store l = 0%nat
    end.
Proof.
  destruct (main_try_reaches s) as [(l1 & E1 & H1)|(s0 & l1 & E1 & H1 & Ht)].
  { (* the dispatch is not reached *)
    destruct (main_events s _ _ l1 (surjective_pairing _) E1) as (l3 & E3 & H3 & _).
    exists (l1 ++ l3)%list. split; [exact E3|].
    assert (Hq : Forall (fun e => is_quiet e = true) (l1 ++ l3))
      by now apply Forall_app.
    rewrite (produced_none _ _ Hq). now apply quiet_counts. }
  destruct (dispatch_dispatched s0) as (l2 & E2 & H2).
  unfold bind in Ht. rewrite E1 in E2, H2.
  destruct (dispatch env s0) as [r s1] eqn:Hd. cbn [fst snd] in E2, H2.
  destruct H2 as [[Hq Hr]|(l0 & f & xs & -> & Hq & Hf & Hr)].
  { (* no result call *)
    assert (Hq12 : Forall (fun e => is_quiet e = true) (l1 ++ l2))
      by now apply Forall_app.
    rewrite <- app_assoc in E2.
    destruct Hr as [->|[e ->]].
    - rewrite lift_run in Ht. cbn in Ht.
      destruct (main_events s _ _ (l1 ++ l2) Ht E2) as (l3 & E3 & H3 & Hok).
      destruct (Hok eq_refl) as [-> _]. rewrite app_nil_r in E3.
      exists (l1 ++ l2)%list. split; [exact E3|].
      rewrite (produced_none _ _ Hq12). now apply quiet_counts.
    - destruct (main_events s _ _ (l1 ++ l2) Ht E2) as (l3 & E3 & H3 & _).
      exists ((l1 ++ l2) ++ l3)%list. split; [exact E3|].
      assert (Hq' : Forall (fun e => is_quiet e = true) ((l1 ++ l2) ++ l3))
        by now apply Forall_app.
      rewrite (produced_none _ _ Hq'). now apply quiet_counts. }
  (* the call that gives [scan_result] was made *)
  set (L0 := (l1 ++ l0)%list).
  assert (HL0 : Forall (fun e => is_quiet e = true) L0) by now apply Forall_app.
  assert (E2' : events (world s1) = (events (world s) ++ L0 ++ [Call f xs])%list)
    by (rewrite E2; unfold L0; now rewrite <- !app_assoc).
  assert (Hr' : r = collaborator env (events (world s) ++ L0) f xs)
    by (rewrite Hr; unfold L0; now rewrite <- !app_assoc).
  clearbody L0. clear E2 Hr Hq H1 E1.
  destruct (quiet_counts _ HL0) as [HR0 HS0].
  assert (Hprod : forall rest,
            produced env (events (world s)) (L0 ++ [Call f xs] ++ rest)
            = match r with Ok (PObj sr) => Some sr | _ => None end).
  { intros rest. rewrite (produced_quiet _ _ _ HL0). cbn [app produced].
    rewrite Hf. now rewrite Hr'. }
  destruct r as [v|e].
  2:{ (* the scan failed *)
      destruct (main_events s _ _ (L0 ++ [Call f xs]) Ht E2')
        as (l3 & E3 & H3 & _).
      exists (L0 ++ [Call f xs] ++ l3)%list.
      split; [now rewrite E3, <- !app_assoc|].
      rewrite Hprod. destruct (quiet_counts _ H3) as [HR3 HS3].
      rewrite !count_app, HR0, HS0, HR3, HS3. done. }
  rewrite lift_run in Ht.
  destruct v as [|b|t|ts|sr].
  - (* the scan returned [None] *)
    change (print_scan_result PNone (world s1)) with (Ok tt, world s1) in Ht.
    cbn [fst snd] in Ht.
    assert (Ht' : main_try env s = (Ok tt, s1)) by (rewrite Ht; now destruct s1).
    destruct (main_events s _ _ (L0 ++ [Call f xs]) Ht' E2')
      as (l3 & E3 & _ & Hok).
    destruct (Hok eq_refl) as [-> _].
    exists (L0 ++ [Call f xs] ++ [])%list.
    split; [now rewrite E3, <- !app_assoc|].
    rewrite Hprod, !count_app, HR0, HS0. done.
  - rewrite (print_scan_result_other (PBool b)) in Ht. cbn [fst snd] in Ht.
    match type of Ht with _ = (?r0, ?s2) =>
      destruct (main_events s r0 s2 (L0 ++ [Call f xs; Print ""; Print ""]) Ht)
        as (l3 & E3 & H3 & _);
      [cbn [world events]; rewrite E2', <- !app_assoc; reflexivity|] end.
    exists (L0 ++ [Call f xs] ++ [Print ""; Print ""] ++ l3)%list.
    split; [now rewrite E3, <- !app_assoc|].
    rewrite Hprod. destruct (quiet_counts _ H3) as [HR3 HS3].
    rewrite !count_app, HR0, HS0, HR3, HS3. done.
  - rewrite (print_scan_result_other (PStr t)) in Ht. cbn [fst snd] in Ht.
    match type of Ht with _ = (?r0, ?s2) =>
      destruct (main_events s r0 s2 (L0 ++ [Call f xs; Print ""; Print ""]) Ht)
        as (l3 & E3 & H3 & _);
      [cbn [world events]; rewrite E2', <- !app_assoc; reflexivity|] end.
    exists (L0 ++ [Call f xs] ++ [Print ""; Print ""] ++ l3)%list.
    split; [now rewrite E3, <- !app_assoc|].
    rewrite Hprod. destruct (quiet_counts _ H3) as [HR3 HS3].
    rewrite !count_app, HR0, HS0, HR3, HS3. done.
  - rewrite (print_scan_result_other (PList ts)) in Ht. cbn [fst snd] in Ht.
    match type of Ht with _ = (?r0, ?s2) =>
      destruct (main_events s r0 s2 (L0 ++ [Call f xs; Print ""; Print ""]) Ht)
        as (l3 & E3 & H3 & _);
      [cbn [world events]; rewrite E2', <- !app_assoc; reflexivity|] end.
    exists (L0 ++ [Call f xs] ++ [Print ""; Print ""] ++ l3)%list.
    split; [now rewrite E3, <- !app_assoc|].
    rewrite Hprod. destruct (quiet_counts _ H3) as [HR3 HS3].
    rewrite !count_app, HR0, HS0, HR3, HS3. done.
  - (* the scan returned a report *)
    destruct (print_scan_result_report sr (world s1)) as (tl & Ep & Hp).
    set (shown := [Print ""; Print "";
                   Print (blue ("----------------" ++ sr_type sr
                                ++ " Scan Result" ++ "----------------"));
                   Render sr]) in *.
    match type of Ht with _ = (?r0, ?s2) =>
      destruct (main_events s r0 s2 (L0 ++ [Call f xs] ++ shown ++ tl) Ht)
        as (l3 & E3 & H3 & Hok);
      [cbn [world]; rewrite Ep, E2', <- !app_assoc; reflexivity|] end.
    exists (L0 ++ [Call f xs] ++ shown ++ tl ++ l3)%list.
    split; [now rewrite E3, <- !app_assoc|].
    rewrite Hprod. destruct (quiet_counts _ H3) as [HR3 HS3].
    exists L0, f, xs, (tl ++ l3)%list.
    split; [reflexivity|]. split; [done|]. split; [done|].
    split; [done|]. split; [done|].
    destruct (sr_print sr) as [[]|e] eqn:Hpr; destruct Hp as [-> Hres].
    + split; [exact HR3|]. exists l3. split; [reflexivity|].
      split; [exact HS3|]. intros Hst. apply Hok.
      cbn [fst]. now rewrite Hres, Hst.
    + split; [exact HR3|exact HS3].
Qed.

End Lifecycle.

Lemma scan_result_lifecycle_witness :
  exists l0 f xs,
    events (world (@main core_packages le_scan_reports (start_frame ∅)).2)
    = (l0 ++ [Call f xs; Print ""; Print "";
              Print "----------------LE Scan Result----------------";
              Render le_report; Store le_report])%list /\
    is_result_call (Call f xs) = true /\
    (@main core_packages le_scan_reports (start_frame ∅)).1 = Ok tt.
Proof.
  destruct (@scan_result_lifecycle core_packages le_scan_reports (start_frame ∅))
    as (l & E & Hl).
  assert (El : l = events (world (@main core_packages le_scan_reports
                                    (start_frame ∅)).2)) by (symmetry; exact E).
  assert (Hp : produced le_scan_reports (events (world (start_frame ∅))) l
               = Some le_report) by (rewrite El; vm_compute; reflexivity).
  rewrite Hp in Hl.
  destruct Hl as (l0 & f & xs & tl & Hl & Hf & _ & _ & _ & _ & Hm).
  change (sr_print le_report) with (Ok tt : Result unit) in Hm.
  destruct Hm as (tl' & -> & _ & Hs).
  destruct (Hs eq_refl) as [-> Hok].
  exists l0, f, xs. rewrite E, Hl. done.
Defined.

(** ** The fault layer: the other clauses *)

Section OtherFaults.
Context `{Packages} (env : Env).

(** X1. A RuntimeError or a ValueError raised in the body of [main] is
    logged with its class name and message, the traceback is printed,
    and the process exits with status 1. *)
Theorem invalid_condition_exits_with_one s s' e cls msg :
  main_try env s = (Raise e, s') ->
  (e = RuntimeError msg /\ cls = "RuntimeError") \/
  (e = ValueError msg /\ cls = "ValueError") ->
  main env s
  = (Raise (SystemExit 1),
     {| args := args s';
        world := {| host := host (world s');
                    events := events (world s')
                      ++ [Log ERROR (cls ++ ": " ++ msg); PrintExc] |} |}) /\
  exit_code (main env s).1 = 1%Z.
Proof.
  intros Hrun [[-> ->]|[-> ->]]; unfold main; rewrite Hrun; cbn [main_except];
    unfold bind, lift, logger, emit, emit_event, raise; cbn;
    rewrite <- app_assoc; done.
Qed.

(** X2. A failed installation of a plugin is logged as an error under
    "Failed to install plugin: "; no traceback is printed and [main]
    returns, so the exit status is 0. *)
Theorem plugin_install_failure_is_logged s s' msg :
  main_try env s = (Raise (PluginInstallError msg), s') ->
  main env s
  = (Ok tt,
     {| args := args s';
        world := {| host := host (world s');
                    events := events (world s')
                      ++ [Log ERROR ("Failed to install plugin: " ++ msg)] |} |}) /\
  exit_code (main env s).1 = 0%Z.
Proof. intros Hrun. unfold main. rewrite Hrun. done. Qed.

(** X3. An exception of a class that no [except] clause names (a
    failed host command, an OSError of the cache, a KeyError, the
    SystemExit of [exit(-1)]) leaves [main] as it was raised: nothing
    is logged or printed, and no reset is run. *)
Theorem uncaught_exception_escapes s s' e :
  main_try env s = (Raise e, s') ->
  caught_by_main e = false ->
  main env s = (Raise e, s') /\
  exit_code (main env s).1 = match e with SystemExit n => n | _ => 1%Z end.
Proof.
  intros Hrun He. unfold main. rewrite Hrun.
  destruct e; try discriminate He; done.
Qed.

(** X4. An interrupt that arrives while the options are parsed finds
    [args] unbound: the clause for KeyboardInterrupt itself raises
    UnboundLocalError, so that no reset is run, "Canceled" is not
    printed and the exit status is 1. *)
Theorem interrupt_while_parsing_is_not_handled s :
  args s = None ->
  parse_cmdline env = Raise KeyboardInterrupt ->
  main env s
  = (Raise (UnboundLocalError "args"),
     {| args := None;
        world := {| host := host (world s);
                    events := events (world s) ++ [Call "parse_cmdline" []] |} |}) /\
  exit_code (main env s).1 = 1%Z.
Proof.
  intros Ha Hp. unfold main, main_try, bind, lift, emit, of_result, emit_event.
  cbn. rewrite Hp. cbn. unfold getitem. cbn. rewrite Ha. done.
Qed.

(** X5. When the reset run on an interrupt fails, its exception leaves
    [main]: neither the blank line nor "Canceled" is printed. *)
Theorem failed_reset_escapes s s' d iface e h :
  main_try env s = (Raise KeyboardInterrupt, s') ->
  args s' = Some d ->
  d !! "-i" = Some (PStr iface) ->
  sh env ("hciconfig " ++ iface ++ " reset") (host (world s')) = (Raise e, h) ->
  main env s
  = (Raise e,
     {| args := Some d;
        world := {| host := h;
                    events := events (world s')
                      ++ [Shell ("hciconfig " ++ iface ++ " reset")] |} |}).
Proof.
  intros Hrun Hd Hi Hsh. unfold main. rewrite Hrun. cbn [main_except].
  erewrite bind_ok; [|apply getitem_ok with d; [exact Hd|exact Hi]].
  cbn [is_None negb].
  unfold bind, as_str, ret, lift, check_output, emit_event.
  cbn [host events args world]. 
  change (join " " ["hciconfig"; iface; "reset"])
    with ("hciconfig " ++ iface ++ " reset").
  rewrite Hsh, Hd. reflexivity.
Qed.

End OtherFaults.

Lemma invalid_condition_exits_with_one_witness :
  @main core_packages address_refused (start_frame ∅)
  = (Raise (SystemExit 1),
     {| args := args (@main_try core_packages address_refused (start_frame ∅)).2;
        world :=
          {| host := host (world (@main_try core_packages address_refused
                                    (start_frame ∅)).2);
             events :=
               events (world (@main_try core_packages address_refused
                                (start_frame ∅)).2)
               ++ [Log ERROR
                     ("RuntimeError" ++ ": "
                      ++ "hci.read_bd_addr() returned, status: 0x0c COMMAND_DISALLOWED");
                   PrintExc] |} |}) /\
  exit_code (@main core_packages address_refused (start_frame ∅)).1 = 1%Z.
Proof.
  assert (Hrun : @main_try core_packages address_refused (start_frame ∅)
                 = (Raise (RuntimeError
                      "hci.read_bd_addr() returned, status: 0x0c COMMAND_DISALLOWED"),
                    (@main_try core_packages address_refused (start_frame ∅)).2))
    by (vm_compute; reflexivity).
  apply (@invalid_condition_exits_with_one core_packages address_refused
           _ _ _ "RuntimeError" _ Hrun).
  left. split; reflexivity.
Defined.

Lemma plugin_install_failure_is_logged_witness :
  @main core_packages install_fails (start_frame ∅)
  = (Ok tt,
     {| args := args (@main_try core_packages install_fails (start_frame ∅)).2;
        world :=
          {| host := host (world (@main_try core_packages install_fails
                                    (start_frame ∅)).2);
             events :=
               events (world (@main_try core_packages install_fails
                                (start_frame ∅)).2)
               ++ [Log ERROR ("Failed to install plugin: " ++ "not a wheel")] |} |}) /\
  exit_code (@main core_packages install_fails (start_frame ∅)).1 = 0%Z.
Proof.
  apply (@plugin_install_failure_is_logged core_packages install_fails).
  vm_compute. reflexivity.
Defined.

Lemma uncaught_exception_escapes_witness :
  scan_over_subdir
  = (Raise (OSError IsADirectoryError
              "/var/lib/bluetooth/AA:BB:CC:DD:EE:FF/cache/lost+found"),
     (@main_try core_packages
        (sample_env all_success (sample_args "le" (PStr "hci1"))
           (fun _ => Ok PNone))
        (start_frame cache_with_subdir)).2) /\
  exit_code scan_over_subdir.1 = 1%Z.
Proof.
  apply (@uncaught_exception_escapes core_packages
           (sample_env all_success (sample_args "le" (PStr "hci1"))
              (fun _ => Ok PNone))
           (start_frame cache_with_subdir)).
  - vm_compute. reflexivity.
  - reflexivity.
Defined.

Lemma interrupt_while_parsing_is_not_handled_witness :
  @main core_packages interrupted_parsing (start_frame ∅)
  = (Raise (UnboundLocalError "args"),
     {| args := None;
        world := {| host := host (world (start_frame ∅));
                    events := events (world (start_frame ∅))
                              ++ [Call "parse_cmdline" []] |} |}) /\
  exit_code (@main core_packages interrupted_parsing (start_frame ∅)).1 = 1%Z.
Proof.
  apply (@interrupt_while_parsing_is_not_handled core_packages
           interrupted_parsing (start_frame ∅)); reflexivity.
Defined.

Lemma failed_reset_escapes_witness :
  @main core_packages reset_fails (start_frame ∅)
  = (Raise (CalledProcessError "hciconfig hci1 reset" 1 "Can't init device"),
     {| args := Some (sample_args "le" (PStr "hci1"));
        world :=
          {| host := host (world (@main_try core_packages reset_fails
                                    (start_frame ∅)).2);
             events :=
               events (world (@main_try core_packages reset_fails
                                (start_frame ∅)).2)
               ++ [Shell ("hciconfig " ++ "hci1" ++ " reset")] |} |}).
Proof.
  assert (Hrun : @main_try core_packages reset_fails (start_frame ∅)
                 = (Raise KeyboardInterrupt,
                    (@main_try core_packages reset_fails (start_frame ∅)).2))
    by (vm_compute; reflexivity).
  assert (Hd : args (@main_try core_packages reset_fails (start_frame ∅)).2
               = Some (sample_args "le" (PStr "hci1")))
    by (vm_compute; reflexivity).
  apply (@failed_reset_escapes core_packages reset_fails _ _ _ "hci1" _ _ Hrun Hd).
  - vm_compute. reflexivity.
  - vm_compute. reflexivity.
Defined.

(** ** The order of the steps *)

Lemma emits_check_output env cmd :
  emits events (check_output env cmd) (fun _ l => l = [Shell cmd]).
Proof.
  intros w. exists [Shell cmd]. unfold check_output. cbn.
  now destruct (sh env cmd (host w)).
Qed.

Lemma emits_HCI env iface :
  emits events (HCI env iface) (fun _ l => l = [HciOpen iface]).
Proof. intros w. now exists [HciOpen iface]. Qed.

Lemma emits_hci_send env c :
  emits events (hci_send env c) (fun _ l => l = [HciSend c]).
Proof. intros w. now exists [HciSend c]. Qed.

Lemma filter_no_step l :
  Forall (fun e => negb (is_step e) = true) l -> List.filter is_step l = [].
Proof.
  induction 1 as [|e l He _ IH]; [done|]. cbn.
  apply negb_true_iff in He. now rewrite He.
Qed.

Lemma in_order_skip {A} todo (c : M World A) (k : A -> M World unit) :
  only events (fun e => negb (is_step e)) c ->
  (forall a, emits events (k a) (in_order todo)) ->
  emits events (bind c k) (in_order todo).
Proof.
  intros Hc Hk. apply emits_bind with (1 := Hc) (2 := Hk).
  - intros e l Hl%filter_no_step. unfold in_order. rewrite Hl.
    split; [apply prefix_nil|discriminate].
  - intros a l1 r l2 Hl%filter_no_step [U1 U2]. unfold in_order.
    now rewrite List.filter_app, Hl.
Qed.

Lemma in_order_step {A} x todo (c : M World A) (k : A -> M World unit) :
  is_step x = true ->
  emits events c (fun _ l => l = [x]) ->
  (forall a, emits events (k a) (in_order todo)) ->
  emits events (bind c k) (in_order (x :: todo)).
Proof.
  intros Hx Hc Hk. apply emits_bind with (1 := Hc) (2 := Hk).
  - intros e l ->. unfold in_order. cbn. rewrite Hx.
    split; [|discriminate]. apply prefix_cons, prefix_nil.
  - intros a l1 r l2 -> [U1 U2]. unfold in_order. cbn. rewrite Hx. split.
    + now apply prefix_cons.
    + intros Hr. now rewrite U2.
Qed.

Lemma in_order_close env : emits events (hci_close env) (in_order [HciClose]).
Proof.
  intros w. exists [HciClose]. rewrite hci_close_run. cbn.
  split; [done|]. split; done.
Qed.

Lemma emits_of_result_ok {S A B} (ev : S -> list Event) (a : A)
    (k : A -> M S B) Q :
  emits ev (k a) Q -> emits ev (bind (of_result (Ok a)) k) Q.
Proof. intros Hk s. exact (Hk s). Qed.

Lemma in_order_done : emits events (ret tt : M World unit) (in_order []).
Proof. intros w. exists []. cbn. rewrite app_nil_r. repeat split; done. Qed.

(** Where the next computation is one step, or is no step at all. *)
Ltac in_order_next :=
  lazymatch goal with
  | |- emits _ (bind (check_output _ _) _) _ =>
      apply in_order_step; [reflexivity | apply emits_check_output | intros ?]
  | |- emits _ (bind (HCI _ _) _) _ =>
      apply in_order_step; [reflexivity | apply emits_HCI | intros ?]
  | |- emits _ (bind (hci_send _ _) _) _ =>
      apply in_order_step; [reflexivity | apply emits_hci_send | intros ?]
  | |- emits _ (bind _ _) _ =>
      apply in_order_skip; [solve [repeat only_step] | intros ?]
  end.

Section Order.
Context `{Packages} (env : Env).

(** X6. Normalization is one pass over a fixed list of steps: whatever
    the host and the controller answer, the shell commands run and the
    uses of the handle are the first steps of the list (unblock, up,
    restart, open, the seven commands, close), in that order and each
    at most once, and all of them when [prepare_hci] returns. Nothing
    is run when the rfkill id cannot be found. *)
Theorem prepare_hci_steps_in_order iface w :
  match find_rfkill_devid env iface with
  | Raise e => prepare_hci env iface w = (Raise e, w)
  | Ok devid =>
      exists l,
        events (prepare_hci env iface w).2 = (events w ++ l)%list /\
        List.filter is_step l `prefix_of` prepare_hci_steps iface devid /\
        ((prepare_hci env iface w).1 = Ok tt ->
         List.filter is_step l = prepare_hci_steps iface devid)
  end.
Proof.
  destruct (find_rfkill_devid env iface) as [devid|e] eqn:Hid.
  - assert (Hrun : emits events (prepare_hci env iface)
                     (in_order (prepare_hci_steps iface devid))).
    { unfold prepare_hci, prepare_hci_steps. rewrite Hid.
      apply emits_of_result_ok.
      repeat in_order_next. apply in_order_close. }
    destruct (Hrun w) as (l & E & U1 & U2). exists l. repeat split; try done.
    intros Hr. apply U2. now rewrite Hr.
  - unfold prepare_hci. rewrite Hid. reflexivity.
Qed.

(** X7. Cleanup is one pass as well: its shell commands are the first
    of stop, remove, remove in the cache, start, in that order; the
    service is started again only after both removals returned, and
    all four commands ran when [clean] returns. *)
Theorem clean_steps_in_order laddr raddr w :
  exists l,
    events (clean env laddr raddr w).2 = (events w ++ l)%list /\
    List.filter is_step l `prefix_of` clean_steps laddr raddr /\
    ((clean env laddr raddr w).1 = Ok tt ->
     List.filter is_step l = clean_steps laddr raddr).
Proof.
  assert (Hrun : emits events (clean env laddr raddr)
                   (in_order (clean_steps laddr raddr))).
  { unfold clean, clean_steps. repeat in_order_next. apply in_order_done. }
  destruct (Hrun w) as (l & E & U1 & U2). exists l. repeat split; try done.
  intros Hr. apply U2. now rewrite Hr.
Qed.

End Order.

(** ** Paths and letter case *)

Lemma upper_ascii_idempotent c : upper_ascii (upper_ascii c) = upper_ascii c.
Proof. destruct c as [[] [] [] [] [] [] [] []]; reflexivity. Qed.

Lemma upper_idempotent s : upper (upper s) = upper s.
Proof.
  induction s as [|c s IH]; [done|]. cbn. now rewrite upper_ascii_idempotent, IH.
Qed.

Lemma prefix_slash c a : String.prefix "/" (String c a) = Ascii.eqb c "/".
Proof.
  change (String.prefix "/" (String c a))
    with (if ascii_dec "/" c then String.prefix "" a else false).
  destruct (ascii_dec "/" c) as [<-|Hne].
  - now destruct a.
  - symmetry. apply Ascii.eqb_neq. congruence.
Qed.

Lemma components_plain a : contains "/" a = false -> components a = [a].
Proof.
  induction a as [|c a IH]; [done|]. cbn [contains components].
  intros [Hp Hc]%orb_false_iff. rewrite (IH Hc).
  rewrite prefix_slash in Hp. now rewrite Hp.
Qed.

Lemma parse_path_plain a :
  plain_segment a -> parse_path a = {| root := ""; parts := [a] |}.
Proof.
  intros (Hs & He & Hd). unfold parse_path. rewrite (components_plain a Hs).
  destruct a as [|c a]; [done|].
  cbn [contains] in Hs. apply orb_false_iff in Hs as [Hp _].
  assert (Hroot2 : String.prefix "//" (String c a) = false).
  { change (String.prefix "//" (String c a))
      with (if ascii_dec "/" c then String.prefix "/" a else false).
    rewrite prefix_slash in Hp. apply Ascii.eqb_neq in Hp.
    destruct (ascii_dec "/" c); congruence. }
  rewrite Hp, Hroot2. cbn [andb List.filter].
  destruct (String.eqb_spec (String c a) ""); [done|].
  destruct (String.eqb_spec (String c a) "."); [done|]. reflexivity.
Qed.

(** X8. For an address text that is a plain path segment, the cache
    that normalization clears is [/var/lib/bluetooth/<address>/cache]. *)
Theorem cache_path_of_address a :
  plain_segment a ->
  path_str (cache_path a) = "/var/lib/bluetooth/" ++ a ++ "/cache".
Proof.
  intros Ha. unfold cache_path, path_div. rewrite (parse_path_plain a Ha).
  reflexivity.
Qed.

Lemma cache_path_of_address_witness :
  path_str (cache_path "AA:BB:CC:DD:EE:FF")
  = "/var/lib/bluetooth/" ++ "AA:BB:CC:DD:EE:FF" ++ "/cache".
Proof.
  apply cache_path_of_address. repeat split; discriminate.
Defined.

(** X9. Cleanup does not depend on the letter case of the remote
    address: it runs the same commands, to the same effect, for an
    address and for its upper-case form. *)
Theorem clean_ignores_case env laddr raddr w :
  clean env laddr (upper raddr) w = clean env laddr raddr w.
Proof. unfold clean. now rewrite upper_idempotent. Qed.

(** ** The choice of the interface *)

Section Interface.
Context `{Packages} (env : Env).

Lemma getitem_off k s d (A : Type) (c1 c2 : M Frame A) :
  args s = Some d ->
  flag_off d k ->
  bind (getitem k) (fun v => if truthy v then c1 else c2) s = c2 s.
Proof.
  intros Ha (v & Hk & Hv). erewrite bind_ok; [|apply getitem_ok with d; [first [assumption|reflexivity]|eassumption]].
  now rewrite Hv.
Qed.

(** Without a plugin action, [main] parses the options, logs them and
    goes on to normalization and dispatch. *)
Lemma main_try_scan_run s d :
  parse_cmdline env = Ok d ->
  no_plugin_action d ->
  main_try env s
  = scan_run env
      {| args := Some d;
         world := {| host := host (world s);
                     events := events (world s)
                       ++ [Call "parse_cmdline" [];
                           Log DEBUG ("parse_cmdline() returned" ++ nl
                                      ++ "    args: " ++ format_args d)] |} |}.
Proof.
  intros Hp (F1 & F2 & F3 & F4). unfold main_try. rewrite Hp.
  erewrite bind_ok; [|reflexivity].
  erewrite bind_ok; [|reflexivity].
  erewrite bind_ok; [|reflexivity].
  erewrite bind_ok; [|reflexivity].
  unfold emit_event. cbn [host events world args].
  rewrite <- app_assoc. cbn [app].
  rewrite (getitem_off _ _ d) by done.
  rewrite (getitem_off _ _ d) by done.
  rewrite (getitem_off _ _ d) by done.
  rewrite (getitem_off _ _ d) by done.
  reflexivity.
Qed.

(** X10. When no interface is given and none can be found, [main]
    logs "No available HCI device" and exits with status -1; no shell
    command is run and no handle is opened. *)
Theorem no_controller_exits_minus_one s d msg :
  parse_cmdline env = Ok d ->
  no_plugin_action d ->
  flag_off d "--adv" ->
  d !! "-i" = Some (PStr "The default HCI device") ->
  HCI_get_default_hcistr env = Raise (HciError msg) ->
  main env s
  = (Raise (SystemExit (-1)),
     {| args := Some d;
        world := {| host := host (world s);
                    events := events (world s)
                      ++ [Call "parse_cmdline" [];
                          Log DEBUG ("parse_cmdline() returned" ++ nl
                                     ++ "    args: " ++ format_args d);
                          Log ERROR "No available HCI device"] |} |}) /\
  exit_code (main env s).1 = (-1)%Z.
Proof.
  intros Hp Hpl (v & Hadv & Hv) Hi Hdef.
  assert (Hrun : main_try env s
                 = (Raise (SystemExit (-1)),
                    {| args := Some d;
                       world := {| host := host (world s);
                                   events := events (world s)
                                     ++ [Call "parse_cmdline" [];
                                         Log DEBUG ("parse_cmdline() returned" ++ nl
                                                    ++ "    args: " ++ format_args d);
                                         Log ERROR "No available HCI device"] |} |})).
  { rewrite (main_try_scan_run s d Hp Hpl). unfold scan_run, normalize.
    erewrite bind_raise; [reflexivity|].
    erewrite bind_ok; [|apply getitem_ok with d; [first [assumption|reflexivity]|eassumption]]. rewrite Hv. cbn [negb].
    erewrite bind_ok; [|apply getitem_ok with d; [first [assumption|reflexivity]|eassumption]].
    erewrite bind_raise; [reflexivity|].
    cbn [eq_str]. rewrite String.eqb_refl, Hdef.
    unfold bind, lift, logger, emit, emit_event, raise. cbn.
    now rewrite <- app_assoc. }
  unfold main. rewrite Hrun. done.
Qed.

(** X11. Normalization runs [prepare_hci] on the interface that
    [args['-i']] holds afterwards: the one given, or, when none was
    given, the default one found, which replaces the placeholder in
    [args] (so that the scanners and the reset on interrupt get it). *)
Theorem normalize_chooses_interface s d i :
  args s = Some d ->
  flag_off d "--adv" ->
  d !! "-i" = Some (PStr i) ->
  (i <> "The default HCI device" ->
     normalize env s
     = ((prepare_hci env i (world s)).1,
        {| args := Some d; world := (prepare_hci env i (world s)).2 |})) /\
  (i = "The default HCI device" ->
     forall name, HCI_get_default_hcistr env = Ok name ->
     normalize env s
     = ((prepare_hci env name (world s)).1,
        {| args := Some (<["-i" := PStr name]> d);
           world := (prepare_hci env name (world s)).2 |})).
Proof.
  intros Ha (v & Hadv & Hv) Hi. split.
  - intros Hne. unfold normalize.
    erewrite bind_ok; [|apply getitem_ok with d; [first [assumption|reflexivity]|eassumption]]. rewrite Hv. cbn [negb].
    erewrite bind_ok; [|apply getitem_ok with d; [first [assumption|reflexivity]|eassumption]].
    cbn [eq_str]. apply String.eqb_neq in Hne. rewrite Hne.
    erewrite bind_ok; [|reflexivity].
    erewrite bind_ok; [|apply getitem_ok with d; [first [assumption|reflexivity]|eassumption]].
    erewrite bind_ok; [|reflexivity].
    unfold lift. rewrite Ha. now destruct (prepare_hci env i (world s)).
  - intros -> name Hdef. unfold normalize.
    erewrite bind_ok; [|apply getitem_ok with d; [first [assumption|reflexivity]|eassumption]]. rewrite Hv. cbn [negb].
    erewrite bind_ok; [|apply getitem_ok with d; [first [assumption|reflexivity]|eassumption]].
    cbn [eq_str]. rewrite String.eqb_refl, Hdef.
    erewrite bind_ok; [|unfold setitem; rewrite Ha; reflexivity].
    erewrite bind_ok;
      [|apply getitem_ok with (<["-i" := PStr name]> d);
        [reflexivity|apply lookup_insert_eq]].
    erewrite bind_ok; [|reflexivity].
    unfold lift. cbn [args world]. now destruct (prepare_hci env name (world s)).
Qed.

End Interface.

Lemma sample_args_plain m i :
  no_plugin_action (sample_args m i) /\ flag_off (sample_args m i) "--adv".
Proof. repeat split; eexists; (split; [reflexivity|reflexivity]). Qed.

Lemma no_controller_exits_minus_one_witness :
  @main core_packages no_controller (start_frame ∅)
  = (Raise (SystemExit (-1)),
     {| args := Some (sample_args "le" (PStr "The default HCI device"));
        world :=
          {| host := host (world (start_frame ∅));
             events :=
               events (world (start_frame ∅))
               ++ [Call "parse_cmdline" [];
                   Log DEBUG
                     ("parse_cmdline() returned" ++ nl ++ "    args: "
                      ++ @format_args core_packages
                           (sample_args "le" (PStr "The default HCI device")));
                   Log ERROR "No available HCI device"] |} |}) /\
  exit_code (@main core_packages no_controller (start_frame ∅)).1 = (-1)%Z.
Proof.
  apply (@no_controller_exits_minus_one core_packages no_controller
           (start_frame ∅) _ "no HCI device").
  - reflexivity.
  - apply sample_args_plain.
  - apply sample_args_plain.
  - reflexivity.
  - reflexivity.
Defined.

Lemma normalize_chooses_interface_witness :
  @normalize core_packages (quiet_env all_success)
    (parsed_frame (sample_args "le" (PStr "The default HCI device")))
  = ((@prepare_hci core_packages (quiet_env all_success) "hci0" (world_of ∅)).1,
     {| args := Some (<["-i" := PStr "hci0"]>
                        (sample_args "le" (PStr "The default HCI device")));
        world := (@prepare_hci core_packages (quiet_env all_success) "hci0"
                    (world_of ∅)).2 |}).
Proof.
  apply (proj2 (@normalize_chooses_interface core_packages (quiet_env all_success)
                  (parsed_frame (sample_args "le" (PStr "The default HCI device")))
                  _ "The default HCI device" eq_refl
                  (proj2 (sample_args_plain _ _)) eq_refl)).
  - reflexivity.
  - reflexivity.
Defined.

(** ** One action per run *)

(** [only_unfold], and the printing of the result. *)
Ltac only_more :=
  lazymatch goal with
  | |- only _ _ (print_scan_result _) => unfold print_scan_result
  | |- _ => only_unfold
  end.

Lemma count_none p l :
  Forall (fun e => negb (p e) = true) l -> count p l = 0%nat.
Proof.
  unfold count. induction 1 as [|e l He _ IH]; [done|]. cbn.
  apply negb_true_iff in He. now rewrite He.
Qed.

Section OneAction.
Context `{Packages} (env : Env).

Local Abbreviation frame_events := (fun s : Frame => events (world s)).

Lemma one_action_after {A B} (c : M Frame A) (k : A -> M Frame B) :
  only frame_events is_neutral c ->
  (forall a, emits frame_events (k a) one_action) ->
  emits frame_events (bind c k) one_action.
Proof.
  intros Hc Hk. apply emits_bind with (1 := Hc) (2 := Hk).
  - intros e l Hl. left. apply count_none. eapply Forall_impl; [exact Hl|].
    intros x Hx. unfold is_neutral in Hx. cbn beta in Hx.
    apply negb_true_iff, orb_false_iff in Hx as [-> _]. done.
  - intros a l1 r l2 Hl HQ.
    assert (Ho : count is_operation l1 = 0%nat).
    { apply count_none. eapply Forall_impl; [exact Hl|].
      intros x Hx. unfold is_neutral in Hx.
      apply negb_true_iff, orb_false_iff in Hx as [-> _]. done. }
    assert (Hs : count is_Shell l1 = 0%nat).
    { apply count_none. eapply Forall_impl; [exact Hl|].
      intros x Hx. unfold is_neutral in Hx.
      apply negb_true_iff, orb_false_iff in Hx as [_ ->]. done. }
    unfold one_action. rewrite !count_app, Ho, Hs. exact HQ.
Qed.

Lemma one_action_none {A} (c : M Frame A) :
  only frame_events (fun e => negb (is_operation e)) c ->
  emits frame_events c one_action.
Proof.
  intros Hc. apply emits_weaken with (1 := Hc).
  intros r l Hl. left. now apply count_none.
Qed.

Lemma one_action_call f xs :
  is_operation (Call f xs) = true ->
  emits frame_events (call env f xs) one_action.
Proof.
  intros Hf s. exists [Call f xs]. split; [done|]. right.
  unfold count. cbn [List.filter]. rewrite Hf. done.
Qed.

Lemma one_action_call_ret {B} f xs (b : B) :
  is_operation (Call f xs) = true ->
  emits frame_events (bind (call env f xs) (fun _ => ret b)) one_action.
Proof.
  intros Hf s. exists [Call f xs]. unfold bind, call, lift, ret. cbn.
  destruct (collaborator env (events (world s)) f xs); cbn;
    (split; [done|]); right; unfold count; cbn [List.filter]; rewrite Hf; done.
Qed.

(** X12. The dispatch runs at most one scan operation, whatever the
    options and the answers of the engines, and a scan operation never
    comes with a shell command: a scan and the cleanup exclude each
    other. *)
Theorem dispatch_runs_one_action s :
  exists l,
    events (world (dispatch env s).2) = (events (world s) ++ l)%list /\
    (count is_operation l <= 1)%nat /\
    (count is_operation l = 1%nat -> count is_Shell l = 0%nat).
Proof.
  assert (Hrun : emits frame_events (dispatch env) one_action).
  { unfold dispatch.
    repeat lazymatch goal with
           | |- emits _ (if ?b then _ else _) _ => destruct b
           | |- emits _ (call _ _ _) _ => apply one_action_call; reflexivity
           | |- emits _ (ret _) _ => apply one_action_none, only_ret
           | |- emits _ (bind _ _) _ =>
               first [ apply one_action_after;
                       [solve [repeat only_more] | intros ?]
                     | apply one_action_none; solve [repeat only_more]
                     | apply one_action_call_ret; reflexivity ]
           end. }
  destruct (Hrun s) as (l & E & [Ho|[Ho Hs]]); exists l; rewrite Ho;
    repeat split; try done; lia.
Qed.

(** X13. With a scan mode that is none of br, le, sdp and gatt and
    without [--clean], the dispatch only logs "Invalid scan mode" and
    returns [None]: nothing is printed or stored, and no error is
    raised. *)
Theorem invalid_mode_is_only_logged s d m :
  args s = Some d ->
  d !! "-m" = Some m ->
  eq_str m "br" = false -> eq_str m "le" = false ->
  eq_str m "sdp" = false -> eq_str m "gatt" = false ->
  flag_off d "--clean" ->
  bind (dispatch env) (fun scan_result => lift (print_scan_result scan_result)) s
  = (Ok tt,
     {| args := Some d;
        world := {| host := host (world s);
                    events := events (world s)
                      ++ [Log ERROR "Invalid scan mode"] |} |}).
Proof.
  intros Ha Hm M1 M2 M3 M4 (c & Hc & Hcv).
  assert (Hrun : dispatch env s
                 = (Ok PNone,
                    {| args := Some d;
                       world := {| host := host (world s);
                                   events := events (world s)
                                     ++ [Log ERROR "Invalid scan mode"] |} |})).
  { unfold dispatch.
    erewrite bind_ok; [|apply getitem_ok with d; [exact Ha|exact Hm]]. rewrite M1.
    erewrite bind_ok; [|apply getitem_ok with d; [exact Ha|exact Hm]]. rewrite M2.
    erewrite bind_ok; [|apply getitem_ok with d; [exact Ha|exact Hm]]. rewrite M3.
    erewrite bind_ok; [|apply getitem_ok with d; [exact Ha|exact Hm]]. rewrite M4.
    erewrite bind_ok; [|apply getitem_ok with d; [exact Ha|exact Hc]]. rewrite Hcv.
    unfold bind, lift, logger, emit, emit_event, ret. cbn. now rewrite Ha. }
  rewrite (bind_ok _ _ _ _ _ Hrun). reflexivity.
Qed.

End OneAction.

Lemma invalid_mode_is_only_logged_witness :
  bind (dispatch (quiet_env all_success))
       (fun scan_result =>
          lift (@print_scan_result core_packages scan_result))
       unknown_mode_frame
  = (Ok tt,
     {| args := Some (sample_args "stack" (PStr "hci0"));
        world := {| host := host (world unknown_mode_frame);
                    events := events (world unknown_mode_frame)
                      ++ [Log ERROR "Invalid scan mode"] |} |}).
Proof.
  apply (@invalid_mode_is_only_logged core_packages (quiet_env all_success)
           unknown_mode_frame (sample_args "stack" (PStr "hci0")) (PStr "stack"));
    try reflexivity.
  eexists. split; reflexivity.
Defined.

(** ** Plugin actions, sniffing, and the handle *)

Section Separation.
Context `{Packages} (env : Env).

Local Abbreviation frame_events := (fun s : Frame => events (world s)).

Lemma preamble_no_plugin l :
  Forall (fun e => is_preamble e = true) l ->
  Forall (fun e => negb (is_plugin_call e) = true) l.
Proof.
  intros Hl. eapply Forall_impl; [exact Hl|].
  intros [] Hx; try done. cbn in *.
  apply String.eqb_eq in Hx as ->. reflexivity.
Qed.

Lemma plugin_alone_after {A} (c : M Frame A) (k : A -> M Frame unit) :
  only frame_events is_preamble c ->
  (forall a, shaped (k a) (plugin_alone env)) ->
  shaped (bind c k) (plugin_alone env).
Proof.
  intros Hc Hk s. destruct (Hc s) as (l1 & E1 & H1). unfold bind.
  destruct (c s) as [[a|e] s1]; cbn in E1.
  - destruct (Hk a s1) as (l2 & E2 & H2).
    exists (l1 ++ l2)%list. rewrite E2, E1, app_assoc. split; [done|].
    rewrite E1 in H2.
    destruct H2 as [Hq|(p & f & xs & -> & Hp & Hf & Hr)].
    + left. apply Forall_app. split; [now apply preamble_no_plugin|done].
    + right. exists (l1 ++ p)%list, f, xs.
      split; [now rewrite app_assoc|]. split; [now apply Forall_app|].
      split; [done|]. now rewrite app_assoc.
  - exists l1. split; [done|]. left. now apply preamble_no_plugin.
Qed.

Lemma plugin_alone_none (c : M Frame unit) :
  only frame_events (fun e => negb (is_plugin_call e)) c ->
  shaped c (plugin_alone env).
Proof.
  intros Hc s. destruct (Hc s) as (l & E & Hl). exists l. split; [done|].
  now left.
Qed.

Lemma plugin_alone_call f xs :
  is_plugin_call (Call f xs) = true ->
  shaped (bind (call env f xs) (fun _ => ret tt)) (plugin_alone env).
Proof.
  intros Hf s. exists [Call f xs].
  unfold bind, call, lift, ret. cbn.
  split; [now destruct (collaborator env (events (world s)) f xs)|].
  right. exists [], f, xs. rewrite app_nil_r.
  split; [done|]. split; [constructor|]. split; [done|].
  now destruct (collaborator env (events (world s)) f xs).
Qed.

Lemma main_try_plugin_alone : shaped (main_try env) (plugin_alone env).
Proof.
  unfold main_try.
  repeat lazymatch goal with
         | |- shaped (if ?b then _ else _) _ => destruct b
         | |- shaped (bind _ _) _ =>
             first [ apply plugin_alone_after;
                     [solve [repeat only_more] | intros ?]
                   | apply plugin_alone_call; reflexivity
                   | apply plugin_alone_none; solve [repeat only_more] ]
         end.
Qed.

Lemma main_except_handler e :
  only frame_events (fun e => is_handler_event e && negb (is_plugin_call e))
    (main_except env e).
Proof. unfold main_except. destruct e; repeat only_more. Qed.

(** X14. A plugin action stands alone. A run of [main] calls at most
    one of [list_plugins], [install_plugin], [uninstall_plugin] and
    [run_plugin], once. When it calls one, all that precedes the call
    is the call of [parse_cmdline] and the debug log of its result;
    when the call returns, nothing follows and [main] returns; when it
    raises, all that follows is what the [except] clauses do: logging,
    the traceback, the blank line, and on an interrupt the reset of
    the interface. No normalization, scan or cleanup comes with it. *)
Theorem plugin_action_stands_alone s :
  exists l,
    events (world (main env s).2) = (events (world s) ++ l)%list /\
    (count is_plugin_call l <= 1)%nat /\
    (count is_plugin_call l = 1%nat ->
     exists pre f xs tl,
       l = (pre ++ [Call f xs] ++ tl)%list /\
       is_plugin_call (Call f xs) = true /\
       Forall (fun e => is_preamble e = true) pre /\
       Forall (fun e => is_handler_event e = true) tl /\
       (is_Ok (collaborator env (events (world s) ++ pre) f xs) = true ->
        tl = [] /\ (main env s).1 = Ok tt)).
Proof.
  destruct (main_try_plugin_alone s) as (l1 & E1 & H1).
  assert (Htl : exists l3,
            events (world (main env s).2) = (events (world s) ++ l1 ++ l3)%list /\
            Forall (fun e => is_handler_event e && negb (is_plugin_call e) = true) l3 /\
            (is_Ok (main_try env s).1 = true -> l3 = [] /\ (main env s).1 = Ok tt)).
  { unfold main. destruct (main_try env s) as [[[]|e] s1]; cbn [fst snd] in *.
    - exists []. rewrite app_nil_r. done.
    - destruct (main_except_handler e s1) as (l3 & E3 & H3).
      exists l3. rewrite E3, E1, <- app_assoc. done. }
  destruct Htl as (l3 & E3 & H3 & Hok).
  assert (H3p : count is_plugin_call l3 = 0%nat).
  { apply count_none. eapply Forall_impl; [exact H3|].
    intros e [_ He]%andb_true_iff. exact He. }
  assert (H3h : Forall (fun e => is_handler_event e = true) l3).
  { eapply Forall_impl; [exact H3|]. intros e [He _]%andb_true_iff. exact He. }
  exists (l1 ++ l3)%list. split; [exact E3|].
  destruct H1 as [Hq|(p & f & xs & -> & Hp & Hf & Hr)].
  - rewrite count_app, (count_none _ _ Hq), H3p. split; [lia|]. discriminate.
  - assert (Hc : count is_plugin_call ((p ++ [Call f xs]) ++ l3) = 1%nat).
    { rewrite !count_app, (count_none _ _ (preamble_no_plugin _ Hp)), H3p.
      unfold count. cbn [List.filter]. now rewrite Hf. }
    rewrite Hc. split; [lia|]. intros _.
    exists p, f, xs, l3. split; [now rewrite <- app_assoc|].
    split; [done|]. split; [done|]. split; [done|].
    intros Hco. apply Hok. rewrite Hr.
    now destruct (collaborator env (events (world s) ++ p) f xs).
Qed.

Lemma normalize_skipped s d v :
  args s = Some d -> d !! "--adv" = Some v -> truthy v = true ->
  normalize env s = (Ok tt, s).
Proof.
  intros Ha Hk Hv. unfold normalize.
  erewrite bind_ok; [|apply getitem_ok with d; [exact Ha|exact Hk]].
  now rewrite Hv.
Qed.

(** The run from the first test of a plugin option on, for a sniff. *)
Lemma sniff_tail s d v (p := not_of_prepare_hci) :
  args s = Some d -> d !! "--adv" = Some v -> truthy v = true ->
  forall (A1 A2 A3 A4 : M Frame unit),
    only frame_events p A1 -> only frame_events p A2 ->
    only frame_events p A3 -> only frame_events p A4 ->
    exists l,
      events (world
        (bind (getitem "--list-installed-plugins") (fun v =>
           if truthy v then A1 else
           bind (getitem "--install-plugin") (fun v =>
             if truthy v then A2 else
             bind (getitem "--uninstall-plugin") (fun v =>
               if truthy v then A3 else
               bind (getitem "--run-plugin") (fun v =>
                 if truthy v then A4 else scan_run env)))) s).2)
      = (events (world s) ++ l)%list /\
      Forall (fun e => p e = true) l.
Proof.
  intros Ha Hk Hv A1 A2 A3 A4 H1 H2 H3 H4.
  assert (Hstop : forall e, exists l,
            events (world (Raise e : Result unit, s).2) = (events (world s) ++ l)%list /\
            Forall (fun e => p e = true) l).
  { intros e. exists []. cbn. now rewrite app_nil_r. }
  assert (Hscan : only frame_events p (bind (dispatch env) (fun scan_result =>
                    lift (print_scan_result scan_result))))
    by (unfold dispatch; repeat only_more).
  unfold bind at 1. unfold getitem at 1. rewrite Ha.
  destruct (d !! "--list-installed-plugins") as [v1|]; [|apply Hstop].
  destruct (truthy v1); [apply H1|].
  unfold bind at 1. unfold getitem at 1. rewrite Ha.
  destruct (d !! "--install-plugin") as [v2|]; [|apply Hstop].
  destruct (truthy v2); [apply H2|].
  unfold bind at 1. unfold getitem at 1. rewrite Ha.
  destruct (d !! "--uninstall-plugin") as [v3|]; [|apply Hstop].
  destruct (truthy v3); [apply H3|].
  unfold bind at 1. unfold getitem at 1. rewrite Ha.
  destruct (d !! "--run-plugin") as [v4|]; [|apply Hstop].
  destruct (truthy v4); [apply H4|].
  unfold scan_run. rewrite (bind_ok _ _ _ _ _ (normalize_skipped s d v Ha Hk Hv)).
  apply Hscan.
Qed.

(** X15. With [--adv], the passive sniff, [prepare_hci] does not run:
    whatever else the options say, the body of [main] opens no handle,
    sends no HCI command, removes no cache file and runs none of the
    three host commands of normalization. *)
Theorem sniff_skips_normalization s d v :
  parse_cmdline env = Ok d ->
  d !! "--adv" = Some v ->
  truthy v = true ->
  exists l,
    events (world (main_try env s).2) = (events (world s) ++ l)%list /\
    Forall (fun e => not_of_prepare_hci e = true) l.
Proof.
  intros Hp Hk Hv. unfold main_try. rewrite Hp.
  erewrite bind_ok; [|reflexivity].
  erewrite bind_ok; [|reflexivity].
  erewrite bind_ok; [|reflexivity].
  erewrite bind_ok; [|reflexivity].
  match goal with
  | |- context [bind (getitem "--list-installed-plugins") ?k ?s1] =>
      destruct (sniff_tail s1 d v eq_refl Hk Hv
                  (bind (call env "list_plugins" []) (fun _ => ret tt))
                  (bind (getitem "--install-plugin") (fun w =>
                     bind (call env "install_plugin" [w]) (fun _ => ret tt)))
                  (bind (getitem "--uninstall-plugin") (fun n =>
                     bind (call env "uninstall_plugin" [n]) (fun _ => ret tt)))
                  (bind (getitem "--run-plugin") (fun n =>
                     bind (getitem "<plugin-opt>") (fun o =>
                       bind (call env "run_plugin" [n; o]) (fun _ => ret tt)))))
        as (l & E & Hl); [repeat only_more ..|]
  end.
  unfold scan_run in E.
  exists ([Call "parse_cmdline" [];
           Log DEBUG ("parse_cmdline() returned" ++ nl ++ "    args: "
                      ++ format_args d)] ++ l)%list.
  split.
  - rewrite E. unfold lift, emit, logger, emit_event. cbn.
    now rewrite <- !app_assoc.
  - apply Forall_app. split; [|exact Hl]. repeat constructor.
Qed.

End Separation.

Lemma sniff_skips_normalization_witness :
  exists l,
    events (world (@main_try core_packages
                     (sample_env all_success sniff_args (fun _ => Ok PNone))
                     (start_frame ∅)).2)
    = (events (world (start_frame ∅)) ++ l)%list /\
    Forall (fun e => not_of_prepare_hci e = true) l.
Proof.
  apply (@sniff_skips_normalization core_packages
           (sample_env all_success sniff_args (fun _ => Ok PNone))
           (start_frame ∅) sniff_args (PBool true)); reflexivity.
Defined.

(** ** The engines and the handle *)

Lemma handle_after_app o l1 l2 :
  handle_after o (l1 ++ l2) = handle_after (handle_after o l1) l2.
Proof.
  revert o. induction l1 as [|e l1 IH]; intros o; [done|].
  destruct e; cbn; apply IH.
Qed.

Lemma engines_apart_app o l1 l2 :
  engines_apart o (l1 ++ l2)
  = engines_apart o l1 && engines_apart (handle_after o l1) l2.
Proof.
  revert o. induction l1 as [|e l1 IH]; intros o; [done|].
  destruct e; cbn; rewrite IH; try done; now rewrite andb_assoc.
Qed.

Lemma not_handle_keeps_state o l :
  Forall (fun e => not_handle e = true) l ->
  handle_after o l = o /\ engines_apart false l = true.
Proof.
  revert o. induction 1 as [|e l He _ IH]; intros; [done|].
  destruct e; try discriminate He; cbn; apply IH.
Qed.

Lemma no_engine_apart o l :
  Forall (fun e => negb (is_engine_call e) = true) l -> engines_apart o l = true.
Proof.
  intros Hl. revert o. induction Hl as [|e l He _ IH]; intros o; [done|].
  apply negb_true_iff in He.
  destruct e; cbn in *; rewrite ?He, ?andb_false_r; cbn; apply IH.
Qed.

Section EnginesApart.
Context `{Packages} (env : Env).

Local Abbreviation frame_events := (fun s : Frame => events (world s)).

Lemma prepare_hci_handle_use iface :
  emits events (prepare_hci env iface) (handle_use env 1).
Proof.
  unfold prepare_hci.
  do 4 (apply handle_use_after; [solve [repeat only_step] | intros ?]).
  apply handle_use_open. intros _.
  repeat lazymatch goal with
         | |- emits _ (bind _ _) _ =>
             apply handle_use_after; [solve [repeat only_step] | intros ?]
         end.
  apply handle_use_close.
Qed.

Lemma handle_released_bind {A B} (c : M Frame A) (k : A -> M Frame B) :
  emits frame_events c handle_released ->
  (forall a, emits frame_events (k a) handle_released) ->
  emits frame_events (bind c k) handle_released.
Proof.
  intros Hc Hk. apply emits_bind with (1 := Hc) (2 := Hk).
  - intros e l [U1 _]. split; [done|discriminate].
  - intros a l1 r l2 [U1 U2] [V1 V2]. unfold handle_released.
    rewrite engines_apart_app, handle_after_app, U1, U2 by done. done.
Qed.

Lemma handle_released_quiet {A} (c : M Frame A) :
  only frame_events not_handle c -> emits frame_events c handle_released.
Proof.
  intros Hc. apply emits_weaken with (1 := Hc).
  intros r l Hl. destruct (not_handle_keeps_state false l Hl). done.
Qed.

Lemma handle_released_prepare_hci iface :
  emits frame_events (lift (prepare_hci env iface)) handle_released.
Proof.
  assert (Hq : only events (fun e => negb (is_engine_call e)) (prepare_hci env iface))
    by (unfold prepare_hci; repeat only_unfold).
  intros s. destruct (Hq (world s)) as (l & E & Hl).
  destruct (prepare_hci_handle_use iface (world s)) as (l' & E' & _ & _ & U & _).
  rewrite E in E'. apply app_inv_head in E'. subst l'.
  exists l. unfold lift.
  destruct (prepare_hci env iface (world s)) as [r w'] eqn:Hrun. cbn in *.
  split; [done|]. split; [now apply no_engine_apart|].
  intros Hr. destruct r as [[]|]; [|discriminate].
  destruct (U eq_refl) as (_ & _ & l0 & ->).
  rewrite handle_after_app. reflexivity.
Qed.

Lemma main_try_handle_released :
  emits frame_events (main_try env) handle_released.
Proof.
  unfold main_try.
  repeat first
    [ apply handle_released_quiet; solve [repeat only_more]
    | lazymatch goal with
      | |- emits _ (normalize _) _ => unfold normalize
      | |- emits _ (lift (prepare_hci _ _)) _ => apply handle_released_prepare_hci
      | |- emits _ (bind _ _) _ => apply handle_released_bind; [|intros ?]
      | |- emits _ (if ?b then _ else _) _ => destruct b
      end ].
Qed.

(** X16. The handle of normalization and the engines are kept apart:
    in every run of [main], no scan engine and no [BlueScanner] is
    built or called between the opening of the handle and its closing,
    and the handle is closed when the body of [main] returns. *)
Theorem engines_never_meet_the_handle s :
  (exists l,
     events (world (main env s).2) = (events (world s) ++ l)%list /\
     engines_apart false l = true) /\
  (exists l,
     events (world (main_try env s).2) = (events (world s) ++ l)%list /\
     ((main_try env s).1 = Ok tt -> handle_after false l = false)).
Proof.
  destruct (main_try_handle_released s) as (l & E & U1 & U2). split.
  - unfold main. destruct (main_try env s) as [[[]|e] s1]; cbn in *.
    + exists l. done.
    + assert (Hq : only frame_events (fun e => negb (is_engine_call e))
                     (main_except env e))
        by (unfold main_except; destruct e; repeat only_more).
      destruct (Hq s1) as (l2 & E2 & Hl2).
      exists (l ++ l2)%list. rewrite E2, E, <- app_assoc. split; [done|].
      rewrite engines_apart_app, U1. now apply no_engine_apart.
  - exists l. split; [done|]. intros Hr. apply U2. now rewrite Hr.
Qed.

End EnginesApart.


(** ** The replies that normalization reads *)

Lemma bind_cong {S A B} (c c' : M S A) (k k' : A -> M S B) s :
  c s = c' s -> (forall a s1, k a s1 = k' a s1) -> bind c k s = bind c' k' s.
Proof.
  intros Ec Ek. unfold bind. rewrite Ec.
  destruct (c' s) as [[a|e] s1]; [apply Ek|reflexivity].
Qed.

Lemma bind_returns {S A B} (c : M S A) (k : A -> M S B) s b :
  (bind c k s).1 = Ok b ->
  exists a s1, c s = (Ok a, s1) /\ (k a s1).1 = Ok b.
Proof.
  unfold bind. destruct (c s) as [[a|e] s1]; cbn; [eauto|discriminate].
Qed.

Section Replies.
Context `{Packages}.

Lemma hci_send_inv env st addr c w a w1 :
  replies env st addr ->
  hci_send env c w = (Ok a, w1) -> a = {| status := st c; bd_addr := addr |}.
Proof.
  intros Hr. unfold hci_send, bind, emit, of_result. rewrite (Hr c).
  now intros [= <- _].
Qed.

Lemma when_warn_inv (b : bool) what cc (w : World) a w1 :
  (if b then warn_status what cc else ret tt) w = (Ok a, w1) ->
  b = true -> is_Some (ControllerErrorCodes_name (status cc)).
Proof.
  intros E ->. unfold warn_status, returned_status, code_name, bind in E.
  destruct (ControllerErrorCodes_name (status cc)); [eauto|discriminate E].
Qed.

(** X17. The reply to [write_scan_enable] is dropped: as long as the
    command returns, its status and whatever else it carries change
    nothing in what [prepare_hci] logs, sends, removes, returns or
    raises. *)
Theorem scan_enable_reply_is_dropped env iface w cc cc' :
  HCI_reply env write_scan_enable = Ok cc ->
  prepare_hci (with_scan_enable_reply env (Ok cc')) iface w
  = prepare_hci env iface w.
Proof.
  intros E. unfold prepare_hci.
  do 10 (apply bind_cong; [reflexivity | intros ? ?]).
  unfold bind at 1 3, hci_send, bind, emit, of_result. cbn.
  rewrite E. reflexivity.
Qed.

(** X18. Normalization returns only if the address read returned
    SUCCESS and the table of error codes knows every status that a
    check reports for its own command: a reported status without a
    name ends [prepare_hci] at the lookup of the name. *)
Theorem completion_needs_known_codes env iface w st addr :
  replies env st addr ->
  (prepare_hci env iface w).1 = Ok tt ->
  st read_bd_addr = SUCCESS /\
  forall c, own_status_reported c (st c) = true ->
            is_Some (ControllerErrorCodes_name (st c)).
Proof.
  intros Hr Hok. unfold prepare_hci in Hok.
  do 6 (apply bind_returns in Hok as (? & ? & _ & Hok); cbn beta in Hok).
  apply bind_returns in Hok as (c1 & ? & S1 & Hok); cbn beta in Hok.
  apply (hci_send_inv _ _ _ _ _ _ _ Hr) in S1 as ->.
  apply bind_returns in Hok as (? & ? & W1 & Hok); cbn beta in Hok.
  apply bind_returns in Hok as (? & ? & _ & Hok); cbn beta in Hok.
  apply bind_returns in Hok as (c2 & ? & S2 & Hok); cbn beta in Hok.
  apply (hci_send_inv _ _ _ _ _ _ _ Hr) in S2 as ->.
  apply bind_returns in Hok as (? & ? & W2 & Hok); cbn beta in Hok.
  do 2 (apply bind_returns in Hok as (? & ? & _ & Hok); cbn beta in Hok).
  apply bind_returns in Hok as (c4 & ? & S4 & Hok); cbn beta in Hok.
  apply (hci_send_inv _ _ _ _ _ _ _ Hr) in S4 as ->.
  apply bind_returns in Hok as (? & ? & W4 & Hok); cbn beta in Hok.
  apply bind_returns in Hok as (c5 & ? & S5 & Hok); cbn beta in Hok.
  apply (hci_send_inv _ _ _ _ _ _ _ Hr) in S5 as ->.
  apply bind_returns in Hok as (? & ? & W5 & Hok); cbn beta in Hok.
  apply bind_returns in Hok as (c6 & ? & S6 & Hok); cbn beta in Hok.
  apply (hci_send_inv _ _ _ _ _ _ _ Hr) in S6 as ->.
  apply bind_returns in Hok as (? & ? & W6 & Hok); cbn beta in Hok.
  apply bind_returns in Hok as (c7 & ? & S7 & Hok); cbn beta in Hok.
  apply (hci_send_inv _ _ _ _ _ _ _ Hr) in S7 as ->.
  apply bind_returns in Hok as (? & ? & R & _).
  cbn [status] in R. split.
  - destruct (Z.eqb_spec (st read_bd_addr) SUCCESS) as [E|_]; [exact E|].
    cbn [negb] in R. unfold returned_status, code_name, bind in R. cbn [status] in R.
    destruct (ControllerErrorCodes_name (st read_bd_addr)); discriminate R.
  - intros c Hc.
    destruct c; cbn in Hc; try discriminate Hc;
      [ apply (when_warn_inv _ _ _ _ _ _ W1 Hc)
      | apply (when_warn_inv _ _ _ _ _ _ W2 Hc)
      | apply (when_warn_inv _ _ _ _ _ _ W4 Hc)
      | apply (when_warn_inv _ _ _ _ _ _ W5 Hc)
      | apply (when_warn_inv _ _ _ _ _ _ W6 Hc) ].
Qed.

End Replies.

Lemma scan_enable_reply_is_dropped_witness :
  @prepare_hci core_packages
    (with_scan_enable_reply (quiet_env all_success)
       (Ok {| status := 0x03; bd_addr := [] |}))
    "hci0" (world_of cache_with_file)
  = @prepare_hci core_packages (quiet_env all_success)
      "hci0" (world_of cache_with_file).
Proof.
  apply (@scan_enable_reply_is_dropped core_packages (quiet_env all_success)
           "hci0" (world_of cache_with_file)
           {| status := 0x00; bd_addr := sample_addr |}
           {| status := 0x03; bd_addr := [] |}).
  reflexivity.
Defined.

Lemma completion_needs_known_codes_witness :
  only_fails inquiry_cancel 0x03 read_bd_addr = @SUCCESS core_packages /\
  is_Some (@ControllerErrorCodes_name core_packages 0x03).
Proof.
  assert (Hr : @replies (quiet_env (only_fails inquiry_cancel 0x03))
                 (only_fails inquiry_cancel 0x03) sample_addr)
    by (intros c; reflexivity).
  assert (Hok : (@prepare_hci core_packages
                   (quiet_env (only_fails inquiry_cancel 0x03))
                   "hci0" (world_of ∅)).1 = Ok tt)
    by (vm_compute; reflexivity).
  destruct (@completion_needs_known_codes core_packages _ _ _ _ _ Hr Hok)
    as [Ha Hn].
  split; [exact Ha|]. exact (Hn inquiry_cancel eq_refl).
Defined.
